(** * diffalayze: patch-diff orchestration and LLM analysis pipeline

    A shallow embedding of the Python sources

    - [utils/llm_client.py]  (module [LlmClient]),
    - [utils/llmanalyze.py]  (module [LlmAnalyze]),
    - [diffalayze.py]        (module [Diffalayze]),
    - [utils/winbindexer.py] (module [Winbindexer]),
    - [targets/mrxsmb/fetch_target.py] (module [FetchTarget]),

    together with the properties of the severity scale, the bounded JSON
    unwrapping, the analysis pipeline, the trigger gate, the diff job
    scheduler and the target resolution, of the text extraction, the
    submission and analysis loops, the wait for the workers, the choice
    of the newest versions and the fetch script.

    Conventions.  A Python [str] is a [string]; a [pathlib.Path] is the list
    of its [parts]; a Python exception is a value of [exn] and a call that
    may raise returns a [result]; code with side effects is a function from
    a world to a result and a new world (effects that happened before an
    exception stay in the world, as in Python).  Functions of the Python
    runtime, of the operating system and of imported libraries that the
    sources call but do not define ([str.upper], [json.loads],
    [shlex.split], process creation, [Path.resolve], the language-model
    backends, the diffing engine, the fetch scripts, [git], the download)
    are parameters: the fields of [LlmAnalyze.runtime],
    [Diffalayze.platform], [Winbindexer.runtime] and
    [FetchTarget.runtime]. *)

From Stdlib Require Import List String Ascii Bool Arith ZArith Lia.
From Stdlib Require Import Sorting.Sorted Sorting.Permutation.
From Stdlib Require Import DecimalString OrderedTypeEx.
Import ListNotations.
Set Warnings "-register-all".
Local Open Scope string_scope.
Local Open Scope list_scope.
Local Open Scope nat_scope.

(* ===================================================================== *)
(** * Python runtime: values, exceptions, results                         *)
(* ===================================================================== *)

Module Py.

(** The exceptions the sources raise or let through. *)
Inductive exn : Type :=
| ValueError (msg : string)
| JSONDecodeError                 (* json.loads; a subclass of ValueError *)
| KeyError (key : string)
| FileNotFoundError (msg : string)
| CalledProcessError (returncode : Z)
| OSError (msg : string)
| TypeError (msg : string)
| AttributeError (msg : string)
| UnicodeError (msg : string)     (* encode, decode; a subclass of ValueError *)
| BackendError (msg : string).    (* whatever a model backend call raises *)

Inductive result (A : Type) : Type :=
| Ok (a : A)
| Raise (e : exn).
Arguments Ok {A} a.
Arguments Raise {A} e.

(** Values that [json.loads] can return.  A [dict] keeps insertion order
    and has one binding per key.  A float is kept as its literal. *)
Inductive json : Type :=
| JNull
| JBool (b : bool)
| JInt (z : Z)
| JFloat (literal : string)
| JStr (s : string)
| JArr (items : list json)
| JObj (members : list (string * json)).

Definition dict := list (string * json).

(** [d.get(key)] *)
Fixpoint dict_lookup (d : dict) (key : string) : option json :=
  match d with
  | [] => None
  | (k, v) :: rest => if String.eqb k key then Some v else dict_lookup rest key
  end.

(** [d.get(key, default)] *)
Definition dict_get (d : dict) (key : string) (default : json) : json :=
  match dict_lookup d key with
  | Some v => v
  | None => default
  end.

(** [d[key] = v]: replaces the binding in place or appends a new one. *)
Fixpoint dict_set (d : dict) (key : string) (v : json) : dict :=
  match d with
  | [] => [(key, v)]
  | (k, w) :: rest =>
      if String.eqb k key then (k, v) :: rest else (k, w) :: dict_set rest key v
  end.

(** Truthiness of an optional string ([if not cmd], [if LLM_MODEL]). *)
Definition truthy (o : option string) : bool :=
  match o with
  | Some s => negb (String.eqb s "")
  | None => false
  end.

(** Characters that cannot be written inside a string literal here. *)
Definition dquote : ascii := "034"%char.
Definition backslash : ascii := "092"%char.
Definition newline : ascii := "010"%char.
Definition nl : string := String newline EmptyString.

(** [str.upper] restricted to ASCII text: a-z go to A-Z, every other
    character stays. *)
Definition ascii_upper_char (c : ascii) : ascii :=
  let n := nat_of_ascii c in
  if (97 <=? n) && (n <=? 122) then ascii_of_nat (n - 32) else c.

Fixpoint ascii_upper (s : string) : string :=
  match s with
  | EmptyString => EmptyString
  | String c r => String (ascii_upper_char c) (ascii_upper r)
  end.

End Py.
Import Py.

(* ===================================================================== *)
(** * A reference JSON codec for the one-byte fragment                    *)
(* ===================================================================== *)

(** [json.loads] and [json.dumps] belong to the Python standard library.
    The theorems about [_robust_json] hold for any decoder; this module is
    a decoder and a string encoder for JSON texts whose characters and
    [\u] escapes stay below code point 256 and whose numbers are integers,
    so that the statements can be evaluated on concrete texts. *)
Module JsonRef.

Definition is_ws (c : ascii) : bool :=
  let n := nat_of_ascii c in
  (n =? 32) || (n =? 9) || (n =? 10) || (n =? 13).

Fixpoint skip_ws (s : string) : string :=
  match s with
  | String c r => if is_ws c then skip_ws r else s
  | EmptyString => s
  end.

Definition hex_val (c : ascii) : option nat :=
  let n := nat_of_ascii c in
  if (48 <=? n) && (n <=? 57) then Some (n - 48)
  else if (97 <=? n) && (n <=? 102) then Some (n - 87)
  else if (65 <=? n) && (n <=? 70) then Some (n - 55)
  else None.

(** The character an escape letter stands for. *)
Definition unescape (e : ascii) : option ascii :=
  let n := nat_of_ascii e in
  if n =? 34 then Some dquote
  else if n =? 92 then Some backslash
  else if n =? 47 then Some "/"%char
  else if n =? 98 then Some "008"%char
  else if n =? 102 then Some "012"%char
  else if n =? 110 then Some "010"%char
  else if n =? 114 then Some "013"%char
  else if n =? 116 then Some "009"%char
  else None.

(** Body of a string literal, after the opening quote: the decoded text
    and what follows the closing quote.  Raw control characters are
    refused (strict mode). *)
Fixpoint scan_string (s : string) : option (string * string) :=
  match s with
  | EmptyString => None
  | String c r =>
      if Ascii.eqb c dquote then Some (EmptyString, r)
      else if Ascii.eqb c backslash then
        match r with
        | String e r1 =>
            if Ascii.eqb e "u"%char then
              match r1 with
              | String h1 (String h2 (String h3 (String h4 r2))) =>
                  match hex_val h1, hex_val h2, hex_val h3, hex_val h4 with
                  | Some 0, Some 0, Some a, Some b =>
                      match scan_string r2 with
                      | Some (t, rest) => Some (String (ascii_of_nat (16 * a + b)) t, rest)
                      | None => None
                      end
                  | _, _, _, _ => None
                  end
              | _ => None
              end
            else
              match unescape e with
              | Some ch =>
                  match scan_string r1 with
                  | Some (t, rest) => Some (String ch t, rest)
                  | None => None
                  end
              | None => None
              end
        | EmptyString => None
        end
      else if nat_of_ascii c <? 32 then None
      else
        match scan_string r with
        | Some (t, rest) => Some (String c t, rest)
        | None => None
        end
  end.

Definition is_digit (c : ascii) : bool :=
  let n := nat_of_ascii c in (48 <=? n) && (n <=? 57).

Fixpoint scan_digits (acc : Z) (s : string) : Z * string :=
  match s with
  | String c r =>
      if is_digit c
      then scan_digits (10 * acc + Z.of_nat (nat_of_ascii c - 48)) r
      else (acc, s)
  | EmptyString => (acc, s)
  end.

(** An integer literal: [0] or a nonzero digit followed by digits. *)
Definition scan_nat (s : string) : option (Z * string) :=
  match s with
  | String c r =>
      if Ascii.eqb c "0"%char then Some (0%Z, r)
      else if is_digit c then Some (scan_digits 0 s)
      else None
  | EmptyString => None
  end.

Definition starts_number_tail (s : string) : bool :=
  match s with
  | String c _ =>
      is_digit c || Ascii.eqb c "."%char || Ascii.eqb c "e"%char || Ascii.eqb c "E"%char
  | EmptyString => false
  end.

Definition strip_prefix (p s : string) : option string :=
  if String.prefix p s
  then Some (String.substring (String.length p) (String.length s - String.length p) s)
  else None.

Fixpoint parse_value (fuel : nat) (s : string) {struct fuel} : option (json * string) :=
  match fuel with
  | O => None
  | S f =>
      match skip_ws s with
      | EmptyString => None
      | String c r =>
          if Ascii.eqb c dquote then
            match scan_string r with
            | Some (t, rest) => Some (JStr t, rest)
            | None => None
            end
          else if Ascii.eqb c "{"%char then
            match skip_ws r with
            | String c1 r1 =>
                if Ascii.eqb c1 "}"%char then Some (JObj [], r1)
                else parse_members f [] r
            | EmptyString => None
            end
          else if Ascii.eqb c "["%char then
            match skip_ws r with
            | String c1 r1 =>
                if Ascii.eqb c1 "]"%char then Some (JArr [], r1)
                else parse_items f [] r
            | EmptyString => None
            end
          else if Ascii.eqb c "-"%char then
            match scan_nat r with
            | Some (z, rest) =>
                if starts_number_tail rest then None else Some (JInt (- z), rest)
            | None => None
            end
          else if is_digit c then
            match scan_nat (String c r) with
            | Some (z, rest) =>
                if starts_number_tail rest then None else Some (JInt z, rest)
            | None => None
            end
          else
            match strip_prefix "true" (String c r) with
            | Some rest => Some (JBool true, rest)
            | None =>
                match strip_prefix "false" (String c r) with
                | Some rest => Some (JBool false, rest)
                | None =>
                    match strip_prefix "null" (String c r) with
                    | Some rest => Some (JNull, rest)
                    | None => None
                    end
                end
            end
      end
  end

with parse_items (fuel : nat) (acc : list json) (s : string) {struct fuel}
  : option (json * string) :=
  match fuel with
  | O => None
  | S f =>
      match parse_value f s with
      | Some (v, rest) =>
          match skip_ws rest with
          | String c r =>
              if Ascii.eqb c ","%char then parse_items f (acc ++ [v]) r
              else if Ascii.eqb c "]"%char then Some (JArr (acc ++ [v]), r)
              else None
          | EmptyString => None
          end
      | None => None
      end
  end

with parse_members (fuel : nat) (acc : dict) (s : string) {struct fuel}
  : option (json * string) :=
  match fuel with
  | O => None
  | S f =>
      match skip_ws s with
      | String q r0 =>
          if Ascii.eqb q dquote then
            match scan_string r0 with
            | Some (k, r1) =>
                match skip_ws r1 with
                | String c r2 =>
                    if Ascii.eqb c ":"%char then
                      match parse_value f r2 with
                      | Some (v, rest) =>
                          match skip_ws rest with
                          | String c3 r3 =>
                              if Ascii.eqb c3 ","%char
                              then parse_members f (dict_set acc k v) r3
                              else if Ascii.eqb c3 "}"%char
                              then Some (JObj (dict_set acc k v), r3)
                              else None
                          | EmptyString => None
                          end
                      | None => None
                      end
                    else None
                | EmptyString => None
                end
            | None => None
            end
          else None
      | EmptyString => None
      end
  end.

(** [json.loads(s)] on the fragment. *)
Definition loads (s : string) : result json :=
  match parse_value (2 * String.length s + 2) s with
  | Some (v, rest) =>
      match skip_ws rest with
      | EmptyString => Ok v
      | String _ _ => Raise JSONDecodeError
      end
  | None => Raise JSONDecodeError
  end.

Definition hex_digit (n : nat) : ascii :=
  if n <? 10 then ascii_of_nat (48 + n) else ascii_of_nat (87 + n).

(** How [json.dumps] writes one character of a string (ensure_ascii). *)
Definition escape_char (c : ascii) : string :=
  let n := nat_of_ascii c in
  if n =? 34 then String backslash (String dquote EmptyString)
  else if n =? 92 then String backslash (String backslash EmptyString)
  else if n =? 10 then String backslash "n"
  else if n =? 13 then String backslash "r"
  else if n =? 9 then String backslash "t"
  else if n =? 8 then String backslash "b"
  else if n =? 12 then String backslash "f"
  else if (n <? 32) || (127 <? n)
  then String backslash
         (String "u" (String "0" (String "0"
            (String (hex_digit (n / 16)) (String (hex_digit (n mod 16)) EmptyString)))))
  else String c EmptyString.

Fixpoint escape (s : string) : string :=
  match s with
  | EmptyString => EmptyString
  | String c r => String.append (escape_char c) (escape r)
  end.

(** [json.dumps(s)] for a [str]. *)
Definition dumps_str (s : string) : string :=
  String dquote (String.append (escape s) (String dquote EmptyString)).

End JsonRef.

(* ===================================================================== *)
(** * utils/llm_client.py                                                 *)
(* ===================================================================== *)

Module LlmClient.

Section RobustJson.

(** [json.loads]: a decoded value, or [JSONDecodeError]. *)
Variable json_loads : string -> result json.

(** The loop of [_robust_json]: at most [n] rounds; a round stops the loop
    when the object is not a [str], and otherwise replaces it by its
    decoding (an exception of [json.loads] leaves the function). *)
Fixpoint unwrap_loop (n : nat) (obj : json) : result json :=
  match n with
  | O => Ok obj
  | S n' =>
      match obj with
      | JStr s =>
          match json_loads s with
          | Ok v => unwrap_loop n' v
          | Raise e => Raise e
          end
      | _ => Ok obj
      end
  end.

(** [_robust_json(txt)] *)
Definition _robust_json (txt : string) : result dict :=
  match unwrap_loop 3 (JStr txt) with
  | Ok (JObj d) => Ok d
  | Ok _ => Raise (ValueError "response is not a JSON object")
  | Raise e => Raise e
  end.

(** [txt] is the JSON text of the mapping [d], re-encoded [k] times as a
    JSON string: decoding it [k] times gives a string each time, and the
    innermost string is a JSON text of [d]. *)
Fixpoint wrapped (k : nat) (d : dict) (txt : string) : Prop :=
  match k with
  | O => json_loads txt = Ok (JObj d)
  | S k' => exists inner, json_loads txt = Ok (JStr inner) /\ wrapped k' d inner
  end.

(** The text needs [n] decodings to reach the mapping. *)
Lemma unwrap_loop_wrapped (k : nat) : forall n d txt,
  wrapped k d txt -> k < n -> unwrap_loop n (JStr txt) = Ok (JObj d).
Proof.
  induction k as [|k IH]; intros n d txt Hw Hlt.
  - destruct n as [|n]; [lia|]. simpl in *. rewrite Hw.
    destruct n; reflexivity.
  - destruct n as [|n]; [lia|]. destruct Hw as (inner & Hl & Hw).
    simpl. rewrite Hl. apply IH; [assumption | lia].
Qed.

(** With more layers than rounds the loop ends on a string. *)
Lemma unwrap_loop_short (n : nat) : forall k d txt,
  wrapped k d txt -> n <= k -> exists s, unwrap_loop n (JStr txt) = Ok (JStr s).
Proof.
  induction n as [|n IH]; intros k d txt Hw Hle.
  - exists txt. reflexivity.
  - destruct k as [|k]; [lia|]. destruct Hw as (inner & Hl & Hw).
    simpl. rewrite Hl. apply (IH k d inner); [assumption | lia].
Qed.

(** C1 (amended).  For a mapping whose JSON text was re-encoded as a
    JSON string [k] times: with [k] = 0, 1 or 2 (at most three decodings
    reach the mapping) [_robust_json] returns the mapping; with [k] = 3
    or more it raises the [ValueError] for a response that is not a JSON
    object.  The loop runs at most three rounds, so the function always
    ends. *)
Theorem robust_json_bounded (k : nat) (d : dict) (txt : string) :
  wrapped k d txt ->
  (k <= 2 -> _robust_json txt = Ok d) /\
  (3 <= k -> _robust_json txt = Raise (ValueError "response is not a JSON object")).
Proof.
  intros Hw. unfold _robust_json. split; intros Hk.
  - rewrite (unwrap_loop_wrapped k 3 d txt Hw); [reflexivity | lia].
  - destruct (unwrap_loop_short 3 k d txt Hw Hk) as [s ->]. reflexivity.
Qed.

(** Whatever the text, at most three decodings are attempted: the
    result of the loop after three rounds is the result of the function. *)
Lemma robust_json_three_rounds (txt : string) :
  _robust_json txt =
    match json_loads txt with
    | Ok (JStr s1) =>
        match json_loads s1 with
        | Ok (JStr s2) =>
            match json_loads s2 with
            | Ok (JObj d) => Ok d
            | Ok _ => Raise (ValueError "response is not a JSON object")
            | Raise e => Raise e
            end
        | Ok (JObj d) => Ok d
        | Ok _ => Raise (ValueError "response is not a JSON object")
        | Raise e => Raise e
        end
    | Ok (JObj d) => Ok d
    | Ok _ => Raise (ValueError "response is not a JSON object")
    | Raise e => Raise e
    end.
Proof.
  unfold _robust_json. simpl.
  destruct (json_loads txt) as [[| | | |s1| |]|]; try reflexivity.
  destruct (json_loads s1) as [[| | | |s2| |]|]; try reflexivity.
  destruct (json_loads s2) as [[| | | | | |]|]; reflexivity.
Qed.

(** A result of the loop that is a mapping was reached through string
    layers only, fewer than the rounds of the loop. *)
Lemma unwrap_loop_sound (n : nat) : forall txt d,
  unwrap_loop n (JStr txt) = Ok (JObj d) -> exists k, k < n /\ wrapped k d txt.
Proof.
  induction n as [|n IH]; intros txt d H; simpl in H; [discriminate|].
  destruct (json_loads txt) as [v|e] eqn:Hl; [|discriminate].
  destruct v as [| | | |s| |d'].
  1-4, 6: destruct n; discriminate H.
  - destruct (IH s d H) as (k & Hk & Hw).
    exists (S k). split; [lia|]. exists s. split; [exact Hl | exact Hw].
  - assert (Hd : d' = d) by (destruct n; simpl in H; congruence).
    subst d'. exists 0. split; [lia | exact Hl].
Qed.

(** X1.  A mapping that [_robust_json] returns is what decoding the text
    gives after zero, one or two string layers: the function returns no
    mapping that the text does not encode, and none that lies behind
    three or more layers. *)
Theorem robust_json_sound (txt : string) (d : dict) :
  _robust_json txt = Ok d -> exists k, k <= 2 /\ wrapped k d txt.
Proof.
  unfold _robust_json. intros H.
  destruct (unwrap_loop 3 (JStr txt)) as [v|e] eqn:Hu; [|discriminate].
  destruct v; try discriminate. injection H as ->.
  destruct (unwrap_loop_sound 3 txt d Hu) as (k & Hk & Hw).
  exists k. split; [lia | exact Hw].
Qed.

(** An exception of the loop is one that [json.loads] raised. *)
Lemma unwrap_loop_raises (n : nat) : forall obj e,
  unwrap_loop n obj = Raise e -> exists s, json_loads s = Raise e.
Proof.
  induction n as [|n IH]; intros obj e H; simpl in H; [discriminate|].
  destruct obj; try discriminate.
  destruct (json_loads s) as [v|e'] eqn:Hl.
  - exact (IH v e H).
  - injection H as ->. exists s. exact Hl.
Qed.

(** X2.  [_robust_json] raises nothing of its own but the [ValueError]
    for a response that is not a JSON object: any other exception is one
    that [json.loads] raised on the text or on a string decoded from it,
    passed on unchanged; and when the text itself does not decode, that
    exception is the result. *)
Theorem robust_json_raises (txt : string) (e : exn) :
  _robust_json txt = Raise e ->
  (e = ValueError "response is not a JSON object" \/
   exists s, json_loads s = Raise e) /\
  (forall e0, json_loads txt = Raise e0 -> e = e0).
Proof.
  intros H. split.
  - unfold _robust_json in H.
    destruct (unwrap_loop 3 (JStr txt)) as [v|e'] eqn:Hu.
    + left. destruct v; congruence.
    + right. injection H as ->. exact (unwrap_loop_raises _ _ _ Hu).
  - intros e0 H0. unfold _robust_json in H. simpl in H. rewrite H0 in H. congruence.
Qed.

End RobustJson.

(** The mapping [{}] written as JSON and re-encoded three times. *)
Definition empty_wrapped3 : string :=
  Eval vm_compute in
    JsonRef.dumps_str (JsonRef.dumps_str (JsonRef.dumps_str "{}")).

(** ** Re-encoding with the reference codec *)

Lemma append_assoc (a b c : string) :
  String.append (String.append a b) c = String.append a (String.append b c).
Proof. induction a as [|x a IH]; simpl; [reflexivity | rewrite IH; reflexivity]. Qed.

(** Scanning the escape of one character gives the character back. *)
Lemma scan_escape_char (c : ascii) (rest : string) :
  JsonRef.scan_string (String.append (JsonRef.escape_char c) rest) =
    match JsonRef.scan_string rest with
    | Some (t, r) => Some (String c t, r)
    | None => None
    end.
Proof. destruct c as [[] [] [] [] [] [] [] []]; reflexivity. Qed.

Lemma scan_escape (s rest : string) :
  JsonRef.scan_string (String.append (JsonRef.escape s) (String dquote rest)) =
    Some (s, rest).
Proof.
  induction s as [|c s IH]; [reflexivity|].
  cbn [JsonRef.escape]. rewrite append_assoc, scan_escape_char, IH. reflexivity.
Qed.

(** Decoding an encoded string gives the string back. *)
Lemma loads_dumps_str (s : string) : JsonRef.loads (JsonRef.dumps_str s) = Ok (JStr s).
Proof.
  unfold JsonRef.loads, JsonRef.dumps_str.
  replace (2 * String.length (String dquote (String.append (JsonRef.escape s)
             (String dquote EmptyString))) + 2)
    with (S (2 * String.length (String dquote (String.append (JsonRef.escape s)
             (String dquote EmptyString))) + 1)) by lia.
  cbn [JsonRef.parse_value JsonRef.skip_ws].
  change (JsonRef.is_ws dquote) with false. cbv iota.
  change (Ascii.eqb dquote dquote) with true. cbv iota.
  rewrite scan_escape. reflexivity.
Qed.

Lemma wrapped_iter_dumps (k : nat) (d : dict) (payload : string) :
  JsonRef.loads payload = Ok (JObj d) ->
  wrapped JsonRef.loads k d (Nat.iter k JsonRef.dumps_str payload).
Proof.
  intros H. induction k as [|k IH]; simpl; [exact H|].
  exists (Nat.iter k JsonRef.dumps_str payload). split; [apply loads_dumps_str | exact IH].
Qed.

(** Every JSON text of a mapping, re-encoded up to twice, decodes to the
    mapping; re-encoded three times or more, it is refused. *)
Lemma robust_json_reencoded (k : nat) (d : dict) (payload : string) :
  JsonRef.loads payload = Ok (JObj d) ->
  _robust_json JsonRef.loads (Nat.iter k JsonRef.dumps_str payload) =
    if k <=? 2 then Ok d else Raise (ValueError "response is not a JSON object").
Proof.
  intros H. apply (wrapped_iter_dumps k) in H.
  unfold _robust_json. destruct (Nat.leb_spec k 2) as [Hk|Hk].
  - rewrite (unwrap_loop_wrapped JsonRef.loads k 3 d _ H); [reflexivity | lia].
  - destruct (unwrap_loop_short JsonRef.loads 3 k d _ H) as [s ->]; [lia | reflexivity].
Qed.

(** The mapping [{}] written as JSON and re-encoded twice. *)
Definition empty_wrapped2 : string :=
  Eval vm_compute in JsonRef.dumps_str (JsonRef.dumps_str "{}").

Lemma empty_wrapped2_layers : wrapped JsonRef.loads 2 [] empty_wrapped2.
Proof.
  exists (JsonRef.dumps_str "{}"). split; [reflexivity|].
  exists "{}". split; reflexivity.
Qed.

Lemma empty_wrapped3_layers : wrapped JsonRef.loads 3 [] empty_wrapped3.
Proof.
  exists empty_wrapped2. split; [reflexivity|]. exact empty_wrapped2_layers.
Qed.

(** C1, as first stated, at three layers: the text of [{}] re-encoded
    three times is not decoded to the mapping; the function raises. *)
Lemma robust_json_three_layers_raise :
  wrapped JsonRef.loads 3 [] empty_wrapped3 /\
  _robust_json JsonRef.loads empty_wrapped3 =
    Raise (ValueError "response is not a JSON object") /\
  _robust_json JsonRef.loads empty_wrapped3 <> Ok [].
Proof.
  split; [exact empty_wrapped3_layers|]. split; [reflexivity | discriminate].
Qed.

(** C1 (amended) at [{}] re-encoded twice and three times. *)
Lemma robust_json_bounded_witness :
  wrapped JsonRef.loads 2 [] empty_wrapped2 /\
  _robust_json JsonRef.loads empty_wrapped2 = Ok [] /\
  wrapped JsonRef.loads 3 [] empty_wrapped3 /\
  _robust_json JsonRef.loads empty_wrapped3 =
    Raise (ValueError "response is not a JSON object").
Proof.
  split; [exact empty_wrapped2_layers|].
  split; [apply (robust_json_bounded JsonRef.loads 2 [] empty_wrapped2
                   empty_wrapped2_layers); lia|].
  split; [exact empty_wrapped3_layers|].
  apply (robust_json_bounded JsonRef.loads 3 [] empty_wrapped3
           empty_wrapped3_layers); lia.
Defined.

(** ** [_extract]: the text in the answer of a backend *)

(** The exceptions of subscripting and attribute access. *)
Inductive access_error : Type :=
| E_IndexError
| E_KeyError
| E_TypeError
| E_AttributeError.

Inductive access (A : Type) : Type :=
| Got (a : A)
| Fails (e : access_error).
Arguments Got {A} a.
Arguments Fails {A} e.

(** [v[0]] *)
Definition first_item (v : json) : access json :=
  match v with
  | JArr (x :: _) => Got x
  | JArr [] => Fails E_IndexError
  | JStr (String c _) => Got (JStr (String c EmptyString))
  | JStr EmptyString => Fails E_IndexError
  | JObj _ => Fails E_KeyError
  | _ => Fails E_TypeError
  end.

(** [v.get(key, default)]: only a [dict] has [get]. *)
Definition get_item (v : json) (key : string) (default : json) : access json :=
  match v with
  | JObj d => Got (dict_get d key default)
  | _ => Fails E_AttributeError
  end.

(** The items of [for p in v]. *)
Fixpoint chars (s : string) : list json :=
  match s with
  | EmptyString => []
  | String c r => JStr (String c EmptyString) :: chars r
  end.

Definition items (v : json) : access (list json) :=
  match v with
  | JArr l => Got l
  | JStr s => Got (chars s)
  | JObj d => Got (map (fun kv => JStr (fst kv)) d)
  | _ => Fails E_TypeError
  end.

(** ["".join(p.get("text", "") for p in parts if isinstance(p, dict))] *)
Fixpoint join_texts (parts : list json) : access string :=
  match parts with
  | [] => Got EmptyString
  | JObj d :: rest =>
      match dict_get d "text" (JStr ""), join_texts rest with
      | JStr t, Got r => Got (String.append t r)
      | _, _ => Fails E_TypeError
      end
  | _ :: rest => join_texts rest
  end.

Lemma append_empty_r (s : string) : String.append s "" = s.
Proof. induction s as [|c s IH]; simpl; [|rewrite IH]; reflexivity. Qed.

Section Extract.

(** Truth of a float, given as its literal. *)
Variable float_truthy : string -> bool.

(** [bool(v)] *)
Definition json_truthy (v : json) : bool :=
  match v with
  | JNull => false
  | JBool b => b
  | JInt z => negb (z =? 0)%Z
  | JFloat literal => float_truthy literal
  | JStr s => negb (String.eqb s "")
  | JArr l => match l with [] => false | _ => true end
  | JObj d => match d with [] => false | _ => true end
  end.

(** [_extract(data, backend)] *)
Definition _extract (data : dict) (backend : string) : access json :=
  if String.eqb backend "ollama" || String.eqb backend "openai" then
    match first_item (dict_get data "choices" (JArr [JObj []])) with
    | Fails e => Fails e
    | Got choice =>
        match get_item choice "message" (JObj []) with
        | Fails e => Fails e
        | Got (JObj message) =>
            match get_item choice "content" (JStr "") with
            | Fails e => Fails e
            | Got fallback =>
                let text := dict_get message "content" fallback in
                Got (if json_truthy text then text else JStr "")
            end
        | Got _ => Fails E_AttributeError
        end
    end
  else if String.eqb backend "anthropic" then
    match items (dict_get data "content" (JArr [])) with
    | Fails e => Fails e
    | Got parts =>
        match join_texts parts with
        | Got s => Got (JStr s)
        | Fails e => Fails e
        end
    end
  else Got (JStr "").

(** X27.  The text of a chat completion ([ollama], [openai]).  The
    result is never a false value other than the empty string.  The
    content of the message of the first choice is returned when it is
    true, whatever else the answer holds; without that key the content
    of the choice itself; and the empty string when neither is true.  An
    answer without the key [choices] gives the empty string, but one
    whose [choices] is the empty list raises [IndexError]. *)
Theorem extract_chat_text (data : dict) (backend : string) :
  backend = "ollama" \/ backend = "openai" ->
  (forall v, _extract data backend = Got v -> v = JStr "" \/ json_truthy v = true) /\
  (forall choice others message text,
     dict_lookup data "choices" = Some (JArr (JObj choice :: others)) ->
     dict_lookup choice "message" = Some (JObj message) ->
     (dict_lookup message "content" = Some text -> json_truthy text = true ->
        _extract data backend = Got text) /\
     (dict_lookup message "content" = None ->
        _extract data backend =
          Got (match dict_lookup choice "content" with
               | Some legacy => if json_truthy legacy then legacy else JStr ""
               | None => JStr ""
               end))) /\
  (dict_lookup data "choices" = None -> _extract data backend = Got (JStr "")) /\
  (dict_lookup data "choices" = Some (JArr []) ->
     _extract data backend = Fails E_IndexError).
Proof.
  intros Hb.
  assert (Hsel : (String.eqb backend "ollama" || String.eqb backend "openai") = true)
    by (destruct Hb as [-> | ->]; reflexivity).
  unfold _extract. rewrite Hsel. split; [|split; [|split]].
  - intros v.
    destruct (first_item _) as [choice|e]; [|discriminate].
    destruct (get_item choice "message" (JObj [])) as [[| | | | | |message]|e];
      try discriminate.
    destruct (get_item choice "content" (JStr "")) as [fallback|e]; [|discriminate].
    cbv zeta. destruct (json_truthy (dict_get message "content" fallback)) eqn:Ht;
      intros [= <-]; [right; exact Ht | left; reflexivity].
  - intros choice others message text Hc Hm.
    assert (Hchoice : first_item (dict_get data "choices" (JArr [JObj []])) =
                      Got (JObj choice))
      by (unfold dict_get; rewrite Hc; reflexivity).
    assert (Hmessage : get_item (JObj choice) "message" (JObj []) = Got (JObj message))
      by (unfold get_item, dict_get; rewrite Hm; reflexivity).
    rewrite Hchoice, Hmessage. cbn [get_item]. cbv zeta. split; intros Ht.
    + intros Htrue. unfold dict_get at 1 3. rewrite Ht, Htrue. reflexivity.
    + unfold dict_get. rewrite Ht.
      destruct (dict_lookup choice "content") as [legacy|]; reflexivity.
  - intros Hc. unfold dict_get at 1. rewrite Hc. reflexivity.
  - intros Hc. unfold dict_get at 1. rewrite Hc. reflexivity.
Qed.

(** The texts of the parts that are mappings, all of them strings. *)
Definition text_parts (parts : list json) : list string :=
  flat_map (fun p => match p with
                     | JObj d => match dict_get d "text" (JStr "") with
                                 | JStr t => [t]
                                 | _ => []
                                 end
                     | _ => []
                     end) parts.

Definition has_text (p : json) : Prop :=
  match p with
  | JObj d => exists t, dict_get d "text" (JStr "") = JStr t
  | _ => True
  end.

(** X28.  The text of an [anthropic] answer whose [content] is a list:
    when the [text] of every part that is a mapping is a string (a
    missing one counts as empty), the result is these texts one after the
    other, in the order of the parts; parts that are no mappings are
    passed over; and a mapping whose [text] is no string makes the call
    raise [TypeError]. *)
Theorem extract_anthropic_text (data : dict) (parts : list json) :
  dict_lookup data "content" = Some (JArr parts) ->
  (Forall has_text parts ->
     _extract data "anthropic" = Got (JStr (String.concat "" (text_parts parts)))) /\
  (~ Forall has_text parts -> _extract data "anthropic" = Fails E_TypeError).
Proof.
  intros Hc.
  assert (Hitems : items (dict_get data "content" (JArr [])) = Got parts)
    by (unfold dict_get; rewrite Hc; reflexivity).
  unfold _extract. simpl. rewrite Hitems.
  assert (Hjoin : (Forall has_text parts ->
                   join_texts parts = Got (String.concat "" (text_parts parts))) /\
                  (~ Forall has_text parts -> join_texts parts = Fails E_TypeError)).
  { clear Hc Hitems. induction parts as [|p parts [IH1 IH2]].
    - split; [reflexivity|]. intros H. exfalso. apply H. constructor.
    - assert (Hskip : (forall d, p <> JObj d) ->
                (Forall has_text (p :: parts) ->
                 join_texts (p :: parts) =
                   Got (String.concat "" (text_parts (p :: parts)))) /\
                (~ Forall has_text (p :: parts) ->
                 join_texts (p :: parts) = Fails E_TypeError)).
      { intros Hp.
        assert (Hj : join_texts (p :: parts) = join_texts parts)
          by (destruct p; try reflexivity; exfalso; exact (Hp _ eq_refl)).
        assert (Ht : text_parts (p :: parts) = text_parts parts)
          by (destruct p; try reflexivity; exfalso; exact (Hp _ eq_refl)).
        assert (Hh : has_text p) by (destruct p; try exact I; exfalso; exact (Hp _ eq_refl)).
        rewrite Hj, Ht. split.
        - intros H. apply IH1. apply Forall_cons_iff in H as [_ H]. exact H.
        - intros H. apply IH2. intros H'. apply H. constructor; assumption. }
      destruct p as [| | | | | |d]; try (apply Hskip; intros d0; discriminate).
      simpl. destruct (dict_get d "text" (JStr "")) as [| | | |t| |] eqn:Ht;
        try (split; [intros H; apply Forall_cons_iff in H as [(t0 & H0) _];
                     simpl in H0; congruence | reflexivity]).
      split.
      + intros H. apply Forall_cons_iff in H as [_ H]. rewrite (IH1 H).
        change ([t] ++ text_parts parts) with (t :: text_parts parts).
        destruct (text_parts parts) eqn:E; simpl; [rewrite append_empty_r|]; reflexivity.
      + intros H. rewrite IH2; [reflexivity|]. intros H'. apply H.
        constructor; [exists t; exact Ht | exact H']. }
  destruct Hjoin as [H1 H2]. split; intros H.
  - rewrite (H1 H). reflexivity.
  - rewrite (H2 H). reflexivity.
Qed.

End Extract.

(** X27 on three answers: a message with content, a first choice of
    the older form, and an empty list of choices. *)
Lemma extract_chat_text_witness :
  _extract (fun _ => true)
    [("choices", JArr [JObj [("message", JObj [("content", JStr "hello")]);
                             ("content", JStr "legacy")]])] "openai"
    = Got (JStr "hello") /\
  _extract (fun _ => true)
    [("choices", JArr [JObj [("message", JObj [("role", JStr "assistant")]);
                             ("content", JStr "legacy")]])] "ollama"
    = Got (JStr "legacy") /\
  _extract (fun _ => true) [("id", JInt 7)] "ollama" = Got (JStr "") /\
  _extract (fun _ => true) [("choices", JArr [])] "openai" = Fails E_IndexError.
Proof.
  split; [|split; [|split]].
  - destruct (extract_chat_text (fun _ => true)
                [("choices", JArr [JObj [("message", JObj [("content", JStr "hello")]);
                                         ("content", JStr "legacy")]])] "openai"
                (or_intror eq_refl)) as (_ & H & _).
    apply (proj1 (H _ [] _ (JStr "hello") eq_refl eq_refl)); reflexivity.
  - destruct (extract_chat_text (fun _ => true)
                [("choices", JArr [JObj [("message", JObj [("role", JStr "assistant")]);
                                         ("content", JStr "legacy")]])] "ollama"
                (or_introl eq_refl)) as (_ & H & _).
    apply (proj2 (H _ [] _ JNull eq_refl eq_refl)). reflexivity.
  - destruct (extract_chat_text (fun _ => true) [("id", JInt 7)] "ollama"
                (or_introl eq_refl)) as (_ & _ & H & _).
    apply H. reflexivity.
  - destruct (extract_chat_text (fun _ => true) [("choices", JArr [])] "openai"
                (or_intror eq_refl)) as (_ & _ & _ & H).
    apply H. reflexivity.
Defined.

Definition demo_parts : list json :=
  [ JObj [("type", JStr "text"); ("text", JStr "LOW")];
    JStr "noise";
    JObj [("type", JStr "tool_use")];
    JObj [("text", JStr " risk")] ].

(** X28 on an answer with two text parts around a part that is no
    mapping and one without text, and on one whose text is a number. *)
Lemma extract_anthropic_text_witness :
  _extract (fun _ => true) [("content", JArr demo_parts)] "anthropic"
    = Got (JStr "LOW risk") /\
  _extract (fun _ => true)
    [("content", JArr [JObj [("text", JInt 3)]])] "anthropic" = Fails E_TypeError.
Proof.
  split.
  - apply (proj1 (extract_anthropic_text (fun _ => true)
                    [("content", JArr demo_parts)] demo_parts eq_refl)).
    repeat constructor; simpl; eexists; reflexivity.
  - apply (proj2 (extract_anthropic_text (fun _ => true)
                    [("content", JArr [JObj [("text", JInt 3)]])]
                    [JObj [("text", JInt 3)]] eq_refl)).
    intros H. apply Forall_cons_iff in H as [(t & Ht) _]. discriminate Ht.
Defined.

(** X1 at the mapping [{}] behind two string layers. *)
Lemma robust_json_sound_witness :
  _robust_json JsonRef.loads empty_wrapped2 = Ok [] /\
  exists k, k <= 2 /\ wrapped JsonRef.loads k [] empty_wrapped2.
Proof.
  split; [reflexivity|].
  apply (robust_json_sound JsonRef.loads empty_wrapped2 []). reflexivity.
Defined.

(** X2 at a text that is no JSON and at one behind three string layers. *)
Lemma robust_json_raises_witness :
  ((JSONDecodeError = ValueError "response is not a JSON object" \/
    exists s, JsonRef.loads s = Raise JSONDecodeError) /\
   (forall e0, JsonRef.loads "{oops" = Raise e0 -> JSONDecodeError = e0)) /\
  ((ValueError "response is not a JSON object" =
      ValueError "response is not a JSON object" \/
    exists s, JsonRef.loads s = Raise (ValueError "response is not a JSON object")) /\
   (forall e0, JsonRef.loads empty_wrapped3 = Raise e0 ->
      ValueError "response is not a JSON object" = e0)).
Proof.
  split.
  - apply (robust_json_raises JsonRef.loads "{oops" JSONDecodeError). reflexivity.
  - apply (robust_json_raises JsonRef.loads empty_wrapped3
             (ValueError "response is not a JSON object")). reflexivity.
Defined.

End LlmClient.

(* ===================================================================== *)
(** * Operating system: paths, file system, the world                     *)
(* ===================================================================== *)

Module OS.

(** A [pathlib.Path] as its [parts]: an absolute path starts with the
    root part. *)
Definition path := list string.

Definition is_absolute (p : path) : bool :=
  match p with
  | r :: _ => String.prefix "/" r
  | [] => false
  end.

(** [p / q] *)
Definition joinpath (p q : path) : path :=
  if is_absolute q then q else p ++ q.

(** [p.name] *)
Definition name (p : path) : string :=
  match rev p with
  | [] => ""
  | [n] => if is_absolute p then "" else n
  | n :: _ => n
  end.

(** [str(p)] *)
Definition path_str (p : path) : string :=
  match p with
  | [] => "."
  | r :: rest =>
      if String.prefix "/" r
      then String.append r (String.concat "/" rest)
      else String.concat "/" p
  end.

Fixpoint split_on (sep : ascii) (s : string) : list string :=
  match s with
  | EmptyString => [EmptyString]
  | String c r =>
      if Ascii.eqb c sep then EmptyString :: split_on sep r
      else match split_on sep r with
           | h :: t => String c h :: t
           | [] => [String c EmptyString]
           end
  end.

(** [Path(s)] on POSIX: empty and [.] components vanish, exactly two
    leading slashes are kept as the root [//]. *)
Definition Path (s : string) : path :=
  let comps :=
    filter (fun x => negb (String.eqb x "") && negb (String.eqb x "."))
           (split_on "/"%char s) in
  if String.prefix "/" s then
    (if String.prefix "//" s && negb (String.prefix "///" s) then "//" else "/") :: comps
  else comps.

(** Comparison of paths, as Python compares the lists of parts. *)
Fixpoint path_compare (p q : path) : comparison :=
  match p, q with
  | [], [] => Eq
  | [], _ :: _ => Lt
  | _ :: _, [] => Gt
  | a :: p', b :: q' =>
      match String.compare a b with
      | Eq => path_compare p' q'
      | c => c
      end
  end.

Definition path_leb (p q : path) : bool :=
  match path_compare p q with
  | Gt => false
  | _ => true
  end.

Fixpoint path_eqb (p q : path) : bool :=
  match p, q with
  | [], [] => true
  | a :: p', b :: q' => String.eqb a b && path_eqb p' q'
  | _, _ => false
  end.

(** [base] is a prefix of [p], part by part; on success the rest. *)
Fixpoint strip_parts (base p : path) : option path :=
  match base, p with
  | [], _ => Some p
  | b :: base', a :: p' => if String.eqb b a then strip_parts base' p' else None
  | _ :: _, [] => None
  end.

(** [sorted(l)]: a stable insertion sort. *)
Fixpoint insert_sorted {A} (leb : A -> A -> bool) (x : A) (l : list A) : list A :=
  match l with
  | [] => [x]
  | y :: r => if leb x y then x :: l else y :: insert_sorted leb x r
  end.

Definition sorted {A} (leb : A -> A -> bool) (l : list A) : list A :=
  fold_right (insert_sorted leb) [] l.

(** File system: the entries that exist, by absolute path. *)
Inductive fnode : Type :=
| Dir
| File (content : string).

Definition filesystem := list (path * fnode).

Fixpoint fs_lookup (fs : filesystem) (p : path) : option fnode :=
  match fs with
  | [] => None
  | (q, n) :: rest => if path_eqb q p then Some n else fs_lookup rest p
  end.

Definition fs_exists (fs : filesystem) (p : path) : bool :=
  match fs_lookup fs p with Some _ => true | None => false end.

Definition fs_is_dir (fs : filesystem) (p : path) : bool :=
  match fs_lookup fs p with Some Dir => true | _ => false end.

Definition fs_is_file (fs : filesystem) (p : path) : bool :=
  match fs_lookup fs p with Some (File _) => true | _ => false end.

Definition fs_remove (fs : filesystem) (p : path) : filesystem :=
  filter (fun e => negb (path_eqb (fst e) p)) fs.

(** [p.write_text(text)] *)
Definition fs_write (fs : filesystem) (p : path) (text : string) : filesystem :=
  fs_remove fs p ++ [(p, File text)].

(** [d.mkdir(parents=True, exist_ok=True)]; [None] when [d] exists and is
    a file. *)
Definition fs_mkdir (fs : filesystem) (d : path) : option filesystem :=
  match fs_lookup fs d with
  | Some Dir => Some fs
  | Some (File _) => None
  | None => Some (fs ++ [(d, Dir)])
  end.

(** The directory [d] and the directories above it, where missing.  A
    file in the way stays as it is; the callers raise before, with
    [fs_file_above], where there is one. *)
Fixpoint fs_makedirs_from (f : filesystem) (above rest : path) : filesystem :=
  match rest with
  | [] => f
  | x :: r =>
      let d := above ++ [x] in
      fs_makedirs_from (match fs_mkdir f d with Some f' => f' | None => f end) d r
  end.

Definition fs_makedirs (f : filesystem) (d : path) : filesystem :=
  fs_makedirs_from f [] d.

(** A file stands where a directory above [above ++ rest] would be:
    one of the paths strictly between [above] and [above ++ rest] is a
    file. *)
Fixpoint fs_file_above_from (f : filesystem) (above rest : path) : bool :=
  match rest with
  | [] => false
  | x :: r =>
      match r with
      | [] => false
      | _ :: _ => fs_is_file f (above ++ [x]) || fs_file_above_from f (above ++ [x]) r
      end
  end.

Definition fs_file_above (f : filesystem) (p : path) : bool :=
  fs_file_above_from f [] p.

(** Every entry at or below [src] goes to the same place below [dst]. *)
Definition fs_rename (fs : filesystem) (src dst : path) : filesystem :=
  map (fun e => match strip_parts src (fst e) with
                | Some rest => (dst ++ rest, snd e)
                | None => e
                end) fs.

(** Names of the entries directly inside directory [d]. *)
Definition fs_listdir (fs : filesystem) (d : path) : list string :=
  flat_map (fun e => match strip_parts d (fst e) with
                     | Some [n] => [n]
                     | _ => []
                     end) fs.

(** [s.endswith(suffix)] *)
Definition ends_with (suffix s : string) : bool :=
  let n := String.length s in
  let k := String.length suffix in
  (k <=? n) && String.eqb (String.substring (n - k) k s) suffix.

(** One chat message. *)
Record message : Type := { role : string; content : string }.

(** A process started by [subprocess.run]: the command line and the
    bytes the process is given on standard input. *)
Record process : Type := { argv : list string; stdin : string }.

(** What the outside can observe of a run. *)
Record world : Type := {
  fs : filesystem;
  stdout : list string;               (* lines printed, oldest first *)
  llm_calls : list (list message);    (* model calls issued, oldest first *)
  procs : list process                (* processes started, oldest first *)
}.

Definition set_fs (f : filesystem -> filesystem) (w : world) : world :=
  {| fs := f (fs w); stdout := stdout w; llm_calls := llm_calls w; procs := procs w |}.

(** ** Code with effects *)

(** Code over a state [S] that returns an [A] or raises. *)
Definition ST (S A : Type) : Type := S -> result A * S.

(** Code whose state is the world. *)
Definition M : Type -> Type := ST world.

Definition ret {S A} (a : A) : ST S A := fun w => (Ok a, w).

Definition raise {S A} (e : exn) : ST S A := fun w => (Raise e, w).

Definition bind {S A B} (m : ST S A) (k : A -> ST S B) : ST S B :=
  fun w => match m w with
           | (Ok a, w') => k a w'
           | (Raise e, w') => (Raise e, w')
           end.

Definition lift {S A} (r : result A) : ST S A := fun w => (r, w).

(** [print(line)] *)
Definition print (line : string) : M unit :=
  fun w => (Ok tt,
            {| fs := fs w; stdout := stdout w ++ [line];
               llm_calls := llm_calls w; procs := procs w |}).

(** [cond and print(line)] *)
Definition print_if (cond : bool) (line : string) : M unit :=
  if cond then print line else ret tt.

(** [for x in l: out.append(f(x))] *)
Fixpoint for_each {S A B} (f : A -> ST S B) (l : list A) : ST S (list B) :=
  match l with
  | [] => ret []
  | x :: r =>
      bind (f x) (fun y => bind (for_each f r) (fun ys => ret (y :: ys)))
  end.

(** An f-string: its pieces, concatenated. *)
Definition fstr (pieces : list string) : string := String.concat "" pieces.

Lemma bind_inv {S A B} (m : ST S A) (k : A -> ST S B) (w w2 : S) (b : B) :
  bind m k w = (Ok b, w2) ->
  exists a w1, m w = (Ok a, w1) /\ k a w1 = (Ok b, w2).
Proof.
  unfold bind. destruct (m w) as [[a|e] w1]; [|discriminate].
  intros H. exists a, w1. split; [reflexivity | exact H].
Qed.

Lemma bind_ok {S A B} (m : ST S A) (k : A -> ST S B) (w w1 : S) (a : A) :
  m w = (Ok a, w1) -> bind m k w = k a w1.
Proof. unfold bind. intros ->. reflexivity. Qed.

Lemma ret_inv {S A} (a b : A) (w w' : S) :
  ret a w = (Ok b, w') -> a = b /\ w = w'.
Proof. unfold ret. intros [= -> ->]. split; reflexivity. Qed.

Lemma bind_cases {S A B} (m : ST S A) (k : A -> ST S B) (w w2 : S) (r : result B) :
  bind m k w = (r, w2) ->
  (exists a w1, m w = (Ok a, w1) /\ k a w1 = (r, w2)) \/
  (exists e, m w = (Raise e, w2) /\ r = Raise e).
Proof.
  unfold bind. destruct (m w) as [[a|e] w1]; intros H.
  - left. exists a, w1. split; [reflexivity | exact H].
  - right. injection H as <- <-. exists e. split; reflexivity.
Qed.

(** Code every run of which relates the state before to the state after
    by [R], however it ends. *)
Definition respects {S A} (R : S -> S -> Prop) (m : ST S A) : Prop :=
  forall s r s', m s = (r, s') -> R s s'.

Section Respects.

Context {S : Type} (R : S -> S -> Prop).
Hypothesis R_refl : forall s, R s s.
Hypothesis R_trans : forall s1 s2 s3, R s1 s2 -> R s2 s3 -> R s1 s3.

Lemma respects_ret {A} (a : A) : respects R (ret a).
Proof using R_refl. intros s r s' [= _ <-]. apply R_refl. Qed.

Lemma respects_raise {A} (e : exn) : respects R (@raise S A e).
Proof using R_refl. intros s r s' [= _ <-]. apply R_refl. Qed.

Lemma respects_lift {A} (x : result A) : respects R (lift x).
Proof using R_refl. intros s r s' [= _ <-]. apply R_refl. Qed.

Lemma respects_bind {A B} (m : ST S A) (k : A -> ST S B) :
  respects R m -> (forall a, respects R (k a)) -> respects R (bind m k).
Proof using R_trans.
  intros Hm Hk s r s' H. apply bind_cases in H as [(a & s1 & H1 & H2)|(e & H1 & _)].
  - eapply R_trans; [exact (Hm _ _ _ H1) | exact (Hk a _ _ _ H2)].
  - exact (Hm _ _ _ H1).
Qed.

Lemma respects_for_each {A B} (f : A -> ST S B) (l : list A) :
  (forall x, respects R (f x)) -> respects R (for_each f l).
Proof using R_refl R_trans.
  intros Hf. induction l as [|x r IH]; simpl.
  - apply respects_ret.
  - apply respects_bind; [apply Hf|]. intros y.
    apply respects_bind; [exact IH|]. intros ys. apply respects_ret.
Qed.

End Respects.

(** Code that leaves the file system as it found it. *)
Definition fs_stable {A} (m : M A) : Prop :=
  forall w r w', m w = (r, w') -> fs w' = fs w.

Lemma fs_stable_ret {A} (a : A) : fs_stable (@ret world A a).
Proof. intros w r w' [= _ <-]. reflexivity. Qed.

Lemma fs_stable_raise {A} (e : exn) : fs_stable (@raise world A e).
Proof. intros w r w' [= _ <-]. reflexivity. Qed.

Lemma fs_stable_lift {A} (x : result A) : fs_stable (@lift world A x).
Proof. intros w r w' [= _ <-]. reflexivity. Qed.

Lemma fs_stable_print_if (c : bool) (line : string) : fs_stable (print_if c line).
Proof.
  intros w r w' H. unfold print_if, print, ret in H.
  destruct c; injection H as _ <-; reflexivity.
Qed.

Lemma fs_stable_bind {A B} (m : M A) (k : A -> M B) :
  fs_stable m -> (forall a, fs_stable (k a)) -> fs_stable (bind m k).
Proof.
  intros Hm Hk w r w' H. apply bind_cases in H as [(a & w1 & H1 & H2)|(e & H1 & _)].
  - rewrite (Hk a _ _ _ H2). exact (Hm _ _ _ H1).
  - exact (Hm _ _ _ H1).
Qed.

Lemma fs_stable_for_each {A B} (f : A -> M B) (l : list A) :
  (forall x, fs_stable (f x)) -> fs_stable (for_each f l).
Proof.
  intros Hf. induction l as [|x r IH]; simpl.
  - apply fs_stable_ret.
  - apply fs_stable_bind; [apply Hf|]. intros y.
    apply fs_stable_bind; [exact IH|]. intros ys. apply fs_stable_ret.
Qed.

(** Printing changes the printed lines only. *)
Lemma print_if_frame (c : bool) (line : string) (w : world) :
  exists w', print_if c line w = (Ok tt, w') /\
             fs w' = fs w /\ llm_calls w' = llm_calls w /\ procs w' = procs w.
Proof.
  unfold print_if, print, ret. destruct c; eexists; repeat split.
Qed.

(** ** Sorting and the order of paths *)

Lemma app_one_neq {A} (l : list A) (x : A) : l ++ [x] <> l.
Proof.
  intros H. apply (f_equal (@List.length A)) in H.
  rewrite length_app in H. simpl in H. lia.
Qed.

Lemma string_leb_iff (a b : string) :
  String.leb a b = true <-> a = b \/ String_as_OT.lt a b.
Proof.
  unfold String.leb. destruct (String.compare a b) eqn:E.
  - apply String_as_OT.cmp_eq in E. tauto.
  - apply String_as_OT.cmp_lt in E. tauto.
  - split; [discriminate|]. intros [->|H].
    + assert (Hb : String.compare b b = Eq) by (apply String_as_OT.cmp_eq; reflexivity).
      congruence.
    + apply String_as_OT.cmp_lt in H. unfold String_as_OT.cmp in H. congruence.
Qed.

Lemma string_leb_trans (a b c : string) :
  String.leb a b = true -> String.leb b c = true -> String.leb a c = true.
Proof.
  rewrite !string_leb_iff. intros [->|H1] [->|H2]; auto.
  right. exact (String_as_OT.lt_trans _ _ _ H1 H2).
Qed.

Lemma path_compare_same_dir (d : path) (a b : string) :
  path_compare (d ++ [a]) (d ++ [b]) = String.compare a b.
Proof.
  induction d as [|x d IH]; simpl.
  - destruct (String.compare a b); reflexivity.
  - assert (Hx : String.compare x x = Eq) by (apply String_as_OT.cmp_eq; reflexivity).
    rewrite Hx. exact IH.
Qed.

Lemma path_leb_same_dir (d : path) (a b : string) :
  path_leb (d ++ [a]) (d ++ [b]) = String.leb a b.
Proof. unfold path_leb, String.leb. rewrite path_compare_same_dir. reflexivity. Qed.

Section Sorting.

Context {A : Type} (leb : A -> A -> bool).

Lemma insert_sorted_Permutation (x : A) (l : list A) :
  Permutation (insert_sorted leb x l) (x :: l).
Proof.
  induction l as [|y r IH]; simpl; [reflexivity|].
  destruct (leb x y); [reflexivity|].
  rewrite IH. apply perm_swap.
Qed.

Lemma sorted_Permutation (l : list A) : Permutation (sorted leb l) l.
Proof.
  induction l as [|x r IH]; simpl; [reflexivity|].
  rewrite insert_sorted_Permutation. apply perm_skip. exact IH.
Qed.

Hypothesis leb_total : forall x y, leb x y = true \/ leb y x = true.
Hypothesis leb_trans : forall x y z, leb x y = true -> leb y z = true -> leb x z = true.

Lemma insert_sorted_StronglySorted (x : A) (l : list A) :
  StronglySorted (fun a b => leb a b = true) l ->
  StronglySorted (fun a b => leb a b = true) (insert_sorted leb x l).
Proof.
  induction 1 as [|y r Hs IH Hall]; simpl.
  - constructor; constructor.
  - destruct (leb x y) eqn:E.
    + constructor; [constructor; assumption|].
      constructor; [exact E|].
      eapply Forall_impl; [|exact Hall]. intros z Hz. eapply leb_trans; eassumption.
    + constructor; [exact IH|].
      assert (Hyx : leb y x = true) by (destruct (leb_total x y); congruence).
      eapply Permutation_Forall; [symmetry; apply insert_sorted_Permutation|].
      constructor; assumption.
Qed.

Lemma sorted_StronglySorted (l : list A) :
  StronglySorted (fun a b => leb a b = true) (sorted leb l).
Proof.
  induction l as [|x r IH]; simpl; [constructor|].
  apply insert_sorted_StronglySorted. exact IH.
Qed.

End Sorting.

Lemma sorted_map {A B : Type} (f : A -> B) (lebA : A -> A -> bool)
  (lebB : B -> B -> bool) :
  (forall x y, lebB (f x) (f y) = lebA x y) ->
  forall l, sorted lebB (map f l) = map f (sorted lebA l).
Proof.
  intros Hf. induction l as [|x r IH]; simpl; [reflexivity|].
  rewrite IH. clear IH. induction (sorted lebA r) as [|y t IHt]; simpl; [reflexivity|].
  rewrite Hf. destruct (lebA x y); simpl; [reflexivity|]. rewrite IHt. reflexivity.
Qed.

(** ** Looking up what was written *)

Lemma path_eqb_eq (p q : path) : path_eqb p q = true <-> p = q.
Proof.
  revert q. induction p as [|a p IH]; intros [|b q]; simpl;
    try (split; [discriminate | discriminate]); [split; reflexivity|].
  rewrite Bool.andb_true_iff, String.eqb_eq, IH. split.
  - intros [-> ->]. reflexivity.
  - intros [= -> ->]. split; reflexivity.
Qed.

Lemma path_eqb_refl (p : path) : path_eqb p p = true.
Proof. apply path_eqb_eq. reflexivity. Qed.

Lemma path_eqb_neq (p q : path) : path_eqb p q = false <-> p <> q.
Proof.
  rewrite <- path_eqb_eq. destruct (path_eqb p q); split; congruence.
Qed.

Lemma fs_lookup_app (f g : filesystem) (p : path) :
  fs_lookup (f ++ g) p =
    match fs_lookup f p with
    | Some n => Some n
    | None => fs_lookup g p
    end.
Proof.
  induction f as [|[q n] f IH]; simpl; [reflexivity|].
  destruct (path_eqb q p); [reflexivity | exact IH].
Qed.

Lemma fs_lookup_remove (f : filesystem) (p q : path) :
  fs_lookup (fs_remove f p) q = if path_eqb p q then None else fs_lookup f q.
Proof.
  unfold fs_remove. induction f as [|[r n] f IH]; simpl.
  - destruct (path_eqb p q); reflexivity.
  - destruct (path_eqb r p) eqn:Erp; simpl.
    + apply path_eqb_eq in Erp. subst r. rewrite IH.
      destruct (path_eqb p q); reflexivity.
    + destruct (path_eqb r q) eqn:Erq; [|exact IH].
      apply path_eqb_eq in Erq. subst r.
      destruct (path_eqb p q) eqn:Epq; [|reflexivity].
      apply path_eqb_eq in Epq. subst q. rewrite path_eqb_refl in Erp. discriminate Erp.
Qed.

(** After [p.write_text(text)], reading [p] gives [text] and every other
    path is as before. *)
Lemma fs_lookup_write (f : filesystem) (p q : path) (text : string) :
  fs_lookup (fs_write f p text) q =
    if path_eqb p q then Some (File text) else fs_lookup f q.
Proof.
  unfold fs_write. rewrite fs_lookup_app, fs_lookup_remove. simpl.
  destruct (path_eqb p q); [reflexivity|].
  destruct (fs_lookup f q); reflexivity.
Qed.

End OS.
Import OS.

Declare Scope py_scope.
Delimit Scope py_scope with py.
Notation "x <- m ;; k" := (OS.bind m (fun x => k))
  (at level 61, m at next level, right associativity) : py_scope.
Notation "m ;;; k" := (OS.bind m (fun _ => k))
  (at level 61, right associativity) : py_scope.
Local Open Scope py_scope.

(* ===================================================================== *)
(** * utils/llmanalyze.py                                                 *)
(* ===================================================================== *)

Module LlmAnalyze.

Definition PROMPTS_YAML : path := ["utils"; "prompts.yaml"].
Definition LEVELS : list string := ["NONE"; "LOW"; "MEDIUM"; "HIGH"; "CRITICAL"].

(** [l.index(x)]: the position of the first [x]; [None] stands for the
    [ValueError] of an absent element. *)
Fixpoint list_index (x : string) (l : list string) : option nat :=
  match l with
  | [] => None
  | y :: r => if String.eqb y x then Some 0 else option_map S (list_index x r)
  end.

(** ** The severity scale as the specification words it *)

Inductive severity : Type := NONE | LOW | MEDIUM | HIGH | CRITICAL.

(** The fixed total order NONE < LOW < MEDIUM < HIGH < CRITICAL. *)
Definition sev_lt (a b : severity) : Prop :=
  match a, b with
  | NONE, (LOW | MEDIUM | HIGH | CRITICAL) => True
  | LOW, (MEDIUM | HIGH | CRITICAL) => True
  | MEDIUM, (HIGH | CRITICAL) => True
  | HIGH, CRITICAL => True
  | _, _ => False
  end.

(** [a] is greater than or equal to [b] on the scale. *)
Definition sev_ge (a b : severity) : Prop := a = b \/ sev_lt b a.

Definition token (s : severity) : string :=
  match s with
  | NONE => "NONE"
  | LOW => "LOW"
  | MEDIUM => "MEDIUM"
  | HIGH => "HIGH"
  | CRITICAL => "CRITICAL"
  end.

(** The values of the mappings in [prompts.yaml]. *)
Definition prompt_def := list (string * string).
Definition prompts_t := list (string * prompt_def).

Fixpoint assoc_get {V : Type} (l : list (string * V)) (key : string) : option V :=
  match l with
  | [] => None
  | (k, v) :: rest => if String.eqb k key then Some v else assoc_get rest key
  end.

(** [prompt.get(key, '')] *)
Definition prompt_get (p : prompt_def) (key : string) : string :=
  match assoc_get p key with Some v => v | None => "" end.

(** The entries of [shared["docs"]] and [shared["doc_analyses"]]. *)
Record doc : Type := { doc_path : string; markdown : string }.
Record doc_analysis : Type := { a_path : string; analysis : string }.

(** The result of the trigger stage: [{"triggered": False}] or the
    record of a finished action. *)
Inductive trigger_res : Type :=
| NotTriggered
| Triggered (returncode : Z) (out err : string).

(** The [shared] dictionary of a flow: a key that was never set is
    [None]. *)
Record shared : Type := {
  prompts : prompts_t;
  docs : option (list doc);
  doc_analyses : option (list doc_analysis);
  final : option string;
  evaluation : option dict;
  trigger_result : option trigger_res
}.

(** The command line of [llmanalyze.py], parsed. *)
Record config : Type := {
  input : path;
  output : path;
  verbose : bool;
  trigger_cmd : option string;
  level_threshold : string;
  target_name : string;
  llm_backend : string;
  llm_model : option string
}.

(** The separator between the per-document analyses. *)
Definition SEPARATOR : string := fstr [nl; nl; "---"; nl; nl].

(** ** Facts about the scale *)

Definition rank (s : severity) : nat :=
  match s with
  | NONE => 0
  | LOW => 1
  | MEDIUM => 2
  | HIGH => 3
  | CRITICAL => 4
  end.

Lemma sev_ge_rank (a b : severity) : sev_ge a b <-> rank b <= rank a.
Proof.
  unfold sev_ge. split.
  - intros [-> | H]; [lia|]. destruct a, b; simpl in *; (lia || contradiction).
  - intros H. destruct a, b; simpl in *;
      first [ left; reflexivity | right; exact I | lia ].
Qed.

Lemma sev_ge_total (a b : severity) : sev_ge a b \/ sev_ge b a.
Proof. rewrite !sev_ge_rank. lia. Qed.

Lemma list_index_None (x : string) (l : list string) :
  list_index x l = None <-> ~ In x l.
Proof.
  induction l as [|y r IH]; simpl.
  - split; [intros _ []|reflexivity].
  - destruct (String.eqb_spec y x) as [->|Hne].
    + split; [discriminate | intros H; exfalso; apply H; left; reflexivity].
    + destruct (list_index x r) as [i|]; simpl.
      * split; [discriminate|]. intros H. exfalso. apply H. right.
        destruct IH as [_ IH]. destruct (in_dec string_dec x r) as [Hin|Hnin]; [assumption|].
        discriminate (IH Hnin).
      * split; [|reflexivity]. intros _ [Heq|Hin]; [congruence|].
        destruct IH as [IH _]. exact (IH eq_refl Hin).
Qed.

Lemma index_token (s : severity) : list_index (token s) LEVELS = Some (rank s).
Proof. destruct s; reflexivity. Qed.

Lemma list_index_Some (x : string) (l : list string) : forall i,
  list_index x l = Some i -> nth_error l i = Some x.
Proof.
  induction l as [|y r IH]; simpl; intros i H; [discriminate|].
  destruct (String.eqb_spec y x) as [->|_].
  - injection H as <-. reflexivity.
  - destruct (list_index x r) as [j|]; [|discriminate].
    injection H as <-. simpl. apply IH. reflexivity.
Qed.

Lemma index_levels_inv (x : string) (i : nat) :
  list_index x LEVELS = Some i -> exists s, x = token s /\ i = rank s.
Proof.
  intros H. apply list_index_Some in H. unfold LEVELS in H.
  destruct i as [|[|[|[|[|i]]]]]; simpl in H.
  - exists NONE. injection H as <-. split; reflexivity.
  - exists LOW. injection H as <-. split; reflexivity.
  - exists MEDIUM. injection H as <-. split; reflexivity.
  - exists HIGH. injection H as <-. split; reflexivity.
  - exists CRITICAL. injection H as <-. split; reflexivity.
  - destruct i; discriminate H.
Qed.

Lemma token_inj (a b : severity) : token a = token b -> a = b.
Proof. destruct a, b; simpl; intros H; first [reflexivity | discriminate H]. Qed.

(** What the pipeline takes from the Python runtime, the operating
    system and the libraries it imports. *)
Record runtime : Type := {
  (** [str.upper] *)
  py_upper : string -> string;
  (** [json.loads] *)
  py_json_loads : string -> result json;
  (** [str(v)] for a float, a list or a dict *)
  py_repr : json -> string;
  (** [shlex.split] *)
  py_shlex_split : string -> result (list string);
  (** [str.encode()] and [bytes.decode()], both UTF-8 and strict *)
  py_encode : string -> result string;
  py_decode : string -> result string;
  (** Running a process to its end on a file system: exit code, the
      bytes of its output and error streams, and the files as it leaves
      them; [Raise] when the process cannot be created.  The processes
      started before may matter. *)
  os_run : filesystem -> list process -> process
           -> result (Z * string * string * filesystem);
  (** One request to a model backend ([call_llm] of llm_client.py with
      the backend name and the model), given the calls made before. *)
  llm_request :
    string -> option string -> list (list message) -> list message -> result string;
  (** [html_to_markdown] of html2md.py (BeautifulSoup and markdownify). *)
  html2md : string -> string;
  (** [yaml.safe_load] on the text of prompts.yaml, reduced to the value
      under the key [prompts]: [Ok None] when the document is not a
      mapping or lacks the key. *)
  yaml_load_prompts : string -> result (option prompts_t);
  (** The working directory of the process. *)
  os_cwd : path
}.

Section Pipeline.

Variable rt : runtime.

Local Abbreviation upper := (py_upper rt).
Local Abbreviation json_loads := (py_json_loads rt).
Local Abbreviation repr_other := (py_repr rt).
Local Abbreviation shlex_split := (py_shlex_split rt).
Local Abbreviation encode := (py_encode rt).
Local Abbreviation decode := (py_decode rt).
Local Abbreviation os_spawn := (os_run rt).
Local Abbreviation backend_call := (llm_request rt).
Local Abbreviation html_to_markdown := (html2md rt).
Local Abbreviation yaml_prompts := (yaml_load_prompts rt).
Local Abbreviation cwd := (os_cwd rt).

(** [level_ge(a, b)] *)
Definition level_ge (a b : string) : bool :=
  match list_index (upper a) LEVELS with
  | Some i =>
      match list_index (upper b) LEVELS with
      | Some j => j <=? i
      | None => false
      end
  | None => false
  end.

(** [str(v)] *)
Definition py_str (v : json) : string :=
  match v with
  | JStr s => s
  | JNull => "None"
  | JBool true => "True"
  | JBool false => "False"
  | JInt z => NilZero.string_of_int (Z.to_int z)
  | _ => repr_other v
  end.

Definition abspath (p : path) : path := joinpath cwd p.

(** [p.read_text()] *)
Definition read_text (p : path) : M string :=
  fun w => match fs_lookup (fs w) (abspath p) with
           | Some (File text) => (Ok text, w)
           | Some Dir => (Raise (OSError "Is a directory"), w)
           | None => (Raise (FileNotFoundError (path_str p)), w)
           end.

(** [p.write_text(text)] *)
Definition write_text (p : path) (text : string) : M unit :=
  fun w =>
    if fs_is_dir (fs w) (abspath p) then (Raise (OSError "Is a directory"), w)
    else if fs_is_dir (fs w) (removelast (abspath p))
    then (Ok tt, set_fs (fun f => fs_write f (abspath p) text) w)
    else (Raise (FileNotFoundError (path_str p)), w).

(** [load_prompts(path)] *)
Definition load_prompts (p : path) : M prompts_t :=
  text <- read_text p ;;
  data <- lift (yaml_prompts text) ;;
  match data with
  | Some ps => ret ps
  | None => raise (ValueError "Invalid prompts.yaml: missing 'prompts'")
  end.

(** [call_llm(msg, backend=BACKEND, model=MODEL, temperature=TEMPERATURE)] *)
Definition call_llm (cfg : config) (msg : list message) : M string :=
  fun w =>
    (backend_call (llm_backend cfg) (llm_model cfg) (llm_calls w) msg,
     {| fs := fs w; stdout := stdout w;
        llm_calls := llm_calls w ++ [msg]; procs := procs w |}).

(** [call_llm_json] of llm_client.py *)
Definition call_llm_json (cfg : config) (msg : list message) : M dict :=
  txt <- call_llm cfg msg ;;
  lift (LlmClient._robust_json json_loads txt).

(** [subprocess.run(args, input=line, stdout=PIPE, stderr=PIPE)]: the
    exit code and the two streams of the process, which may have changed
    files; the call raises, and nothing has run, when the process cannot
    be created. *)
Definition subprocess_run (args : list string) (line : string)
  : M (Z * string * string) :=
  fun w =>
    let p := {| argv := args; stdin := line |} in
    match os_spawn (fs w) (procs w) p with
    | Ok (code, out, err, f) =>
        (Ok (code, out, err),
         {| fs := f; stdout := stdout w;
            llm_calls := llm_calls w; procs := procs w ++ [p] |})
    | Raise e => (Raise e, w)
    end.

(** [shared[key]] for the keys the stages read. *)
Definition shared_docs (sh : shared) : M (list doc) :=
  match docs sh with Some d => ret d | None => raise (KeyError "docs") end.
Definition shared_doc_analyses (sh : shared) : M (list doc_analysis) :=
  match doc_analyses sh with Some d => ret d | None => raise (KeyError "doc_analyses") end.
Definition shared_final (sh : shared) : M string :=
  match final sh with Some d => ret d | None => raise (KeyError "final") end.
Definition shared_prompt (sh : shared) (key : string) : M prompt_def :=
  match assoc_get (prompts sh) key with Some d => ret d | None => raise (KeyError key) end.
(** [shared.get("evaluation", {})] *)
Definition shared_evaluation (sh : shared) : dict :=
  match evaluation sh with Some d => d | None => [] end.

(** [Node._run] of pocketflow with the default single try:
    [post(shared, p, exec(prep(shared)))]. *)
Definition node_run {P E : Type}
  (prep : shared -> M P) (exec : P -> M E) (post : shared -> P -> E -> shared)
  (sh : shared) : M shared :=
  p <- prep sh ;;
  e <- exec p ;;
  ret (post sh p e).

(** The two messages of a stage: the system prompt, and the user prompt
    followed by a blank line and the payload. *)
Definition stage_messages (prompt : prompt_def) (payload : string) : list message :=
  [ {| role := "system"; content := prompt_get prompt "system" |};
    {| role := "user";
       content := fstr [prompt_get prompt "user"; nl; nl; payload] |} ].

(** ** class LoadMarkdown *)

(** [input_dir.glob("*.md")], in the order of the directory. *)
Definition glob_md (f : filesystem) (input_dir : path) : list path :=
  map (fun n => input_dir ++ [n])
      (filter (ends_with ".md") (fs_listdir f (abspath input_dir))).

Definition LoadMarkdown_prep (input_dir : path) (_ : shared) : M (list path) :=
  fun w => (Ok (sorted path_leb (glob_md (fs w) input_dir)), w).

Definition LoadMarkdown_exec (cfg : config) (paths : list path) : M (list doc) :=
  for_each (fun p =>
              print_if (verbose cfg) (fstr ["[*] Converting "; name p]) ;;;
              html <- read_text p ;;
              ret {| doc_path := path_str p; markdown := html_to_markdown html |})
           paths.

Definition LoadMarkdown_post (sh : shared) (_ : list path) (res : list doc) : shared :=
  {| prompts := prompts sh; docs := Some res; doc_analyses := doc_analyses sh;
     final := final sh; evaluation := evaluation sh;
     trigger_result := trigger_result sh |}.

Definition LoadMarkdown (cfg : config) : shared -> M shared :=
  node_run (LoadMarkdown_prep (input cfg)) (LoadMarkdown_exec cfg) LoadMarkdown_post.

(** ** class AnalyzeEachDoc *)

Definition AnalyzeEachDoc_prep (sh : shared) : M (list doc * prompt_def) :=
  d <- shared_docs sh ;;
  p <- shared_prompt sh "per_doc" ;;
  ret (d, p).

Definition AnalyzeEachDoc_exec (cfg : config) (data : list doc * prompt_def)
  : M (list doc_analysis) :=
  let (ds, prompt) := data in
  for_each (fun d =>
              a <- call_llm cfg (stage_messages prompt (markdown d)) ;;
              ret {| a_path := doc_path d; analysis := a |})
           ds.

Definition AnalyzeEachDoc_post (sh : shared) (_ : list doc * prompt_def)
  (res : list doc_analysis) : shared :=
  {| prompts := prompts sh; docs := docs sh; doc_analyses := Some res;
     final := final sh; evaluation := evaluation sh;
     trigger_result := trigger_result sh |}.

Definition AnalyzeEachDoc (cfg : config) : shared -> M shared :=
  node_run AnalyzeEachDoc_prep (AnalyzeEachDoc_exec cfg) AnalyzeEachDoc_post.

(** ** class FinalReport *)

Definition FinalReport_prep (sh : shared) : M (list doc_analysis * prompt_def) :=
  a <- shared_doc_analyses sh ;;
  p <- shared_prompt sh "final_synthesis" ;;
  ret (a, p).

Definition FinalReport_exec (cfg : config) (data : list doc_analysis * prompt_def)
  : M string :=
  let (anns, prompt) := data in
  let combined := String.concat SEPARATOR (map analysis anns) in
  call_llm cfg (stage_messages prompt combined).

Definition FinalReport_post (sh : shared) (_ : list doc_analysis * prompt_def)
  (res : string) : shared :=
  {| prompts := prompts sh; docs := docs sh; doc_analyses := doc_analyses sh;
     final := Some res; evaluation := evaluation sh;
     trigger_result := trigger_result sh |}.

Definition FinalReport (cfg : config) : shared -> M shared :=
  node_run FinalReport_prep (FinalReport_exec cfg) FinalReport_post.

(** ** class EvaluateFinal *)

Definition EvaluateFinal_prep (sh : shared) : M (string * prompt_def) :=
  f <- shared_final sh ;;
  p <- shared_prompt sh "evaluation" ;;
  ret (f, p).

Definition EvaluateFinal_exec (cfg : config) (data : string * prompt_def) : M dict :=
  let (final_md, prompt) := data in
  call_llm_json cfg (stage_messages prompt final_md).

Definition EvaluateFinal_post (sh : shared) (_ : string * prompt_def) (res : dict)
  : shared :=
  {| prompts := prompts sh; docs := docs sh; doc_analyses := doc_analyses sh;
     final := final sh; evaluation := Some res;
     trigger_result := trigger_result sh |}.

Definition EvaluateFinal (cfg : config) : shared -> M shared :=
  node_run EvaluateFinal_prep (EvaluateFinal_exec cfg) EvaluateFinal_post.

(** ** class TriggerTool *)

(** What [prep] hands to [exec]: the command, the threshold, the target
    name and the evaluation. *)
Definition trigger_data : Type := option string * string * string * dict.

Definition TriggerTool_prep (cmd : option string) (threshold target : string)
  (sh : shared) : M trigger_data :=
  ret (cmd, threshold, target, shared_evaluation sh).

(** The level the trigger gate compares: [str(evaluation.get("level", "NONE"))]. *)
Definition evaluated_level (ev : dict) : string :=
  py_str (dict_get ev "level" (JStr "NONE")).

(** The line for the action, before it is encoded. *)
Definition trigger_line (target : string) (ev : dict) : string :=
  fstr [target; " "; py_str (dict_get ev "security_score" (JStr "N/A")); " ";
        evaluated_level ev; nl].

Definition TriggerTool_exec (cfg : config) (data : trigger_data) : M trigger_res :=
  let '(cmd, threshold, target, ev) := data in
  if negb (truthy cmd) then
    print_if (verbose cfg) "[*] No trigger command configured" ;;;
    ret NotTriggered
  else
    let level := evaluated_level ev in
    if negb (level_ge level threshold) then
      print_if (verbose cfg)
        (fstr ["[*] Threshold "; threshold; " not reached ("; level; ")"]) ;;;
      ret NotTriggered
    else
      line <- lift (encode (trigger_line target ev)) ;;
      args <- lift (shlex_split (match cmd with Some c => c | None => "" end)) ;;
      proc <- subprocess_run args line ;;
      let '(code, out, err) := proc in
      out_text <- lift (decode out) ;;
      err_text <- lift (decode err) ;;
      ret (Triggered code out_text err_text).

Definition TriggerTool_post (sh : shared) (_ : trigger_data) (res : trigger_res)
  : shared :=
  {| prompts := prompts sh; docs := docs sh; doc_analyses := doc_analyses sh;
     final := final sh; evaluation := evaluation sh;
     trigger_result := Some res |}.

Definition TriggerTool (cfg : config) : shared -> M shared :=
  node_run (TriggerTool_prep (trigger_cmd cfg) (level_threshold cfg) (target_name cfg))
           (TriggerTool_exec cfg) TriggerTool_post.

(** [build_flow(...).run(shared)]: the five nodes, chained by their
    default transitions. *)
Definition flow_run (cfg : config) (sh : shared) : M shared :=
  sh1 <- LoadMarkdown cfg sh ;;
  sh2 <- AnalyzeEachDoc cfg sh1 ;;
  sh3 <- FinalReport cfg sh2 ;;
  sh4 <- EvaluateFinal cfg sh3 ;;
  TriggerTool cfg sh4.

(** The four stages before the trigger, as the flow chains them. *)
Definition analysis_stages (cfg : config) (sh : shared) : M shared :=
  sh1 <- LoadMarkdown cfg sh ;;
  sh2 <- AnalyzeEachDoc cfg sh1 ;;
  sh3 <- FinalReport cfg sh2 ;;
  EvaluateFinal cfg sh3.

(** The evaluation section appended to the report. *)
Definition appendix (evaln : dict) : string :=
  fstr [nl; nl; "---"; nl; nl; "## Security Relevance Evaluation"; nl;
        "**Level:** "; py_str (dict_get evaln "level" (JStr "UNKNOWN")); "  "; nl;
        "**Score:** "; py_str (dict_get evaln "security_score" (JStr "N/A")); "  "; nl;
        "**Summary:** "; py_str (dict_get evaln "summary" (JStr "")); nl; nl].

(** [main()], after the command line was parsed into [cfg]. *)
Definition main (cfg : config) : M unit :=
  ps <- load_prompts PROMPTS_YAML ;;
  sh <- flow_run cfg {| prompts := ps; docs := None; doc_analyses := None;
                        final := None; evaluation := None; trigger_result := None |} ;;
  report <- shared_final sh ;;
  let evaln := shared_evaluation sh in
  write_text (output cfg) (String.append report (appendix evaln)) ;;;
  print (fstr ["[+] Report written to "; path_str (output cfg)]) ;;;
  print_if (verbose cfg)
    (fstr ["[+] Evaluation for "; target_name cfg; ": ";
           "Score: "; py_str (dict_get evaln "security_score" (JStr "N/A")); ", ";
           "Level: "; py_str (dict_get evaln "level" (JStr "UNKNOWN"))]).

(** ** The severity comparison *)

(** [level_ge] against the order of the scale: both texts, in upper
    case, are tokens, and the first is at or above the second. *)
Lemma level_ge_true_iff (a b : string) :
  level_ge a b = true <->
  exists sa sb, upper a = token sa /\ upper b = token sb /\ sev_ge sa sb.
Proof.
  unfold level_ge. split.
  - destruct (list_index (upper a) LEVELS) as [i|] eqn:Ea; [|discriminate].
    destruct (list_index (upper b) LEVELS) as [j|] eqn:Eb; [|discriminate].
    intros H. apply Nat.leb_le in H.
    destruct (index_levels_inv _ _ Ea) as (sa & Ha & ->).
    destruct (index_levels_inv _ _ Eb) as (sb & Hb & ->).
    exists sa, sb. repeat split; try assumption. apply sev_ge_rank. exact H.
  - intros (sa & sb & -> & -> & H). rewrite !index_token.
    apply Nat.leb_le. apply sev_ge_rank. exact H.
Qed.

Lemma level_ge_unrecognized (t x : string) :
  ~ In (upper t) LEVELS -> level_ge t x = false.
Proof.
  intros H. unfold level_ge. apply list_index_None in H. rewrite H. reflexivity.
Qed.

Lemma level_ge_unknown_threshold (t x : string) :
  ~ In (upper x) LEVELS -> level_ge t x = false.
Proof.
  intros H. unfold level_ge. apply list_index_None in H. rewrite H.
  destruct (list_index (upper t) LEVELS); reflexivity.
Qed.

(** C5 (amended).  When [upper] leaves the five tokens as they are (they
    are upper-case already): for all members [a], [b] of the scale,
    [level_ge(a, a)] holds and [level_ge(a, b)] holds exactly when [a] is
    at or above [b] in NONE < LOW < MEDIUM < HIGH < CRITICAL; and for a
    token whose upper-case form is not in the scale, [level_ge(token, x)]
    is false for every [x]. *)
Theorem level_ge_on_scale :
  (forall s : severity, upper (token s) = token s) ->
  forall a b : severity,
    level_ge (token a) (token a) = true /\
    (level_ge (token a) (token b) = true <-> sev_ge a b) /\
    (forall t x : string, ~ In (upper t) LEVELS -> level_ge t x = false).
Proof.
  intros Hup a b. split; [|split].
  - apply level_ge_true_iff. exists a, a. rewrite Hup.
    repeat split. left. reflexivity.
  - rewrite level_ge_true_iff. split.
    + intros (sa & sb & Ha & Hb & H). rewrite Hup in Ha, Hb.
      apply token_inj in Ha, Hb. subst. exact H.
    + intros H. exists a, b. rewrite !Hup. repeat split. exact H.
  - intros t x. apply level_ge_unrecognized.
Qed.

(** C10.  When [upper] is idempotent, [level_ge(a, b)] is
    [level_ge(a.upper(), b.upper())]; and a text with the same upper-case
    form as [t] (it differs from [t] in letter case only) compares as [t]
    does, on either side. *)
Theorem level_ge_case_insensitive :
  (forall s : string, upper (upper s) = upper s) ->
  forall a b : string,
    level_ge a b = level_ge (upper a) (upper b) /\
    (forall t : string, upper a = upper t ->
       level_ge a b = level_ge t b /\ level_ge b a = level_ge b t).
Proof.
  intros Hid a b. split.
  - unfold level_ge. rewrite !Hid. reflexivity.
  - intros t Ht. unfold level_ge. rewrite Ht. split; reflexivity.
Qed.

(** ** The trigger gate *)

(** The condition of the trigger gate in the words of the specification: the
    evaluated level and the threshold, read without regard to letter
    case, are members of the scale and the level is at or above the
    threshold. *)
Definition threshold_reached (ev : dict) (threshold : string) : Prop :=
  exists sl st : severity,
    upper (evaluated_level ev) = token sl /\
    upper threshold = token st /\
    sev_ge sl st.

(** The process the trigger gate starts for the command line [args],
    given the bytes [line]. *)
Definition trigger_action (args : list string) (line : string) : process :=
  {| argv := args; stdin := line |}.

Ltac run_prints cfg :=
  unfold print_if, print, bind, ret, lift; destruct (verbose cfg); simpl.

Lemma exec_no_command cfg cmd threshold target ev w :
  truthy cmd = false ->
  fst (TriggerTool_exec cfg (cmd, threshold, target, ev) w) = Ok NotTriggered /\
  procs (snd (TriggerTool_exec cfg (cmd, threshold, target, ev) w)) = procs w.
Proof.
  intros H. unfold TriggerTool_exec. rewrite H. simpl.
  run_prints cfg; split; reflexivity.
Qed.

Lemma exec_below_threshold cfg cmd threshold target ev w :
  level_ge (evaluated_level ev) threshold = false ->
  fst (TriggerTool_exec cfg (cmd, threshold, target, ev) w) = Ok NotTriggered /\
  procs (snd (TriggerTool_exec cfg (cmd, threshold, target, ev) w)) = procs w.
Proof.
  intros H. unfold TriggerTool_exec. rewrite H. simpl.
  destruct (truthy cmd); simpl; run_prints cfg; split; reflexivity.
Qed.

(** The result of the gate from the two streams of the action. *)
Definition trigger_record (code : Z) (out err : string) : result trigger_res :=
  match decode out with
  | Ok out_text =>
      match decode err with
      | Ok err_text => Ok (Triggered code out_text err_text)
      | Raise e => Raise e
      end
  | Raise e => Raise e
  end.

(** The gate at a configured action and a reached threshold. *)
Lemma exec_reached cfg c threshold target ev w :
  c <> "" ->
  level_ge (evaluated_level ev) threshold = true ->
  TriggerTool_exec cfg (Some c, threshold, target, ev) w =
    match encode (trigger_line target ev) with
    | Raise e => (Raise e, w)
    | Ok line =>
        match shlex_split c with
        | Raise e => (Raise e, w)
        | Ok args =>
            match os_spawn (fs w) (procs w) (trigger_action args line) with
            | Raise e => (Raise e, w)
            | Ok (code, out, err, f) =>
                (trigger_record code out err,
                 {| fs := f; stdout := stdout w; llm_calls := llm_calls w;
                    procs := procs w ++ [trigger_action args line] |})
            end
        end
    end.
Proof.
  intros Hc Hge. unfold TriggerTool_exec. simpl.
  apply String.eqb_neq in Hc. rewrite Hc, Hge. simpl.
  unfold bind, lift, subprocess_run, ret, trigger_record.
  destruct (encode (trigger_line target ev)) as [line|e]; [|reflexivity].
  destruct (shlex_split c) as [args|e]; [|reflexivity].
  fold (trigger_action args line).
  destruct (os_spawn (fs w) (procs w) (trigger_action args line))
    as [[[[code out] err] f]|e]; [|reflexivity].
  destruct (decode out) as [o|e]; [|reflexivity].
  destruct (decode err) as [o'|e]; reflexivity.
Qed.

Lemma exec_fires cfg c threshold target ev w args line code out err f :
  c <> "" ->
  level_ge (evaluated_level ev) threshold = true ->
  encode (trigger_line target ev) = Ok line ->
  shlex_split c = Ok args ->
  os_spawn (fs w) (procs w) (trigger_action args line) = Ok (code, out, err, f) ->
  TriggerTool_exec cfg (Some c, threshold, target, ev) w =
    (trigger_record code out err,
     {| fs := f; stdout := stdout w; llm_calls := llm_calls w;
        procs := procs w ++ [trigger_action args line] |}).
Proof.
  intros Hc Hge Hline Hsplit Hrun.
  rewrite (exec_reached cfg c threshold target ev w Hc Hge), Hline, Hsplit, Hrun.
  reflexivity.
Qed.

(** C4 (amended).  With no action configured ([cmd] is [None] or empty)
    the gate reports not-triggered and starts no process.  With an
    action configured whose line can be encoded, whose command line
    splits into [args] and whose process can be created, the gate starts
    the action, once and with the bytes of the line
    [<target> <score> <level>], if and only if the evaluated level is at
    or above the threshold on the scale; otherwise it starts nothing and
    reports not-triggered.  When at a reached threshold the line cannot
    be encoded, the command line cannot be split or the process cannot
    be created, the gate raises that exception and nothing has run. *)
Theorem trigger_gate_fires_iff cfg cmd threshold target ev w :
  let r := TriggerTool_exec cfg (cmd, threshold, target, ev) w in
  (truthy cmd = false ->
     fst r = Ok NotTriggered /\ procs (snd r) = procs w) /\
  (forall c args line res, cmd = Some c -> c <> "" ->
     encode (trigger_line target ev) = Ok line ->
     shlex_split c = Ok args ->
     os_spawn (fs w) (procs w) (trigger_action args line) = Ok res ->
     (procs (snd r) = procs w ++ [trigger_action args line]
        <-> threshold_reached ev threshold) /\
     (~ threshold_reached ev threshold ->
        fst r = Ok NotTriggered /\ procs (snd r) = procs w)) /\
  (forall c e, cmd = Some c -> c <> "" ->
     threshold_reached ev threshold ->
     (encode (trigger_line target ev) = Raise e \/
      (exists line,
         encode (trigger_line target ev) = Ok line /\
         (shlex_split c = Raise e \/
          exists args,
            shlex_split c = Ok args /\
            os_spawn (fs w) (procs w) (trigger_action args line) = Raise e))) ->
     r = (Raise e, w)).
Proof.
  intros r. split; [|split].
  - intros H. apply exec_no_command. exact H.
  - intros c args line [[[code out] err] f] -> Hc Hline Hsplit Hrun.
    unfold threshold_reached.
    destruct (level_ge (evaluated_level ev) threshold) eqn:Hge.
    + assert (Hr := exec_fires cfg c threshold target ev w args line code out err f
                      Hc Hge Hline Hsplit Hrun).
      fold r in Hr. rewrite Hr. simpl. split.
      * split; [intros _; apply level_ge_true_iff; exact Hge | reflexivity].
      * intros Hn. exfalso. apply Hn. apply level_ge_true_iff. exact Hge.
    + destruct (exec_below_threshold cfg (Some c) threshold target ev w Hge) as [H1 H2].
      fold r in H1, H2. split.
      * split.
        -- intros Hp. rewrite H2 in Hp. symmetry in Hp.
           exfalso. exact (app_one_neq _ _ Hp).
        -- intros Hr. apply level_ge_true_iff in Hr. congruence.
      * intros _. split; assumption.
  - intros c e -> Hc Hreach Hfail. apply level_ge_true_iff in Hreach.
    unfold r. rewrite (exec_reached cfg c threshold target ev w Hc Hreach).
    destruct Hfail as [He|(line & Hline & [Hs|(args & Hs & Hrun)])].
    + rewrite He. reflexivity.
    + rewrite Hline, Hs. reflexivity.
    + rewrite Hline, Hs, Hrun. reflexivity.
Qed.

(** C3 (amended).  For every threshold [th] of the scale (with [upper]
    leaving the tokens as they are): a level whose upper-case form is not
    a token of the scale never reaches the threshold, and the gate then
    reports not-triggered and starts nothing; a missing level is read as
    NONE, so it reaches the threshold exactly when the threshold is NONE,
    and for every higher threshold the gate reports not-triggered and
    starts nothing. *)
Theorem trigger_gate_unrecognized_or_missing :
  (forall s : severity, upper (token s) = token s) ->
  forall cfg cmd (th : severity) target ev w,
    let r := TriggerTool_exec cfg (cmd, token th, target, ev) w in
    (~ In (upper (evaluated_level ev)) LEVELS ->
       level_ge (evaluated_level ev) (token th) = false /\
       fst r = Ok NotTriggered /\ procs (snd r) = procs w) /\
    (dict_lookup ev "level" = None ->
       (level_ge (evaluated_level ev) (token th) = true <-> th = NONE) /\
       (th <> NONE -> fst r = Ok NotTriggered /\ procs (snd r) = procs w)).
Proof.
  intros Hup cfg cmd th target ev w r. split.
  - intros Hun. assert (Hge := level_ge_unrecognized _ (token th) Hun).
    split; [exact Hge|]. apply exec_below_threshold. exact Hge.
  - intros Hmiss.
    assert (Hlev : evaluated_level ev = "NONE").
    { unfold evaluated_level, dict_get. rewrite Hmiss. reflexivity. }
    assert (Hiff : level_ge (evaluated_level ev) (token th) = true <-> th = NONE).
    { rewrite Hlev, level_ge_true_iff. split.
      - intros (sl & st & Hl & Ht & Hge).
        change "NONE" with (token NONE) in Hl. rewrite Hup in Hl, Ht.
        apply token_inj in Hl, Ht. subst sl st.
        apply sev_ge_rank in Hge. destruct th; simpl in Hge; (reflexivity || lia).
      - intros ->. exists NONE, NONE.
        change "NONE" with (token NONE). rewrite Hup.
        repeat split. left. reflexivity. }
    split; [exact Hiff|].
    intros Hne. apply exec_below_threshold.
    destruct (level_ge (evaluated_level ev) (token th)); [|reflexivity].
    exfalso. apply Hne. apply Hiff. reflexivity.
Qed.

(** ** Order of documents, analyses and the synthesis input *)

(** The names of the documents of a directory, in the order [prep]
    returns their paths. *)
Definition md_names (f : filesystem) (input_dir : path) : list string :=
  sorted String.leb (filter (ends_with ".md") (fs_listdir f (abspath input_dir))).

Lemma LoadMarkdown_prep_names (input_dir : path) (sh : shared) (w : world) :
  LoadMarkdown_prep input_dir sh w =
    (Ok (map (fun n => input_dir ++ [n]) (md_names (fs w) input_dir)), w).
Proof.
  unfold LoadMarkdown_prep, glob_md, md_names. f_equal. f_equal.
  apply sorted_map. intros x y. apply path_leb_same_dir.
Qed.

(** The document [d] is the file at [p], converted. *)
Definition loaded_from (f : filesystem) (p : path) (d : doc) : Prop :=
  doc_path d = path_str p /\
  exists html, fs_lookup f (abspath p) = Some (File html) /\
               markdown d = html_to_markdown html.

Lemma LoadMarkdown_exec_docs (cfg : config) : forall paths w ds w',
  LoadMarkdown_exec cfg paths w = (Ok ds, w') ->
  Forall2 (loaded_from (fs w)) paths ds /\
  llm_calls w' = llm_calls w /\ fs w' = fs w.
Proof.
  unfold LoadMarkdown_exec.
  induction paths as [|p r IH]; intros w ds w' H; simpl in H.
  - apply ret_inv in H as [<- <-]. repeat split. constructor.
  - apply bind_inv in H as (d & w1 & Hd & H).
    apply bind_inv in H as (ys & w2 & Hr & H).
    apply ret_inv in H as [<- <-].
    apply bind_inv in Hd as (u & w0 & Hp & Hd).
    apply bind_inv in Hd as (html & w0' & Hread & Hd).
    apply ret_inv in Hd as [<- <-].
    destruct (print_if_frame (verbose cfg) (fstr ["[*] Converting "; name p]) w)
      as (wp & Hp' & Hfs & Hcalls & _).
    rewrite Hp' in Hp. injection Hp as _ <-.
    unfold read_text in Hread.
    destruct (fs_lookup (fs wp) (abspath p)) as [[|text]|] eqn:Hlook;
      try discriminate Hread.
    injection Hread as <- <-.
    apply IH in Hr. destruct Hr as (Hm & Hc & Hf).
    rewrite Hfs in Hm, Hlook. repeat split.
    + constructor; [|exact Hm]. split; [reflexivity|].
      exists text. split; [exact Hlook | reflexivity].
    + congruence.
    + congruence.
Qed.

(** The answers of the backend to a sequence of calls, each given the
    calls before it. *)
Fixpoint answered (cfg : config) (hist : list (list message))
  (msgs : list (list message)) (answers : list string) : Prop :=
  match msgs, answers with
  | [], [] => True
  | m :: ms, a :: rest =>
      backend_call (llm_backend cfg) (llm_model cfg) hist m = Ok a /\
      answered cfg (hist ++ [m]) ms rest
  | _, _ => False
  end.

Lemma call_llm_inv (cfg : config) (msg : list message) (w w' : world) (a : string) :
  call_llm cfg msg w = (Ok a, w') ->
  backend_call (llm_backend cfg) (llm_model cfg) (llm_calls w) msg = Ok a /\
  llm_calls w' = llm_calls w ++ [msg] /\ fs w' = fs w /\ procs w' = procs w.
Proof.
  unfold call_llm. intros [= H <-]. repeat split. exact H.
Qed.

Lemma AnalyzeEachDoc_exec_order (cfg : config) (prompt : prompt_def) :
  forall ds w anns w',
    AnalyzeEachDoc_exec cfg (ds, prompt) w = (Ok anns, w') ->
    map a_path anns = map doc_path ds /\
    llm_calls w' = llm_calls w ++ map (fun d => stage_messages prompt (markdown d)) ds /\
    answered cfg (llm_calls w)
             (map (fun d => stage_messages prompt (markdown d)) ds)
             (map analysis anns).
Proof.
  unfold AnalyzeEachDoc_exec.
  induction ds as [|d r IH]; intros w anns w' H; simpl in H.
  - apply ret_inv in H as [<- <-]. simpl. rewrite app_nil_r. repeat split.
  - apply bind_inv in H as (x & w1 & Hx & H).
    apply bind_inv in H as (ys & w2 & Hr & H).
    apply ret_inv in H as [<- <-].
    apply bind_inv in Hx as (a & w0 & Hcall & Hx).
    apply ret_inv in Hx as [<- <-].
    apply call_llm_inv in Hcall as (Ha & Hc & _ & _).
    apply IH in Hr. destruct Hr as (Hm & Hc2 & Hans). rewrite Hc in Hc2, Hans.
    simpl. repeat split.
    + f_equal. exact Hm.
    + rewrite Hc2, <- app_assoc. reflexivity.
    + exact Ha.
    + exact Hans.
Qed.

(** C6.  The load stage hands over the [*.md] files of the documents
    directory in lexicographic order of their names, whatever the order
    of the directory.  When the load and the per-document stages end
    normally: the documents are these files, converted, in that order;
    there is one analysis per document, in the order of the documents,
    each the backend's answer to the call for its document, the calls
    being made in that order; and the synthesis stage makes one call
    whose user message is the synthesis prompt, a blank line, and the
    analysis texts joined by the separator in that order. *)
Theorem pipeline_order cfg sh w :
  let names := md_names (fs w) (input cfg) in
  let paths := map (fun n => input cfg ++ [n]) names in
  (Permutation names
     (filter (ends_with ".md") (fs_listdir (fs w) (abspath (input cfg)))) /\
   StronglySorted (fun a b => String.leb a b = true) names /\
   LoadMarkdown_prep (input cfg) sh w = (Ok paths, w)) /\
  forall sh1 w1 sh2 w2,
    LoadMarkdown cfg sh w = (Ok sh1, w1) ->
    AnalyzeEachDoc cfg sh1 w1 = (Ok sh2, w2) ->
    exists (ds : list doc) (anns : list doc_analysis) (pd : prompt_def),
      docs sh1 = Some ds /\
      Forall2 (loaded_from (fs w)) paths ds /\
      doc_analyses sh2 = Some anns /\
      map a_path anns = map doc_path ds /\
      assoc_get (prompts sh) "per_doc" = Some pd /\
      llm_calls w2 =
        llm_calls w1 ++ map (fun d => stage_messages pd (markdown d)) ds /\
      answered cfg (llm_calls w1)
        (map (fun d => stage_messages pd (markdown d)) ds) (map analysis anns) /\
      forall fp, assoc_get (prompts sh) "final_synthesis" = Some fp ->
        llm_calls (snd (FinalReport cfg sh2 w2)) =
          llm_calls w2 ++
          [ [ {| role := "system"; content := prompt_get fp "system" |};
              {| role := "user";
                 content := fstr [prompt_get fp "user"; nl; nl;
                                  String.concat SEPARATOR (map analysis anns)] |} ] ].
Proof.
  intros names paths. split.
  { split; [apply sorted_Permutation|].
    split; [apply sorted_StronglySorted; [apply String.leb_total | apply string_leb_trans]|].
    apply LoadMarkdown_prep_names. }
  intros sh1 w1 sh2 w2 Hload Han.
  unfold LoadMarkdown, node_run in Hload.
  apply bind_inv in Hload as (paths0 & w0 & Hprep & Hload).
  rewrite LoadMarkdown_prep_names in Hprep. fold names in Hprep. fold paths in Hprep.
  injection Hprep as <- <-.
  apply bind_inv in Hload as (ds & w' & Hexec & Hload).
  apply ret_inv in Hload as [<- <-].
  apply LoadMarkdown_exec_docs in Hexec. destruct Hexec as (Hpaths & _ & _).
  unfold AnalyzeEachDoc, node_run in Han.
  apply bind_inv in Han as ([ds' pd] & w3 & Hprep & Han).
  apply bind_inv in Han as (anns & w4 & Hex & Han).
  apply ret_inv in Han as [<- <-].
  unfold AnalyzeEachDoc_prep, shared_docs, shared_prompt in Hprep. simpl in Hprep.
  apply bind_inv in Hprep as (ds0 & w5 & Hd & Hprep).
  apply ret_inv in Hd as [<- <-].
  apply bind_inv in Hprep as (pd0 & w6 & Hp & Hprep).
  apply ret_inv in Hprep as [[= <- <-] <-].
  destruct (assoc_get (prompts sh) "per_doc") as [pd|] eqn:Hpd; [|discriminate Hp].
  apply ret_inv in Hp as [<- <-].
  apply AnalyzeEachDoc_exec_order in Hex. destruct Hex as (Hm & Hc & Ha).
  exists ds, anns, pd. simpl.
  split; [reflexivity|].
  split; [exact Hpaths|].
  split; [reflexivity|].
  split; [exact Hm|].
  split; [reflexivity|].
  split; [exact Hc|].
  split; [exact Ha|].
  intros fp Hfp.
  unfold FinalReport, node_run, FinalReport_prep, shared_doc_analyses, shared_prompt.
  simpl. rewrite Hfp. unfold bind, ret, FinalReport_exec, call_llm, stage_messages.
  simpl.
  destruct (backend_call _ _ _ _); reflexivity.
Qed.

(** ** The report is written last *)

Lemma fs_stable_read_text (p : path) : fs_stable (read_text p).
Proof.
  intros w r w' H. unfold read_text in H.
  destruct (fs_lookup (fs w) (abspath p)) as [[|t]|]; injection H as _ <-; reflexivity.
Qed.

Lemma fs_stable_call_llm cfg msg : fs_stable (call_llm cfg msg).
Proof. intros w r w' [= _ <-]. reflexivity. Qed.


Lemma fs_stable_node_run {P E : Type} (prep : shared -> M P) (exec : P -> M E)
  (post : shared -> P -> E -> shared) (sh : shared) :
  fs_stable (prep sh) -> (forall p, fs_stable (exec p)) ->
  fs_stable (node_run prep exec post sh).
Proof.
  intros Hp He. unfold node_run. apply fs_stable_bind; [exact Hp|]. intros p.
  apply fs_stable_bind; [apply He|]. intros e. apply fs_stable_ret.
Qed.

Lemma fs_stable_shared_prompt sh key : fs_stable (shared_prompt sh key).
Proof.
  unfold shared_prompt. destruct (assoc_get (prompts sh) key);
    [apply fs_stable_ret | apply fs_stable_raise].
Qed.

(** None of the four analysis stages writes a file. *)
Lemma fs_stable_analysis_stages cfg sh : fs_stable (analysis_stages cfg sh).
Proof.
  unfold analysis_stages.
  apply fs_stable_bind.
  { apply fs_stable_node_run.
    - intros w r w' [= _ <-]. reflexivity.
    - intros paths. apply fs_stable_for_each. intros p.
      apply fs_stable_bind; [apply fs_stable_print_if|]. intros _.
      apply fs_stable_bind; [apply fs_stable_read_text|]. intros h. apply fs_stable_ret. }
  intros sh1. apply fs_stable_bind.
  { apply fs_stable_node_run.
    - unfold AnalyzeEachDoc_prep, shared_docs.
      apply fs_stable_bind;
        [destruct (docs sh1); [apply fs_stable_ret | apply fs_stable_raise]|].
      intros d. apply fs_stable_bind; [apply fs_stable_shared_prompt|].
      intros p. apply fs_stable_ret.
    - intros [ds prompt]. apply fs_stable_for_each. intros d.
      apply fs_stable_bind; [apply fs_stable_call_llm|]. intros a. apply fs_stable_ret. }
  intros sh2. apply fs_stable_bind.
  { apply fs_stable_node_run.
    - unfold FinalReport_prep, shared_doc_analyses.
      apply fs_stable_bind;
        [destruct (doc_analyses sh2); [apply fs_stable_ret | apply fs_stable_raise]|].
      intros d. apply fs_stable_bind; [apply fs_stable_shared_prompt|].
      intros p. apply fs_stable_ret.
    - intros [anns prompt]. apply fs_stable_call_llm. }
  intros sh3. apply fs_stable_node_run.
  - unfold EvaluateFinal_prep, shared_final.
    apply fs_stable_bind;
      [destruct (final sh3); [apply fs_stable_ret | apply fs_stable_raise]|].
    intros d. apply fs_stable_bind; [apply fs_stable_shared_prompt|].
    intros p. apply fs_stable_ret.
  - intros [final_md prompt]. unfold EvaluateFinal_exec, call_llm_json.
    apply fs_stable_bind; [apply fs_stable_call_llm|]. intros t. apply fs_stable_lift.
Qed.

Lemma flow_run_stages cfg sh w :
  flow_run cfg sh w = bind (analysis_stages cfg sh) (TriggerTool cfg) w.
Proof.
  unfold flow_run, analysis_stages, bind.
  destruct (LoadMarkdown cfg sh w) as [[sh1|e] w1]; [|reflexivity].
  destruct (AnalyzeEachDoc cfg sh1 w1) as [[sh2|e] w2]; [|reflexivity].
  destruct (FinalReport cfg sh2 w2) as [[sh3|e] w3]; [|reflexivity].
  destruct (EvaluateFinal cfg sh3 w3) as [[sh4|e] w4]; reflexivity.
Qed.


(** The ways of the gate to end: nothing has run and no file has
    changed; or the configured action was started at a reached
    threshold, ran to its end, and the result is made from its
    streams. *)
Lemma TriggerTool_exec_outcome cfg cmd threshold target ev w r w' :
  TriggerTool_exec cfg (cmd, threshold, target, ev) w = (r, w') ->
  (fs w' = fs w /\ procs w' = procs w) \/
  exists c args line code out err,
    cmd = Some c /\ c <> "" /\
    level_ge (evaluated_level ev) threshold = true /\
    encode (trigger_line target ev) = Ok line /\
    shlex_split c = Ok args /\
    os_spawn (fs w) (procs w) (trigger_action args line) = Ok (code, out, err, fs w') /\
    procs w' = procs w ++ [trigger_action args line] /\
    r = trigger_record code out err.
Proof.
  intros H.
  destruct (truthy cmd) eqn:Ht.
  2:{ left. unfold TriggerTool_exec in H. rewrite Ht in H. simpl in H.
      revert H. run_prints cfg; intros [= _ <-]; split; reflexivity. }
  destruct (level_ge (evaluated_level ev) threshold) eqn:Hge.
  2:{ left. unfold TriggerTool_exec in H. rewrite Ht, Hge in H. simpl in H.
      revert H. run_prints cfg; intros [= _ <-]; split; reflexivity. }
  destruct cmd as [c|]; [|discriminate Ht].
  assert (Hc : c <> "") by (intros ->; discriminate Ht).
  rewrite (exec_reached cfg c threshold target ev w Hc Hge) in H.
  destruct (encode (trigger_line target ev)) as [line|e] eqn:Hline;
    [|injection H as _ <-; left; split; reflexivity].
  destruct (shlex_split c) as [args|e] eqn:Hs;
    [|injection H as _ <-; left; split; reflexivity].
  destruct (os_spawn (fs w) (procs w) (trigger_action args line))
    as [[[[code out] err] f]|e] eqn:Hrun;
    [|injection H as _ <-; left; split; reflexivity].
  injection H as <- <-. right. exists c, args, line, code, out, err. simpl.
  repeat split; try assumption; reflexivity.
Qed.




(** ** What the stages do to the world *)

(** The component [f] of the world is as it was. *)
Definition same {X} (f : world -> X) (w w' : world) : Prop := f w' = f w.

Lemma same_refl {X} (f : world -> X) w : same f w w.
Proof. reflexivity. Qed.

Lemma same_trans {X} (f : world -> X) w1 w2 w3 :
  same f w1 w2 -> same f w2 w3 -> same f w1 w3.
Proof. unfold same. congruence. Qed.

Lemma same_print_if {X} (f : world -> X) c line :
  (forall w l, f {| fs := fs w; stdout := l; llm_calls := llm_calls w;
                    procs := procs w |} = f w) ->
  respects (same f) (print_if c line).
Proof.
  intros Hf w r w' H. unfold print_if, print, ret in H.
  destruct c; injection H as _ <-; [apply Hf | reflexivity].
Qed.

Lemma same_read_text {X} (f : world -> X) p : respects (same f) (read_text p).
Proof.
  intros w r w' H. unfold read_text in H.
  destruct (fs_lookup (fs w) (abspath p)) as [[|t]|]; injection H as _ <-; reflexivity.
Qed.

Lemma same_call_llm {X} (f : world -> X) cfg msg :
  (forall w l, f {| fs := fs w; stdout := stdout w; llm_calls := l;
                    procs := procs w |} = f w) ->
  respects (same f) (call_llm cfg msg).
Proof. intros Hf w r w' [= _ <-]. apply Hf. Qed.

Lemma same_shared_prompt {X} (f : world -> X) sh key :
  respects (same f) (shared_prompt sh key).
Proof.
  unfold shared_prompt. destruct (assoc_get (prompts sh) key);
    [apply respects_ret | apply respects_raise]; apply same_refl.
Qed.

(** Walks through the binds and branches of a stage. *)
Ltac stage_frame :=
  repeat first
    [ progress intros
    | match goal with
      | |- respects (same _) (bind _ _) => apply respects_bind; [apply same_trans| |]
      | |- respects (same _) (ret _) => apply respects_ret; apply same_refl
      | |- respects (same _) (raise _) => apply respects_raise; apply same_refl
      | |- respects (same _) (lift _) => apply respects_lift; apply same_refl
      | |- respects (same _) (for_each _ _) =>
          apply respects_for_each; [apply same_refl | apply same_trans |]
      | |- respects (same _) (print_if _ _) => apply same_print_if; reflexivity
      | |- respects (same _) (read_text _) => apply same_read_text
      | |- respects (same _) (call_llm _ _) => apply same_call_llm; reflexivity
      | |- respects (same _) (shared_prompt _ _) => apply same_shared_prompt
      | |- respects _ (let (_, _) := ?x in _) => destruct x
      | |- respects _ (match ?x with _ => _ end) => destruct x
      end ].

(** The load stage reads files and prints; it calls no model and starts
    no process. *)
Lemma LoadMarkdown_quiet {X} (f : world -> X) cfg sh :
  (forall w l, f {| fs := fs w; stdout := l; llm_calls := llm_calls w;
                    procs := procs w |} = f w) ->
  respects (same f) (LoadMarkdown cfg sh).
Proof.
  intros Hf. unfold LoadMarkdown, node_run, LoadMarkdown_exec. stage_frame.
  - intros w r w' [= _ <-]. reflexivity.
  - apply same_print_if. exact Hf.
Qed.

(** The three model stages start no process. *)
Lemma AnalyzeEachDoc_procs cfg sh : respects (same procs) (AnalyzeEachDoc cfg sh).
Proof.
  unfold AnalyzeEachDoc, node_run, AnalyzeEachDoc_prep, AnalyzeEachDoc_exec, shared_docs.
  stage_frame.
Qed.

Lemma FinalReport_procs cfg sh : respects (same procs) (FinalReport cfg sh).
Proof.
  unfold FinalReport, node_run, FinalReport_prep, FinalReport_exec, shared_doc_analyses.
  stage_frame.
Qed.

Lemma EvaluateFinal_procs cfg sh : respects (same procs) (EvaluateFinal cfg sh).
Proof.
  unfold EvaluateFinal, node_run, EvaluateFinal_prep, EvaluateFinal_exec,
    call_llm_json, shared_final.
  stage_frame.
Qed.

(** The trigger stage calls no model. *)
Lemma TriggerTool_calls cfg sh : respects (same llm_calls) (TriggerTool cfg sh).
Proof.
  unfold TriggerTool, node_run, TriggerTool_prep, TriggerTool_exec, subprocess_run.
  stage_frame.
  all: try (intros w r w' [= _ <-]; reflexivity).
  intros w r w' H.
  destruct (os_spawn _ _ _) as [[[[code out] err] f]|e]; injection H as _ <-; reflexivity.
Qed.

(** ** The stages, one by one *)

Lemma analysis_stages_procs cfg sh : respects (same procs) (analysis_stages cfg sh).
Proof.
  unfold analysis_stages.
  apply respects_bind; [apply same_trans | apply LoadMarkdown_quiet; reflexivity |].
  intros sh1. apply respects_bind; [apply same_trans | apply AnalyzeEachDoc_procs |].
  intros sh2. apply respects_bind; [apply same_trans | apply FinalReport_procs |].
  intros sh3. apply EvaluateFinal_procs.
Qed.

Lemma LoadMarkdown_inv cfg sh w sh1 w1 :
  LoadMarkdown cfg sh w = (Ok sh1, w1) ->
  exists ds,
    sh1 = LoadMarkdown_post sh [] ds /\
    Forall2 (loaded_from (fs w))
      (map (fun n => input cfg ++ [n]) (md_names (fs w) (input cfg))) ds /\
    llm_calls w1 = llm_calls w.
Proof.
  unfold LoadMarkdown, node_run. intros H.
  apply bind_inv in H as (paths & w0 & Hprep & H).
  rewrite LoadMarkdown_prep_names in Hprep. injection Hprep as <- <-.
  apply bind_inv in H as (ds & w' & Hexec & H).
  apply ret_inv in H as [<- <-].
  apply LoadMarkdown_exec_docs in Hexec. destruct Hexec as (Hpaths & Hc & _).
  exists ds. repeat split; assumption.
Qed.

Lemma AnalyzeEachDoc_inv cfg sh1 w1 sh2 w2 :
  AnalyzeEachDoc cfg sh1 w1 = (Ok sh2, w2) ->
  exists ds pd anns,
    docs sh1 = Some ds /\
    assoc_get (prompts sh1) "per_doc" = Some pd /\
    sh2 = AnalyzeEachDoc_post sh1 (ds, pd) anns /\
    map a_path anns = map doc_path ds /\
    llm_calls w2 = llm_calls w1 ++ map (fun d => stage_messages pd (markdown d)) ds.
Proof.
  unfold AnalyzeEachDoc, node_run. intros H.
  apply bind_inv in H as ([ds pd] & w3 & Hprep & H).
  apply bind_inv in H as (anns & w4 & Hex & H).
  apply ret_inv in H as [<- <-].
  unfold AnalyzeEachDoc_prep, shared_docs, shared_prompt in Hprep.
  apply bind_inv in Hprep as (ds0 & w5 & Hd & Hprep).
  apply bind_inv in Hprep as (pd0 & w6 & Hp & Hprep).
  apply ret_inv in Hprep as [[= <- <-] <-].
  destruct (docs sh1) as [ds'|]; [|discriminate Hd].
  apply ret_inv in Hd as [<- <-].
  destruct (assoc_get (prompts sh1) "per_doc") as [pd'|]; [|discriminate Hp].
  apply ret_inv in Hp as [<- <-].
  apply AnalyzeEachDoc_exec_order in Hex. destruct Hex as (Hm & Hc & _).
  do 3 eexists. repeat split; first [reflexivity | eassumption].
Qed.

Lemma FinalReport_inv cfg sh2 w2 sh3 w3 :
  FinalReport cfg sh2 w2 = (Ok sh3, w3) ->
  exists anns fp report,
    doc_analyses sh2 = Some anns /\
    assoc_get (prompts sh2) "final_synthesis" = Some fp /\
    backend_call (llm_backend cfg) (llm_model cfg) (llm_calls w2)
      (stage_messages fp (String.concat SEPARATOR (map analysis anns))) = Ok report /\
    sh3 = FinalReport_post sh2 (anns, fp) report /\
    llm_calls w3 =
      llm_calls w2 ++ [stage_messages fp (String.concat SEPARATOR (map analysis anns))].
Proof.
  unfold FinalReport, node_run. intros H.
  apply bind_inv in H as ([anns fp] & w0 & Hprep & H).
  apply bind_inv in H as (report & w' & Hex & H).
  apply ret_inv in H as [<- <-].
  unfold FinalReport_prep, shared_doc_analyses, shared_prompt in Hprep.
  apply bind_inv in Hprep as (a0 & w5 & Hd & Hprep).
  apply bind_inv in Hprep as (p0 & w6 & Hp & Hprep).
  apply ret_inv in Hprep as [[= <- <-] <-].
  destruct (doc_analyses sh2) as [a'|]; [|discriminate Hd].
  apply ret_inv in Hd as [<- <-].
  destruct (assoc_get (prompts sh2) "final_synthesis") as [p'|]; [|discriminate Hp].
  apply ret_inv in Hp as [<- <-].
  unfold FinalReport_exec in Hex. apply call_llm_inv in Hex as (Ha & Hc & _ & _).
  do 3 eexists. repeat split; first [reflexivity | eassumption].
Qed.

Lemma EvaluateFinal_inv cfg sh3 w3 sh4 w4 :
  EvaluateFinal cfg sh3 w3 = (Ok sh4, w4) ->
  exists report ep txt ev,
    final sh3 = Some report /\
    assoc_get (prompts sh3) "evaluation" = Some ep /\
    backend_call (llm_backend cfg) (llm_model cfg) (llm_calls w3)
      (stage_messages ep report) = Ok txt /\
    LlmClient._robust_json json_loads txt = Ok ev /\
    sh4 = EvaluateFinal_post sh3 (report, ep) ev /\
    llm_calls w4 = llm_calls w3 ++ [stage_messages ep report].
Proof.
  unfold EvaluateFinal, node_run. intros H.
  apply bind_inv in H as ([report ep] & w0 & Hprep & H).
  apply bind_inv in H as (ev & w' & Hex & H).
  apply ret_inv in H as [<- <-].
  unfold EvaluateFinal_prep, shared_final, shared_prompt in Hprep.
  apply bind_inv in Hprep as (f0 & w5 & Hd & Hprep).
  apply bind_inv in Hprep as (p0 & w6 & Hp & Hprep).
  apply ret_inv in Hprep as [[= <- <-] <-].
  destruct (final sh3) as [f'|]; [|discriminate Hd].
  apply ret_inv in Hd as [<- <-].
  destruct (assoc_get (prompts sh3) "evaluation") as [p'|]; [|discriminate Hp].
  apply ret_inv in Hp as [<- <-].
  unfold EvaluateFinal_exec, call_llm_json in Hex.
  apply bind_inv in Hex as (txt & w7 & Hcall & Hex).
  apply call_llm_inv in Hcall as (Ha & Hc & _ & _).
  unfold lift in Hex. injection Hex as Hj <-.
  do 4 eexists. repeat split; first [reflexivity | eassumption].
Qed.

(** ** A failing document call *)

(** X3.  The per-document stage stops at the first document whose model
    call fails: when the documents [before] were analyzed and the call
    for [d] raises [e], the stage raises [e]; the calls made are those
    for [before] and the one for [d], each once and in order (no retry),
    and none for the documents after [d]; nothing is written, printed or
    started. *)
Theorem analyze_each_doc_fail_fast cfg prompt (before : list doc) (d : doc)
  (rest : list doc) w anns w1 e :
  AnalyzeEachDoc_exec cfg (before, prompt) w = (Ok anns, w1) ->
  backend_call (llm_backend cfg) (llm_model cfg) (llm_calls w1)
    (stage_messages prompt (markdown d)) = Raise e ->
  exists w',
    AnalyzeEachDoc_exec cfg (before ++ d :: rest, prompt) w = (Raise e, w') /\
    llm_calls w' =
      llm_calls w ++ map (fun x => stage_messages prompt (markdown x)) (before ++ [d]) /\
    fs w' = fs w /\ procs w' = procs w /\ stdout w' = stdout w.
Proof.
  unfold AnalyzeEachDoc_exec. revert w anns.
  induction before as [|x b IH]; intros w anns Hdone Hfail; simpl in *.
  - apply ret_inv in Hdone as [_ <-].
    unfold bind at 1. unfold bind at 1. unfold call_llm at 1. rewrite Hfail.
    eexists. split; [reflexivity|]. simpl. repeat split.
  - apply bind_inv in Hdone as (y & w0 & Hx & Hdone).
    apply bind_inv in Hdone as (ys & w2 & Hb & Hdone).
    apply ret_inv in Hdone as [_ <-].
    destruct (IH w0 ys Hb Hfail) as (w' & Hrun & Hc & Hf & Hp & Ho).
    rewrite (bind_ok _ _ _ _ _ Hx). unfold bind at 1. rewrite Hrun.
    exists w'. split; [reflexivity|].
    apply bind_inv in Hx as (a & w3 & Hcall & Hx). apply ret_inv in Hx as [_ <-].
    unfold call_llm in Hcall. injection Hcall as _ <-. simpl in *.
    rewrite Hc, <- app_assoc. repeat split; assumption.
Qed.

(** ** The trigger comes last *)

Lemma TriggerTool_run cfg sh w :
  TriggerTool cfg sh w =
    match TriggerTool_exec cfg (trigger_cmd cfg, level_threshold cfg, target_name cfg,
                                shared_evaluation sh) w with
    | (Ok res, w') =>
        (Ok (TriggerTool_post sh (trigger_cmd cfg, level_threshold cfg, target_name cfg,
                                  shared_evaluation sh) res), w')
    | (Raise e, w') => (Raise e, w')
    end.
Proof.
  unfold TriggerTool, node_run, TriggerTool_prep, bind, ret.
  destruct (TriggerTool_exec _ _ w) as [[res|e] w']; reflexivity.
Qed.

(** A trigger stage that started a process was given a command whose
    line split into [args], at a level that reached the threshold. *)
Lemma TriggerTool_started cfg sh w r w' :
  TriggerTool cfg sh w = (r, w') ->
  procs w' <> procs w ->
  exists c args line,
    trigger_cmd cfg = Some c /\ c <> "" /\
    level_ge (evaluated_level (shared_evaluation sh)) (level_threshold cfg) = true /\
    encode (trigger_line (target_name cfg) (shared_evaluation sh)) = Ok line /\
    shlex_split c = Ok args /\
    procs w' = procs w ++ [trigger_action args line].
Proof.
  rewrite TriggerTool_run. intros H Hne.
  assert (Hp : procs (snd (TriggerTool_exec cfg
                 (trigger_cmd cfg, level_threshold cfg, target_name cfg,
                  shared_evaluation sh) w)) = procs w').
  { destruct (TriggerTool_exec _ _ w) as [[res|e] w0]; injection H as _ <-; reflexivity. }
  clear H.
  destruct (truthy (trigger_cmd cfg)) eqn:Ht.
  2:{ exfalso. apply Hne. rewrite <- Hp. apply exec_no_command. exact Ht. }
  destruct (level_ge (evaluated_level (shared_evaluation sh)) (level_threshold cfg)) eqn:Hge.
  2:{ exfalso. apply Hne. rewrite <- Hp. apply exec_below_threshold. exact Hge. }
  destruct (trigger_cmd cfg) as [c|] eqn:Hc; [|discriminate Ht].
  assert (Hcne : c <> "").
  { intros ->. discriminate Ht. }
  rewrite (exec_reached cfg c _ _ _ w Hcne Hge) in Hp.
  destruct (encode _) as [line|e] eqn:Hline; [|exfalso; apply Hne; rewrite <- Hp; reflexivity].
  destruct (shlex_split c) as [args|e] eqn:Hs;
    [|exfalso; apply Hne; rewrite <- Hp; reflexivity].
  destruct (os_spawn (fs w) (procs w) (trigger_action args line))
    as [[[[code out] err] f]|e]; [|exfalso; apply Hne; rewrite <- Hp; reflexivity].
  exists c, args, line. simpl in Hp. repeat split; try assumption; try reflexivity.
  symmetry. exact Hp.
Qed.

(** X4.  The trigger action is started only at the end of a complete
    analysis: when a run of the flow, however it ends, has started a
    process, then the load, per-document, synthesis and evaluation stages
    all ended normally, the evaluation is the decoded mapping of the
    evaluation stage, its level reached the threshold, and the one
    process started is the configured action with the encoded line for
    that evaluation.  A flow in which any of the four stages fails starts
    nothing. *)
Theorem trigger_only_after_evaluation cfg sh w r w' :
  flow_run cfg sh w = (r, w') ->
  procs w' <> procs w ->
  exists sh4 w4 ev c args line,
    analysis_stages cfg sh w = (Ok sh4, w4) /\
    evaluation sh4 = Some ev /\
    trigger_cmd cfg = Some c /\ c <> "" /\
    level_ge (evaluated_level ev) (level_threshold cfg) = true /\
    encode (trigger_line (target_name cfg) ev) = Ok line /\
    shlex_split c = Ok args /\
    procs w' = procs w ++ [trigger_action args line].
Proof.
  rewrite flow_run_stages. intros H Hne.
  apply bind_cases in H as [(sh4 & w4 & Hst & H)|(e & Hst & _)].
  - pose proof (analysis_stages_procs _ _ _ _ _ Hst) as Hq. unfold same in Hq.
    rewrite <- Hq in Hne.
    destruct (TriggerTool_started _ _ _ _ _ H Hne)
      as (c & args & line & Hc & Hcne & Hge & Hline & Hs & Hp).
    assert (Hev : exists ev, evaluation sh4 = Some ev).
    { unfold analysis_stages in Hst.
      apply bind_inv in Hst as (sh1 & w1 & _ & Hst).
      apply bind_inv in Hst as (sh2 & w2 & _ & Hst).
      apply bind_inv in Hst as (sh3 & w3 & _ & Hst).
      apply EvaluateFinal_inv in Hst as (rep & ep & txt & ev & _ & _ & _ & _ & -> & _).
      exists ev. reflexivity. }
    destruct Hev as (ev & Hev).
    unfold shared_evaluation in Hge, Hline. rewrite Hev in Hge, Hline.
    exists sh4, w4, ev, c, args, line. rewrite Hq in Hp. repeat split; assumption.
  - exfalso. apply Hne. exact (analysis_stages_procs _ _ _ _ _ Hst).
Qed.

(** ** A complete analysis *)

Lemma analysis_stages_inv cfg sh w sh4 w4 :
  analysis_stages cfg sh w = (Ok sh4, w4) ->
  exists ds pd anns fp report ep txt ev,
    Forall2 (loaded_from (fs w))
      (map (fun n => input cfg ++ [n]) (md_names (fs w) (input cfg))) ds /\
    assoc_get (prompts sh) "per_doc" = Some pd /\
    assoc_get (prompts sh) "final_synthesis" = Some fp /\
    assoc_get (prompts sh) "evaluation" = Some ep /\
    map a_path anns = map doc_path ds /\
    let calls1 := llm_calls w ++ map (fun d => stage_messages pd (markdown d)) ds in
    let synth := stage_messages fp (String.concat SEPARATOR (map analysis anns)) in
    backend_call (llm_backend cfg) (llm_model cfg) calls1 synth = Ok report /\
    backend_call (llm_backend cfg) (llm_model cfg) (calls1 ++ [synth])
      (stage_messages ep report) = Ok txt /\
    LlmClient._robust_json json_loads txt = Ok ev /\
    sh4 = {| prompts := prompts sh; docs := Some ds; doc_analyses := Some anns;
             final := Some report; evaluation := Some ev;
             trigger_result := trigger_result sh |} /\
    llm_calls w4 = calls1 ++ [synth; stage_messages ep report].
Proof.
  unfold analysis_stages. intros H.
  apply bind_inv in H as (sh1 & w1 & H1 & H).
  apply bind_inv in H as (sh2 & w2 & H2 & H).
  apply bind_inv in H as (sh3 & w3 & H3 & H).
  apply LoadMarkdown_inv in H1 as (ds & -> & Hds & Hc1).
  apply AnalyzeEachDoc_inv in H2 as (ds' & pd & anns & Hd & Hpd & -> & Hm & Hc2).
  apply FinalReport_inv in H3 as (anns' & fp & report & Ha & Hfp & Hrep & -> & Hc3).
  apply EvaluateFinal_inv in H as (report' & ep & txt & ev & Hf & Hep & Htxt & Hev & -> & Hc4).
  simpl in *. injection Hd as <-. injection Ha as <-. injection Hf as <-.
  rewrite Hc1 in Hc2. rewrite Hc2 in Hrep, Hc3. rewrite Hc3 in Htxt, Hc4.
  exists ds, pd, anns, fp, report, ep, txt, ev.
  repeat split; try assumption.
  rewrite Hc4, <- app_assoc. reflexivity.
Qed.

(** [shared] as [main] hands it to the flow. *)
Definition initial_shared (ps : prompts_t) : shared :=
  {| prompts := ps; docs := None; doc_analyses := None;
     final := None; evaluation := None; trigger_result := None |}.

Lemma load_prompts_world p w r w1 : load_prompts p w = (r, w1) -> w1 = w.
Proof.
  unfold load_prompts, bind, read_text, lift, ret, raise.
  destruct (fs_lookup (fs w) (abspath p)) as [[|t]|]; try (intros [= _ <-]; reflexivity).
  destruct (yaml_prompts t) as [[ps|]|e]; intros [= _ <-]; reflexivity.
Qed.

(** [main] after the prompts were loaded and the flow ended with [r]. *)
Lemma main_after_flow cfg w ps r w2 :
  load_prompts PROMPTS_YAML w = (Ok ps, w) ->
  flow_run cfg (initial_shared ps) w = (r, w2) ->
  main cfg w =
    match r with
    | Ok sh =>
        (report <- shared_final sh ;;
         write_text (output cfg) (String.append report (appendix (shared_evaluation sh))) ;;;
         print (fstr ["[+] Report written to "; path_str (output cfg)]) ;;;
         print_if (verbose cfg)
           (fstr ["[+] Evaluation for "; target_name cfg; ": ";
                  "Score: ";
                  py_str (dict_get (shared_evaluation sh) "security_score" (JStr "N/A"));
                  ", "; "Level: ";
                  py_str (dict_get (shared_evaluation sh) "level" (JStr "UNKNOWN"))])) w2
    | Raise e => (Raise e, w2)
    end.
Proof.
  intros Hl Hf. unfold main. rewrite (bind_ok _ _ _ _ _ Hl).
  unfold initial_shared in Hf. unfold bind at 1. rewrite Hf.
  destruct r; reflexivity.
Qed.

Lemma answered_app cfg : forall m1 hist a1 m2 a2,
  answered cfg hist m1 a1 -> answered cfg (hist ++ m1) m2 a2 ->
  answered cfg hist (m1 ++ m2) (a1 ++ a2).
Proof.
  induction m1 as [|m ms IH]; intros hist [|a rest] m2 a2 H1 H2; simpl in *;
    try contradiction.
  - rewrite app_nil_r in H2. exact H2.
  - destruct H1 as [Ha Hrest]. split; [exact Ha|].
    apply IH; [exact Hrest|]. rewrite <- app_assoc. exact H2.
Qed.

(** The analyses of a complete run are the answers to the calls for the
    documents, each call made after the ones before it. *)
Lemma analysis_stages_answers cfg sh w sh4 w4 :
  analysis_stages cfg sh w = (Ok sh4, w4) ->
  exists ds pd anns,
    docs sh4 = Some ds /\ doc_analyses sh4 = Some anns /\
    assoc_get (prompts sh) "per_doc" = Some pd /\
    answered cfg (llm_calls w)
      (map (fun d => stage_messages pd (markdown d)) ds) (map analysis anns).
Proof.
  unfold analysis_stages. intros H.
  apply bind_inv in H as (sh1 & w1 & H1 & H).
  apply bind_inv in H as (sh2 & w2 & H2 & H).
  apply bind_inv in H as (sh3 & w3 & H3 & H).
  apply LoadMarkdown_inv in H1 as (ds & -> & _ & Hc1).
  apply FinalReport_inv in H3 as (anns' & fp & report & _ & _ & _ & -> & _).
  apply EvaluateFinal_inv in H as (report' & ep & txt & ev & _ & _ & _ & _ & -> & _).
  unfold AnalyzeEachDoc, node_run in H2.
  apply bind_inv in H2 as ([ds' pd] & w5 & Hprep & H2).
  apply bind_inv in H2 as (anns & w6 & Hex & H2).
  apply ret_inv in H2 as [<- <-].
  unfold AnalyzeEachDoc_prep, shared_docs, shared_prompt in Hprep. simpl in Hprep.
  apply bind_inv in Hprep as (ds0 & w7 & Hd & Hprep).
  apply ret_inv in Hd as [<- <-].
  apply bind_inv in Hprep as (pd0 & w8 & Hp & Hprep).
  apply ret_inv in Hprep as [[= <- <-] <-].
  destruct (assoc_get (prompts sh) "per_doc") as [pd|] eqn:Hpd; [|discriminate Hp].
  apply ret_inv in Hp as [<- <-].
  apply AnalyzeEachDoc_exec_order in Hex. destruct Hex as (_ & _ & Ha).
  rewrite Hc1 in Ha.
  exists ds, pd, anns. simpl. repeat split. exact Ha.
Qed.

(** X5.  When [main] ends normally, the model calls of the run are the
    calls for the documents, the synthesis call on the joined answers to
    these, and the evaluation call on the answer to the synthesis call,
    with the prompts of prompts.yaml and each call made after the ones
    before it.  The file written is the answer to the synthesis call
    followed by the evaluation section built from the mapping that
    [_robust_json] decoded from the answer to the evaluation call.  The
    other files are as they were and no process has run; or they are as
    the configured action left them, which was started at the reached
    threshold with the line for that evaluation and is the one process
    that has run.  The line [[+] Report written to ...] was printed. *)
Theorem main_writes_report cfg w w' :
  main cfg w = (Ok tt, w') ->
  exists ps pd fp ep ds anns report txt ev f,
    load_prompts PROMPTS_YAML w = (Ok ps, w) /\
    assoc_get ps "per_doc" = Some pd /\
    assoc_get ps "final_synthesis" = Some fp /\
    assoc_get ps "evaluation" = Some ep /\
    Forall2 (loaded_from (fs w))
      (map (fun n => input cfg ++ [n]) (md_names (fs w) (input cfg))) ds /\
    let calls :=
      map (fun d => stage_messages pd (markdown d)) ds ++
      [ stage_messages fp (String.concat SEPARATOR (map analysis anns));
        stage_messages ep report ] in
    answered cfg (llm_calls w) calls (map analysis anns ++ [report; txt]) /\
    llm_calls w' = llm_calls w ++ calls /\
    LlmClient._robust_json json_loads txt = Ok ev /\
    (f = fs w /\ procs w' = procs w \/
     exists c args line code out err,
       trigger_cmd cfg = Some c /\ c <> "" /\
       level_ge (evaluated_level ev) (level_threshold cfg) = true /\
       encode (trigger_line (target_name cfg) ev) = Ok line /\
       shlex_split c = Ok args /\
       os_spawn (fs w) (procs w) (trigger_action args line) = Ok (code, out, err, f) /\
       procs w' = procs w ++ [trigger_action args line]) /\
    fs w' = fs_write f (abspath (output cfg)) (String.append report (appendix ev)) /\
    In (fstr ["[+] Report written to "; path_str (output cfg)]) (stdout w').
Proof.
  intros Hmain. pose proof Hmain as H. unfold main in H.
  apply bind_inv in H as (ps & w1 & Hl & H).
  pose proof (load_prompts_world _ _ _ _ Hl) as ->.
  apply bind_inv in H as (sh & w2 & Hflow & _).
  fold (initial_shared ps) in Hflow.
  rewrite (main_after_flow cfg w ps _ _ Hl Hflow) in Hmain.
  pose proof (TriggerTool_calls cfg) as Hcalls.
  rewrite flow_run_stages in Hflow.
  apply bind_inv in Hflow as (sh4 & w4 & Hst & Htr).
  apply Hcalls in Htr as Hsame. unfold same in Hsame.
  pose proof (fs_stable_analysis_stages _ _ _ _ _ Hst) as Hfs4.
  pose proof (analysis_stages_procs _ _ _ _ _ Hst) as Hps4. unfold same in Hps4.
  destruct (analysis_stages_answers _ _ _ _ _ Hst) as (ds' & pd' & anns' & Hd & Ha & Hpd' & Hans).
  apply analysis_stages_inv in Hst
    as (ds & pd & anns & fp & report & ep & txt & ev & Hds & Hpd & Hfp & Hep & _ & Hrep & Htxt
        & Hev & -> & Hc).
  simpl in Hd, Ha, Hpd, Hfp, Hep, Hpd'. injection Hd as <-. injection Ha as <-.
  rewrite Hpd in Hpd'. injection Hpd' as <-.
  rewrite TriggerTool_run in Htr.
  destruct (TriggerTool_exec _ _ w4) as [[res|e] w5] eqn:Hx; [|discriminate Htr].
  injection Htr as <- <-.
  assert (Hact : fs w5 = fs w /\ procs w5 = procs w \/
            exists c args line code out err,
              trigger_cmd cfg = Some c /\ c <> "" /\
              level_ge (evaluated_level ev) (level_threshold cfg) = true /\
              encode (trigger_line (target_name cfg) ev) = Ok line /\
              shlex_split c = Ok args /\
              os_spawn (fs w) (procs w) (trigger_action args line)
                = Ok (code, out, err, fs w5) /\
              procs w5 = procs w ++ [trigger_action args line]).
  { apply TriggerTool_exec_outcome in Hx. unfold shared_evaluation in Hx. simpl in Hx.
    rewrite Hfs4, Hps4 in Hx.
    destruct Hx as [Hx|(c & args & line & code & out & err & H1 & H2 & H3 & H4 & H5 & H6
                         & H7 & _)].
    - left. exact Hx.
    - right. exists c, args, line, code, out, err. repeat split; assumption. }
  unfold shared_final, shared_evaluation in Hmain. simpl in Hmain.
  apply bind_inv in Hmain as (rep & w6 & Hr & Hmain). apply ret_inv in Hr as [<- <-].
  apply bind_inv in Hmain as (u & w7 & Hw & Hmain).
  unfold write_text in Hw.
  destruct (fs_is_dir _ (abspath (output cfg))); [discriminate Hw|].
  destruct (fs_is_dir _ (removelast (abspath (output cfg)))); [|discriminate Hw].
  injection Hw as _ <-.
  exists ps, pd, fp, ep, ds, anns, report, txt, ev, (fs w5).
  split; [exact Hl|]. split; [exact Hpd|]. split; [exact Hfp|]. split; [exact Hep|].
  split; [exact Hds|]. cbv zeta.
  split.
  { apply answered_app; [exact Hans|]. simpl. split; [exact Hrep|]. split; [|exact I].
    exact Htxt. }
  assert (Hcalls' : llm_calls w5 = llm_calls w ++
            map (fun d => stage_messages pd (markdown d)) ds ++
            [stage_messages fp (String.concat SEPARATOR (map analysis anns));
             stage_messages ep report]).
  { rewrite Hsame, Hc. cbv zeta. rewrite <- app_assoc. reflexivity. }
  unfold bind, print, print_if, ret in Hmain.
  destruct (verbose cfg); injection Hmain as <-; simpl;
    (split; [exact Hcalls'|]); (split; [exact Hev|]); (split; [exact Hact|]);
    (split; [reflexivity|]); apply in_or_app.
  - left. apply in_or_app. right. left. reflexivity.
  - right. left. reflexivity.
Qed.

(** ** A trigger action that fails *)

(** X6.  When the analysis is complete and the level reached the
    threshold, but the action cannot be started (the line cannot be
    encoded, [shlex.split] refuses the command line, or the process
    cannot be created), the exception leaves [main]: the synthesized
    report exists in [shared] and is not written, no file has changed
    and no process has run. *)
Theorem trigger_error_loses_report cfg w ps sh4 w4 c e :
  load_prompts PROMPTS_YAML w = (Ok ps, w) ->
  analysis_stages cfg (initial_shared ps) w = (Ok sh4, w4) ->
  trigger_cmd cfg = Some c -> c <> "" ->
  level_ge (evaluated_level (shared_evaluation sh4)) (level_threshold cfg) = true ->
  (encode (trigger_line (target_name cfg) (shared_evaluation sh4)) = Raise e \/
   exists line,
     encode (trigger_line (target_name cfg) (shared_evaluation sh4)) = Ok line /\
     (shlex_split c = Raise e \/
      exists args,
        shlex_split c = Ok args /\
        os_spawn (fs w4) (procs w4) (trigger_action args line) = Raise e)) ->
  exists report w',
    final sh4 = Some report /\
    main cfg w = (Raise e, w') /\
    fs w' = fs w /\ procs w' = procs w.
Proof.
  intros Hl Hst Hc Hcne Hge Hfail.
  assert (Hflow : flow_run cfg (initial_shared ps) w = (Raise e, w4)).
  { rewrite flow_run_stages, (bind_ok _ _ _ _ _ Hst), TriggerTool_run, Hc.
    rewrite (exec_reached cfg c _ _ _ w4 Hcne Hge).
    destruct Hfail as [He|(line & Hline & [Hs|(args & Hs & Hrun)])].
    - rewrite He. reflexivity.
    - rewrite Hline, Hs. reflexivity.
    - rewrite Hline, Hs, Hrun. reflexivity. }
  pose proof (fs_stable_analysis_stages _ _ _ _ _ Hst) as Hfs.
  pose proof (analysis_stages_procs _ _ _ _ _ Hst) as Hps.
  apply analysis_stages_inv in Hst
    as (ds & pd & anns & fp & report & ep & txt & ev & _ & _ & _ & _ & _ & _ & _ & _ & -> & _).
  exists report, w4. split; [reflexivity|].
  split; [exact (main_after_flow cfg w ps _ _ Hl Hflow)|].
  split; [exact Hfs | exact Hps].
Qed.


(** ** The number of model calls *)

(** At most [k] model calls were added. *)
Definition calls_within (k : nat) (w w' : world) : Prop :=
  exists l, llm_calls w' = llm_calls w ++ l /\ List.length l <= k.

Lemma calls_within_same {A} (m : M A) :
  respects (same llm_calls) m -> respects (calls_within 0) m.
Proof.
  intros Hm w r w' H. exists []. rewrite app_nil_r.
  split; [exact (Hm _ _ _ H) | reflexivity].
Qed.

Lemma calls_within_bind {A B} (m : M A) (k : A -> M B) (a b : nat) :
  respects (calls_within a) m -> (forall x, respects (calls_within b) (k x)) ->
  respects (calls_within (a + b)) (bind m k).
Proof.
  intros Hm Hk w r w' H.
  apply bind_cases in H as [(x & w1 & H1 & H2)|(e & H1 & _)].
  - destruct (Hm _ _ _ H1) as (l1 & Hl1 & Hlen1).
    destruct (Hk x _ _ _ H2) as (l2 & Hl2 & Hlen2).
    exists (l1 ++ l2). rewrite Hl2, Hl1, app_assoc, length_app.
    split; [reflexivity | lia].
  - destruct (Hm _ _ _ H1) as (l1 & Hl1 & Hlen1).
    exists l1. split; [exact Hl1 | lia].
Qed.

Lemma calls_within_ret {A} (a : A) : respects (calls_within 0) (@ret world A a).
Proof. apply calls_within_same. apply respects_ret. apply same_refl. Qed.

Lemma calls_within_call_llm cfg msg : respects (calls_within 1) (call_llm cfg msg).
Proof.
  intros w r w' [= _ <-]. exists [msg]. split; [reflexivity | simpl; lia].
Qed.

Lemma calls_within_for_each {A B} (f : A -> M B) (l : list A) :
  (forall x, respects (calls_within 1) (f x)) ->
  respects (calls_within (List.length l)) (for_each f l).
Proof.
  intros Hf. induction l as [|x r IH]; simpl.
  - apply calls_within_ret.
  - apply (calls_within_bind _ _ 1 (List.length r)); [apply Hf|]. intros y.
    replace (List.length r) with (List.length r + 0) by lia.
    apply calls_within_bind; [exact IH|]. intros ys. apply calls_within_ret.
Qed.

(** The per-document stage makes at most one call per document. *)
Lemma AnalyzeEachDoc_calls cfg sh ds :
  docs sh = Some ds ->
  respects (calls_within (List.length ds)) (AnalyzeEachDoc cfg sh).
Proof.
  intros Hds w r w' H. unfold AnalyzeEachDoc, node_run in H.
  apply bind_cases in H as [([ds' pd] & w1 & Hprep & H)|(e & Hprep & _)].
  - unfold AnalyzeEachDoc_prep, shared_docs, shared_prompt, bind, ret, raise in Hprep.
    rewrite Hds in Hprep.
    destruct (assoc_get (prompts sh) "per_doc"); [|discriminate Hprep].
    injection Hprep as <- <- <-.
    replace (List.length ds) with (List.length ds + 0) by lia.
    revert H. apply calls_within_bind; [|intros e; apply calls_within_ret].
    apply calls_within_for_each. intros d.
    replace 1 with (1 + 0) by lia.
    apply calls_within_bind; [apply calls_within_call_llm | intros a; apply calls_within_ret].
  - exists []. rewrite app_nil_r. split; [|simpl; lia].
    revert Hprep. unfold AnalyzeEachDoc_prep, shared_docs.
    match goal with
    | |- ?m w = _ -> _ =>
        enough (Hq : respects (same llm_calls) m) by (exact (Hq w (Raise e) w'))
    end.
    stage_frame.
Qed.

Lemma FinalReport_calls cfg sh : respects (calls_within 1) (FinalReport cfg sh).
Proof.
  unfold FinalReport, node_run.
  change 1 with (0 + (1 + 0)). apply calls_within_bind.
  - apply calls_within_same. unfold FinalReport_prep, shared_doc_analyses. stage_frame.
  - intros [anns fp]. apply calls_within_bind; [|intros e; apply calls_within_ret].
    apply calls_within_call_llm.
Qed.

Lemma EvaluateFinal_calls cfg sh : respects (calls_within 1) (EvaluateFinal cfg sh).
Proof.
  unfold EvaluateFinal, node_run.
  change 1 with (0 + ((1 + 0) + 0)). apply calls_within_bind.
  - apply calls_within_same. unfold EvaluateFinal_prep, shared_final. stage_frame.
  - intros [report ep]. apply calls_within_bind; [|intros e; apply calls_within_ret].
    unfold EvaluateFinal_exec, call_llm_json.
    apply calls_within_bind; [apply calls_within_call_llm|].
    intros txt. apply calls_within_same. apply respects_lift. apply same_refl.
Qed.

(** X8.  A run of the flow over a directory with [n] documents makes at
    most [n + 2] model calls, however it ends, and exactly [n + 2] when
    it ends normally: one per document, one for the synthesis and one
    for the evaluation, none of them repeated.  With no document at all
    the synthesis and the evaluation are still requested. *)
Theorem flow_run_call_budget cfg sh w r w' :
  flow_run cfg sh w = (r, w') ->
  let n := List.length (md_names (fs w) (input cfg)) in
  (exists l, llm_calls w' = llm_calls w ++ l /\ List.length l <= n + 2) /\
  (forall sh', r = Ok sh' ->
     List.length (llm_calls w') = List.length (llm_calls w) + n + 2).
Proof.
  intros H n. split.
  - unfold flow_run in H.
    apply bind_cases in H as [(sh1 & w1 & H1 & H)|(e & H1 & _)].
    + apply LoadMarkdown_inv in H1 as (ds & -> & Hds & Hc).
      assert (Hn : List.length ds = n).
      { apply Forall2_length in Hds. rewrite length_map in Hds. symmetry. exact Hds. }
      assert (Hrest : calls_within (List.length ds + (1 + (1 + 0))) w1 w').
      { revert H. apply calls_within_bind; [apply AnalyzeEachDoc_calls; reflexivity|].
        intros sh2. apply calls_within_bind; [apply FinalReport_calls|].
        intros sh3. apply calls_within_bind; [apply EvaluateFinal_calls|].
        intros sh4. apply calls_within_same. apply TriggerTool_calls. }
      destruct Hrest as (l & Hl & Hlen). exists l. rewrite Hl, Hc.
      split; [reflexivity | lia].
    + exists []. rewrite app_nil_r. split; [|simpl; lia].
      exact (LoadMarkdown_quiet llm_calls cfg sh (fun _ _ => eq_refl) _ _ _ H1).
  - intros sh' ->. rewrite flow_run_stages in H.
    apply bind_inv in H as (sh4 & w4 & Hst & Htr).
    apply TriggerTool_calls in Htr. unfold same in Htr. rewrite Htr.
    apply analysis_stages_inv in Hst
      as (ds & pd & anns & fp & report & ep & txt & ev & Hds & _ & _ & _ & _ & _ & _ & _
          & _ & Hc).
    apply Forall2_length in Hds. rewrite length_map in Hds.
    rewrite Hc. cbv zeta. rewrite !length_app, length_map. simpl. fold n. lia.
Qed.

(** ** The processes of a run *)







End Pipeline.

(** ** A small runtime on which the pipeline can be evaluated *)

Lemma ascii_upper_char_idem (c : ascii) :
  ascii_upper_char (ascii_upper_char c) = ascii_upper_char c.
Proof. destruct c as [[] [] [] [] [] [] [] []]; reflexivity. Qed.

Lemma ascii_upper_idem (s : string) : ascii_upper (ascii_upper s) = ascii_upper s.
Proof.
  induction s as [|c s IH]; simpl; [reflexivity|].
  rewrite ascii_upper_char_idem, IH. reflexivity.
Qed.

Lemma ascii_upper_token (s : severity) : ascii_upper (token s) = token s.
Proof. destruct s; reflexivity. Qed.

Definition demo_prompts : prompts_t :=
  [ ("per_doc", [("system", "DOC"); ("user", "Analyze:")]);
    ("final_synthesis", [("system", "SYNTH"); ("user", "Combine:")]);
    ("evaluation", [("system", "EVAL"); ("user", "Rate:")]) ].

(** The evaluation the demo backend returns: level HIGH, score 8. *)
Definition demo_eval_text : string :=
  Eval vm_compute in
    fstr ["{"; JsonRef.dumps_str "level"; ": "; JsonRef.dumps_str "HIGH"; ", ";
          JsonRef.dumps_str "security_score"; ": 8, ";
          JsonRef.dumps_str "summary"; ": "; JsonRef.dumps_str "patched check"; "}"].

Definition demo_eval : dict :=
  [("level", JStr "HIGH"); ("security_score", JInt 8); ("summary", JStr "patched check")].

Definition demo_backend (backend : string) (model : option string)
  (hist : list (list message)) (msg : list message) : result string :=
  match msg with
  | sys :: usr :: _ =>
      if String.eqb (content sys) "EVAL" then Ok demo_eval_text
      else Ok (fstr ["<"; content usr; ">"])
  | _ => Raise (BackendError "no messages")
  end.

(** Encoding and decoding of ASCII text, which is its own UTF-8 form;
    bytes above 127 are refused here. *)
Definition demo_encode (s : string) : result string := Ok s.

Definition demo_decode (b : string) : result string :=
  if forallb (fun c => nat_of_ascii c <? 128) (list_ascii_of_string b)
  then Ok b
  else Raise (UnicodeError "invalid start byte").

Definition demo_rt : runtime :=
  {| py_upper := ascii_upper;
     py_json_loads := JsonRef.loads;
     py_repr := fun _ => "?";
     py_shlex_split :=
       fun c => Ok (filter (fun x => negb (String.eqb x "")) (split_on " "%char c));
     py_encode := demo_encode;
     py_decode := demo_decode;
     os_run := fun f _ _ => Ok (0%Z, "", "", f);
     llm_request := demo_backend;
     html2md := fun html => html;
     yaml_load_prompts := fun _ => Ok (Some demo_prompts);
     os_cwd := ["/"; "app"] |}.

Definition demo_fs : filesystem :=
  [ (["/"; "app"], Dir);
    (["/"; "app"; "utils"], Dir);
    (["/"; "app"; "utils"; "prompts.yaml"], File "prompts: ...");
    (["/"; "arch"], Dir);
    (["/"; "arch"; "sxs_html"], Dir);
    (["/"; "arch"; "sxs_html"; "b.md"], File "second");
    (["/"; "arch"; "sxs_html"; "notes.txt"], File "ignored");
    (["/"; "arch"; "sxs_html"; "a.md"], File "first") ].

Definition demo_world : world :=
  {| fs := demo_fs; stdout := []; llm_calls := []; procs := [] |}.

Definition demo_cfg : config :=
  {| input := ["/"; "arch"; "sxs_html"];
     output := ["/"; "arch"; "analysis.md"];
     verbose := false;
     trigger_cmd := Some "notify --now";
     level_threshold := "HIGH";
     target_name := "mrxsmb";
     llm_backend := "ollama";
     llm_model := None |}.

Definition demo_shared : shared :=
  {| prompts := demo_prompts; docs := None; doc_analyses := None;
     final := None; evaluation := None; trigger_result := None |}.

(** A backend that answers [quota] calls and refuses the next ones. *)
Definition quota_backend (quota : nat) (backend : string) (model : option string)
  (hist : list (list message)) (msg : list message) : result string :=
  if List.length hist <? quota then demo_backend backend model hist msg
  else Raise (BackendError "quota exceeded").

(** The demo runtime with another backend, another [shlex.split] and
    another way for the action to end. *)
Definition demo_rt_with
  (backend : string -> option string -> list (list message) -> list message
             -> result string)
  (split : string -> result (list string))
  (run : filesystem -> list process -> process
         -> result (Z * string * string * filesystem)) : runtime :=
  {| py_upper := ascii_upper;
     py_json_loads := JsonRef.loads;
     py_repr := fun _ => "?";
     py_shlex_split := split;
     py_encode := demo_encode;
     py_decode := demo_decode;
     os_run := run;
     llm_request := backend;
     html2md := fun html => html;
     yaml_load_prompts := fun _ => Ok (Some demo_prompts);
     os_cwd := ["/"; "app"] |}.

Definition quota_rt (quota : nat) : runtime :=
  demo_rt_with (quota_backend quota) (py_shlex_split demo_rt) (os_run demo_rt).

(** [shlex.split] on a command line with an open quotation. *)
Definition unquoted_rt : runtime :=
  demo_rt_with demo_backend (fun _ => Raise (ValueError "No closing quotation"))
               (os_run demo_rt).



(** An action whose program does not exist. *)
Definition missing_rt : runtime :=
  demo_rt_with demo_backend (py_shlex_split demo_rt)
               (fun _ _ _ => Raise (FileNotFoundError "notify")).

(** A whole run: the report is written and the trigger is started once
    with the line [mrxsmb 8 HIGH]. *)
Example demo_main_run :
  let r := main demo_rt demo_cfg demo_world in
  fst r = Ok tt /\
  fs_is_file (fs (snd r)) ["/"; "arch"; "analysis.md"] = true /\
  procs (snd r) =
    [ {| argv := ["notify"; "--now"]; stdin := fstr ["mrxsmb 8 HIGH"; nl] |} ] /\
  List.length (llm_calls (snd r)) = 4.
Proof. vm_compute. repeat split. Qed.

(** C5, as first stated, at the token [low]: it is not one of the five
    members of the scale, and [level_ge] holds for it. *)
Lemma level_ge_lower_case_token :
  ~ In "low" LEVELS /\ level_ge demo_rt "low" "NONE" = true.
Proof.
  split; [|reflexivity].
  simpl. intros [H|[H|[H|[H|[H|[]]]]]]; discriminate H.
Qed.

(** C5 (amended) at HIGH and LOW with the ASCII [upper]. *)
Lemma level_ge_on_scale_witness :
  level_ge demo_rt "HIGH" "HIGH" = true /\
  (level_ge demo_rt "HIGH" "LOW" = true <-> sev_ge HIGH LOW) /\
  (forall t x : string, ~ In (ascii_upper t) LEVELS -> level_ge demo_rt t x = false).
Proof.
  exact (level_ge_on_scale demo_rt ascii_upper_token HIGH LOW).
Defined.

(** C10 at [high] against [Medium]. *)
Lemma level_ge_case_insensitive_witness :
  level_ge demo_rt "high" "Medium" = level_ge demo_rt "HIGH" "MEDIUM" /\
  (forall t : string, ascii_upper "high" = ascii_upper t ->
     level_ge demo_rt "high" "Medium" = level_ge demo_rt t "Medium" /\
     level_ge demo_rt "Medium" "high" = level_ge demo_rt "Medium" t).
Proof.
  exact (level_ge_case_insensitive demo_rt ascii_upper_idem "high" "Medium").
Defined.

(** C3, as first stated, at a missing level and the threshold NONE: the
    threshold is reached and the action is started. *)
Lemma missing_level_reaches_NONE :
  dict_lookup [] "level" = None /\
  level_ge demo_rt (evaluated_level demo_rt []) (token NONE) = true /\
  procs (snd (TriggerTool_exec demo_rt demo_cfg
                (Some "notify", token NONE, "mrxsmb", []) demo_world)) =
    [ {| argv := ["notify"]; stdin := fstr ["mrxsmb N/A NONE"; nl] |} ].
Proof. repeat split. Qed.

(** C3 (amended) at the threshold HIGH: an unrecognized level and a
    missing level. *)
Lemma trigger_gate_unrecognized_or_missing_witness :
  (level_ge demo_rt (evaluated_level demo_rt [("level", JStr "severe")]) "HIGH" = false /\
   fst (TriggerTool_exec demo_rt demo_cfg
          (Some "notify", "HIGH", "mrxsmb", [("level", JStr "severe")]) demo_world)
     = Ok NotTriggered /\
   procs (snd (TriggerTool_exec demo_rt demo_cfg
          (Some "notify", "HIGH", "mrxsmb", [("level", JStr "severe")]) demo_world))
     = []) /\
  (fst (TriggerTool_exec demo_rt demo_cfg (Some "notify", "HIGH", "mrxsmb", []) demo_world)
     = Ok NotTriggered /\
   procs (snd (TriggerTool_exec demo_rt demo_cfg
                 (Some "notify", "HIGH", "mrxsmb", []) demo_world)) = []).
Proof.
  split.
  - apply (trigger_gate_unrecognized_or_missing demo_rt ascii_upper_token demo_cfg
             (Some "notify") HIGH "mrxsmb" [("level", JStr "severe")] demo_world).
    simpl. intros [H|[H|[H|[H|[H|[]]]]]]; discriminate H.
  - apply (trigger_gate_unrecognized_or_missing demo_rt ascii_upper_token demo_cfg
             (Some "notify") HIGH "mrxsmb" [] demo_world);
      [reflexivity | discriminate].
Defined.

(** C4, as first stated, at a command line with an open quotation: an
    action is configured and the evaluated level HIGH is at the threshold
    HIGH, yet the gate starts nothing and raises [ValueError]. *)
Lemma trigger_gate_unsplit_command :
  truthy (Some "notify 'now") = true /\
  threshold_reached unquoted_rt demo_eval "HIGH" /\
  TriggerTool_exec unquoted_rt demo_cfg
    (Some "notify 'now", "HIGH", "mrxsmb", demo_eval) demo_world =
    (Raise (ValueError "No closing quotation"), demo_world) /\
  procs (snd (TriggerTool_exec unquoted_rt demo_cfg
                (Some "notify 'now", "HIGH", "mrxsmb", demo_eval) demo_world)) = [].
Proof.
  split; [reflexivity|]. split; [|split; reflexivity].
  exists HIGH, HIGH. repeat split. left. reflexivity.
Qed.

(** C4 (amended) at the evaluation HIGH against the threshold HIGH: the
    action is started once, with the line [mrxsmb 8 HIGH]; against the
    threshold CRITICAL it is not; and with a program that does not exist
    the gate raises and nothing has run. *)
Lemma trigger_gate_fires_iff_witness :
  procs (snd (TriggerTool_exec demo_rt demo_cfg
                (Some "notify --now", "HIGH", "mrxsmb", demo_eval) demo_world)) =
    [ {| argv := ["notify"; "--now"]; stdin := fstr ["mrxsmb 8 HIGH"; nl] |} ] /\
  (fst (TriggerTool_exec demo_rt demo_cfg
          (Some "notify --now", "CRITICAL", "mrxsmb", demo_eval) demo_world)
     = Ok NotTriggered /\
   procs (snd (TriggerTool_exec demo_rt demo_cfg
          (Some "notify --now", "CRITICAL", "mrxsmb", demo_eval) demo_world)) = []) /\
  (fst (TriggerTool_exec demo_rt demo_cfg (None, "HIGH", "mrxsmb", demo_eval) demo_world)
     = Ok NotTriggered /\
   procs (snd (TriggerTool_exec demo_rt demo_cfg
                 (None, "HIGH", "mrxsmb", demo_eval) demo_world)) = []) /\
  TriggerTool_exec missing_rt demo_cfg
    (Some "notify --now", "HIGH", "mrxsmb", demo_eval) demo_world =
    (Raise (FileNotFoundError "notify"), demo_world).
Proof.
  split; [|split; [|split]].
  - apply (proj1 (proj2 (trigger_gate_fires_iff demo_rt demo_cfg (Some "notify --now")
                           "HIGH" "mrxsmb" demo_eval demo_world))
             "notify --now" ["notify"; "--now"] (fstr ["mrxsmb 8 HIGH"; nl])
             (0%Z, "", "", demo_fs) eq_refl);
      [discriminate | reflexivity | reflexivity | reflexivity |].
    exists HIGH, HIGH. repeat split. left. reflexivity.
  - apply (proj1 (proj2 (trigger_gate_fires_iff demo_rt demo_cfg (Some "notify --now")
                           "CRITICAL" "mrxsmb" demo_eval demo_world))
             "notify --now" ["notify"; "--now"] (fstr ["mrxsmb 8 HIGH"; nl])
             (0%Z, "", "", demo_fs) eq_refl);
      [discriminate | reflexivity | reflexivity | reflexivity |].
    intros (sl & st & Hl & Ht & Hge).
    change (token HIGH = token sl) in Hl. change (token CRITICAL = token st) in Ht.
    apply token_inj in Hl, Ht. subst sl st.
    apply sev_ge_rank in Hge. simpl in Hge. lia.
  - apply (proj1 (trigger_gate_fires_iff demo_rt demo_cfg None
                    "HIGH" "mrxsmb" demo_eval demo_world)).
    reflexivity.
  - apply (proj2 (proj2 (trigger_gate_fires_iff missing_rt demo_cfg (Some "notify --now")
                           "HIGH" "mrxsmb" demo_eval demo_world))
             "notify --now" (FileNotFoundError "notify") eq_refl);
      [discriminate | exists HIGH, HIGH; repeat split; left; reflexivity |].
    right. exists (fstr ["mrxsmb 8 HIGH"; nl]). split; [reflexivity|].
    right. exists ["notify"; "--now"]. split; reflexivity.
Defined.

(** C6 on a directory that lists [b.md] before [a.md]. *)
Lemma pipeline_order_witness :
  md_names demo_rt demo_fs (input demo_cfg) = ["a.md"; "b.md"] /\
  StronglySorted (fun a b => String.leb a b = true)
    (md_names demo_rt demo_fs (input demo_cfg)) /\
  exists sh1 w1 sh2 w2,
    LoadMarkdown demo_rt demo_cfg demo_shared demo_world = (Ok sh1, w1) /\
    AnalyzeEachDoc demo_rt demo_cfg sh1 w1 = (Ok sh2, w2) /\
    option_map (map doc_path) (docs sh1) =
      Some ["/arch/sxs_html/a.md"; "/arch/sxs_html/b.md"] /\
    option_map (map analysis) (doc_analyses sh2) =
      Some [fstr ["<Analyze:"; nl; nl; "first>"]; fstr ["<Analyze:"; nl; nl; "second>"]] /\
    exists ds anns,
      docs sh1 = Some ds /\ doc_analyses sh2 = Some anns /\
      map a_path anns = map doc_path ds /\
      llm_calls (snd (FinalReport demo_rt demo_cfg sh2 w2)) =
        llm_calls w2 ++
        [ [ {| role := "system"; content := "SYNTH" |};
            {| role := "user";
               content := fstr ["Combine:"; nl; nl;
                                String.concat SEPARATOR (map analysis anns)] |} ] ].
Proof.
  split; [reflexivity|].
  split; [exact (proj1 (proj2 (proj1
            (pipeline_order demo_rt demo_cfg demo_shared demo_world))))|].
  eexists _, _, _, _.
  split; [vm_compute; reflexivity|].
  split; [vm_compute; reflexivity|].
  split; [reflexivity|]. split; [reflexivity|].
  destruct (proj2 (pipeline_order demo_rt demo_cfg demo_shared demo_world)
              _ _ _ _ eq_refl eq_refl)
    as (ds & anns & pd & Hd & _ & Ha & Hm & _ & _ & _ & Hfinal).
  exists ds, anns. repeat split; try assumption.
  apply (Hfinal [("system", "SYNTH"); ("user", "Combine:")]). reflexivity.
Defined.

(** ** Runs with a failing backend and a failing action *)

Definition demo_docs : list doc :=
  [ {| doc_path := "a.md"; markdown := "first" |};
    {| doc_path := "b.md"; markdown := "second" |};
    {| doc_path := "c.md"; markdown := "third" |} ].

(** X3 on three documents with a backend that answers one call: the
    second call fails and the third document is never sent. *)
Lemma analyze_each_doc_fail_fast_witness :
  exists w',
    AnalyzeEachDoc_exec (quota_rt 1) demo_cfg (demo_docs, [("user", "Analyze:")])
      demo_world = (Raise (BackendError "quota exceeded"), w') /\
    llm_calls w' =
      [ stage_messages [("user", "Analyze:")] "first";
        stage_messages [("user", "Analyze:")] "second" ] /\
    fs w' = fs demo_world /\ procs w' = procs demo_world /\ stdout w' = stdout demo_world.
Proof.
  eapply (analyze_each_doc_fail_fast (quota_rt 1) demo_cfg [("user", "Analyze:")]
            [ {| doc_path := "a.md"; markdown := "first" |} ]
            {| doc_path := "b.md"; markdown := "second" |}
            [ {| doc_path := "c.md"; markdown := "third" |} ] demo_world);
    vm_compute; reflexivity.
Defined.

(** X4 on the demo run, which starts the action. *)
Lemma trigger_only_after_evaluation_witness :
  exists sh4 w4 ev c args line,
    analysis_stages demo_rt demo_cfg demo_shared demo_world = (Ok sh4, w4) /\
    evaluation sh4 = Some ev /\
    trigger_cmd demo_cfg = Some c /\ c <> "" /\
    level_ge demo_rt (evaluated_level demo_rt ev) (level_threshold demo_cfg) = true /\
    py_encode demo_rt (trigger_line demo_rt (target_name demo_cfg) ev) = Ok line /\
    py_shlex_split demo_rt c = Ok args /\
    procs (snd (flow_run demo_rt demo_cfg demo_shared demo_world)) =
      procs demo_world ++ [trigger_action args line].
Proof.
  apply (trigger_only_after_evaluation demo_rt demo_cfg demo_shared demo_world
           (fst (flow_run demo_rt demo_cfg demo_shared demo_world))
           (snd (flow_run demo_rt demo_cfg demo_shared demo_world))
           (surjective_pairing _)).
  vm_compute. discriminate.
Defined.

(** The world after the demo run of [main]. *)
Definition demo_done : world := Eval vm_compute in snd (main demo_rt demo_cfg demo_world).

(** X5 on the demo run: four calls, and the report is the answer to the
    third. *)
Lemma main_writes_report_witness :
  main demo_rt demo_cfg demo_world = (Ok tt, demo_done) /\
  List.length (llm_calls demo_done) = 4 /\
  exists ps pd fp ep ds anns report txt ev f,
    load_prompts demo_rt PROMPTS_YAML demo_world = (Ok ps, demo_world) /\
    assoc_get ps "per_doc" = Some pd /\
    assoc_get ps "final_synthesis" = Some fp /\
    assoc_get ps "evaluation" = Some ep /\
    Forall2 (loaded_from demo_rt (fs demo_world))
      (map (fun n => input demo_cfg ++ [n])
           (md_names demo_rt (fs demo_world) (input demo_cfg))) ds /\
    let calls :=
      map (fun d => stage_messages pd (markdown d)) ds ++
      [ stage_messages fp (String.concat SEPARATOR (map analysis anns));
        stage_messages ep report ] in
    answered demo_rt demo_cfg (llm_calls demo_world) calls
      (map analysis anns ++ [report; txt]) /\
    llm_calls demo_done = llm_calls demo_world ++ calls /\
    LlmClient._robust_json JsonRef.loads txt = Ok ev /\
    (f = fs demo_world /\ procs demo_done = procs demo_world \/
     exists c args line code out err,
       trigger_cmd demo_cfg = Some c /\ c <> "" /\
       level_ge demo_rt (evaluated_level demo_rt ev) (level_threshold demo_cfg) = true /\
       py_encode demo_rt (trigger_line demo_rt (target_name demo_cfg) ev) = Ok line /\
       py_shlex_split demo_rt c = Ok args /\
       os_run demo_rt (fs demo_world) (procs demo_world) (trigger_action args line)
         = Ok (code, out, err, f) /\
       procs demo_done = procs demo_world ++ [trigger_action args line]) /\
    fs demo_done =
      fs_write f ["/"; "arch"; "analysis.md"] (String.append report (appendix demo_rt ev)) /\
    In "[+] Report written to /arch/analysis.md" (stdout demo_done).
Proof.
  assert (H : main demo_rt demo_cfg demo_world = (Ok tt, demo_done))
    by (vm_compute; reflexivity).
  split; [exact H|]. split; [reflexivity|].
  exact (main_writes_report demo_rt demo_cfg demo_world demo_done H).
Defined.

(** X6 on the demo run with a command line that [shlex.split] refuses:
    [main] ends with the [ValueError] and there is no report. *)
Lemma trigger_error_loses_report_witness :
  exists report w',
    final (match fst (analysis_stages unquoted_rt demo_cfg demo_shared demo_world) with
           | Ok sh4 => sh4
           | Raise _ => demo_shared
           end) = Some report /\
    main unquoted_rt demo_cfg demo_world =
      (Raise (ValueError "No closing quotation"), w') /\
    fs w' = demo_fs /\ procs w' = [].
Proof.
  eapply (trigger_error_loses_report unquoted_rt demo_cfg demo_world demo_prompts _
            (snd (analysis_stages unquoted_rt demo_cfg demo_shared demo_world))
            "notify --now").
  - reflexivity.
  - vm_compute. reflexivity.
  - reflexivity.
  - discriminate.
  - reflexivity.
  - right. exists (fstr ["mrxsmb 8 HIGH"; nl]). split; [reflexivity|]. left. reflexivity.
Defined.



(** X8 on the demo directory, which holds two documents: four calls. *)
Lemma flow_run_call_budget_witness :
  (exists l,
     llm_calls (snd (flow_run demo_rt demo_cfg demo_shared demo_world)) =
       llm_calls demo_world ++ l /\ List.length l <= 2 + 2) /\
  (forall sh', fst (flow_run demo_rt demo_cfg demo_shared demo_world) = Ok sh' ->
     List.length (llm_calls (snd (flow_run demo_rt demo_cfg demo_shared demo_world))) =
       List.length (llm_calls demo_world) + 2 + 2).
Proof.
  exact (flow_run_call_budget demo_rt demo_cfg demo_shared demo_world
           (fst (flow_run demo_rt demo_cfg demo_shared demo_world))
           (snd (flow_run demo_rt demo_cfg demo_shared demo_world))
           (surjective_pairing _)).
Defined.

End LlmAnalyze.

(* ===================================================================== *)
(** * diffalayze.py                                                       *)
(* ===================================================================== *)

Module Diffalayze.

Definition SCRIPT_NAME : string := "fetch_target.py".

(** [p / s] for a string [s] *)
Definition child (p : path) (s : string) : path := joinpath p (Path s).
Infix "//" := child (at level 40, left associativity) : py_scope.

(** The module globals that the command line sets. *)
Record settings : Type := {
  VERBOSE : bool;
  LLM_VERBOSE : bool;
  ANALYZE : bool;
  ANALYZE_SLEEP : Z;
  LLM_TRIGGER_CMD : option string;
  LLM_LEVEL_THRESHOLD : string;
  LLM_BACKEND : string;
  LLM_MODEL : option string
}.

(** A Python object as [load_and_run] looks at it: a string, or another
    object with its truth value, what [Path(...)] makes of it (a path,
    or the [TypeError] it raises for an object that is neither a string
    nor path-like) and its [repr].  (An object whose truth test or whose
    [repr] raises has no counterpart here.) *)
Inductive pyobj : Type :=
| PStr (s : string)
| PObj (truth : bool) (as_path : result path) (repr : string).

(** What [check_and_download()] returned: a tuple of two objects,
    [False], or anything else (kept as the text [str] gives). *)
Inductive fetch_res : Type :=
| ResTuple (a b : pyobj)
| ResFalse
| ResOther (text : string).

(** A tuple of two strings. *)
Definition ResPair (old new : string) : fetch_res := ResTuple (PStr old) (PStr new).

(** [bool(x)] *)
Definition truth_of (x : pyobj) : bool :=
  match x with
  | PStr s => negb (String.eqb s "")
  | PObj truth _ _ => truth
  end.

(** [Path(x)] *)
Definition to_path (x : pyobj) : result path :=
  match x with
  | PStr s => Ok (Path s)
  | PObj _ as_path _ => as_path
  end.

(** Characters that [repr] of a string shows as they are, between single
    quotes: printable ASCII other than the single quote and the
    backslash. *)
Definition plain_char (c : ascii) : bool :=
  let n := nat_of_ascii c in
  (32 <=? n) && (n <=? 126) && negb (n =? 39) && negb (n =? 92).

Definition plain (s : string) : bool := forallb plain_char (list_ascii_of_string s).

(** What the child process of an analysis comes to before [main] runs:
    it ends with a status (the interpreter cannot open the script, or
    the argument parser refuses the command line and exits with 2), or
    [main] runs with a configuration. *)
Inductive launch : Type :=
| Exits (code : Z)
| Runs (c : LlmAnalyze.config).

(** What the orchestrator takes from its platform. *)
Record platform : Type := {
  (** the runtime of the [llmanalyze.py] child process *)
  rt : LlmAnalyze.runtime;
  (** [(APP_ROOT / "targets").resolve()] and [LLM_SCRIPT] *)
  TARGETS_DIR : path;
  LLM_SCRIPT : path;
  (** [os.getuid()], [os.getgid()] *)
  UID : Z;
  GID : Z;
  (** [Path.resolve]: an absolute path without symbolic links *)
  os_resolve : filesystem -> path -> path;
  (** [spec.loader.exec_module(mod)] for the script at a path: running
      the script, and the [check_and_download] it defines, if any *)
  os_exec_module : path -> M (option (M fetch_res));
  (** [repr] of a string that is not [plain] *)
  py_repr_str : string -> string;
  (** starting [python3 llmanalyze.py ...] with a command line on a file
      system, up to the call of [main]; [Raise] when the process cannot
      be created.  (What the interpreter itself writes while it starts,
      such as byte-code caches, is no part of the file system here.) *)
  os_launch : filesystem -> list string -> result launch;
  (** the diffing engine, run to its end on a file system: exit code and
      error stream, and the files as it leaves them; [Raise] when the
      process cannot be started *)
  os_docker : filesystem -> list process -> list string -> result (Z * string) * filesystem;
  (** [datetime.now().strftime("%Y-%m-%d_%H%M%S")] *)
  os_now : world -> string
}.

(** Where a worker thread stands: started but not yet past the
    semaphore, inside [run_ghidriff_diff], or ended. *)
Inductive pc : Type := Waiting | Running | Finished.

(** One entry of [ghidriff_threads]: the name and the thread with its
    arguments. *)
Record thread : Type := {
  th_name : string;
  th_dir : path;
  th_old : path;
  th_new : path;
  th_pc : pc
}.

(** The orchestrator process: the world, the fetch scripts executed so
    far, the permits left in [_ghidriff_sema] ([None]: no semaphore),
    [ghidriff_threads] and [analyze_queue]. *)
Record state : Type := {
  os : world;
  loaded : list path;
  sema : option nat;
  ghidriff_threads : list thread;
  analyze_queue : list (string * path)
}.

Definition D : Type -> Type := ST state.

Definition with_os (w : world) (st : state) : state :=
  {| os := w; loaded := loaded st; sema := sema st;
     ghidriff_threads := ghidriff_threads st;
     analyze_queue := analyze_queue st |}.

(** Code on the world, run inside the orchestrator. *)
Definition in_os {A} (m : M A) : D A :=
  fun st => let (r, w) := m (os st) in (r, with_os w st).

(** [log(msg)]: one line, through tqdm or print. *)
Definition log (msg : string) : D unit := in_os (print msg).

(** [_ghidriff_sema] as the main block sets it from [--ghidriff-threads]. *)
Definition init_sema (ghidriff_threads_arg : Z) : option nat :=
  let n := Z.max 0 ghidriff_threads_arg in
  if (n =? 0)%Z then None else Some (Z.to_nat n).

Section Orchestrator.

Variable pf : platform.
Variable cfg : settings.

Local Abbreviation cwd := (LlmAnalyze.os_cwd (rt pf)).

Definition abs (p : path) : path := joinpath cwd p.

Definition is_dir (p : path) : D bool :=
  fun st => (Ok (fs_is_dir (fs (os st)) (abs p)), st).
Definition is_file (p : path) : D bool :=
  fun st => (Ok (fs_is_file (fs (os st)) (abs p)), st).
Definition exists_ (p : path) : D bool :=
  fun st => (Ok (fs_exists (fs (os st)) (abs p)), st).

(** [p.unlink()]: only a file is removed. *)
Definition unlink (p : path) : D unit :=
  in_os (fun w =>
    if fs_is_file (fs w) (abs p)
    then (Ok tt, set_fs (fun f => fs_remove f (abs p)) w)
    else (Raise (if fs_is_dir (fs w) (abs p)
                 then OSError "Is a directory"
                 else FileNotFoundError (path_str p)), w)).

(** [d.mkdir(parents=True, exist_ok=True)]: no directory is made below
    a file or where a file is. *)
Definition mkdir (d : path) : D unit :=
  in_os (fun w =>
    if fs_file_above (fs w) (abs d) then (Raise (OSError "Not a directory"), w)
    else
      match fs_lookup (fs w) (abs d) with
      | Some (File _) => (Raise (OSError "File exists"), w)
      | _ => (Ok tt, set_fs (fun f => fs_makedirs f (abs d)) w)
      end).

(** Where [shutil.move(src, dst)] moves [src] to, or the error it
    raises, in the order of the code.  A directory [dst] that is [src]
    itself is left as it is.  Into a directory [dst] the source goes
    under its own name, which must be free there; else it goes to [dst]
    itself, where a file may be replaced.  Then [os.rename] is tried,
    and after its failure the copy: a source that is missing is not
    found; what is moved onto itself stays; a directory does not go into
    itself; nothing goes below a file; a directory does not replace a
    file (the [makedirs] of [copytree] finds it); and a file needs the
    directory it moves to. *)
Definition move_target (f : filesystem) (src dst : path) : result path :=
  if fs_is_dir f dst && path_eqb src dst then Ok dst
  else
    let real_dst := if fs_is_dir f dst then dst // name src else dst in
    if fs_is_dir f dst && fs_exists f real_dst
    then Raise (OSError "Destination path already exists")
    else if negb (fs_exists f src)
    then Raise (if fs_file_above f src
                then OSError "Not a directory"
                else FileNotFoundError (path_str src))
    else if path_eqb src real_dst then Ok real_dst
    else if fs_is_dir f src &&
            match strip_parts src real_dst with Some _ => true | None => false end
    then Raise (OSError "Cannot move a directory into itself")
    else if fs_file_above f real_dst
    then Raise (OSError "Not a directory")
    else if fs_is_dir f src && fs_is_file f real_dst
    then Raise (OSError "File exists")
    else if fs_is_file f src && negb (fs_is_dir f (removelast real_dst))
    then Raise (FileNotFoundError (path_str real_dst))
    else Ok real_dst.

(** [shutil.move(src, dst)]; what is moved onto itself stays as it is;
    the directories above the new place of a directory are made when
    they are missing (by the [copytree] that follows a failed
    [os.rename]). *)
Definition shutil_move (src dst : path) : D unit :=
  in_os (fun w =>
    match move_target (fs w) (abs src) (abs dst) with
    | Ok real_dst =>
        if path_eqb (abs src) real_dst then (Ok tt, w)
        else
          (Ok tt,
           set_fs (fun f => fs_rename (fs_remove (fs_makedirs f (removelast real_dst))
                                         real_dst)
                              (abs src) real_dst) w)
    | Raise e => (Raise e, w)
    end).

(** The path [t] of [resolve_target_dir]:
    [p.resolve() if p.is_absolute() else (base / p).resolve()]. *)
Definition resolved_target (name : string) (f : filesystem) : path :=
  let p := Path name in
  if is_absolute p
  then os_resolve pf f p
  else os_resolve pf f (joinpath (TARGETS_DIR pf) p).

(** [resolve_target_dir(name)]; [t.relative_to(base)] raises when the
    parts of [base] are not the first parts of [t]. *)
Definition resolve_target_dir (name : string) : D path :=
  fun st =>
    let base := TARGETS_DIR pf in
    let t := resolved_target name (fs (os st)) in
    match strip_parts base t with
    | None =>
        (Raise (ValueError (fstr ["Target '"; name; "' is outside "; path_str base])), st)
    | Some _ =>
        if negb (fs_is_dir (fs (os st)) t)
        then (Raise (FileNotFoundError
                       (fstr ["Target directory not found: "; path_str t])), st)
        else (Ok t, st)
    end.

(** [repr(x)] *)
Definition repr_of (x : pyobj) : string :=
  match x with
  | PStr s => if plain s then fstr ["'"; s; "'"] else py_repr_str pf s
  | PObj _ _ repr => repr
  end.

(** [spec.loader.exec_module(mod)]: the script runs, and is recorded. *)
Definition exec_module (script : path) : D (option (M fetch_res)) :=
  fun st =>
    let (r, w) := os_exec_module pf script (os st) in
    (r, {| os := w; loaded := loaded st ++ [script]; sema := sema st;
           ghidriff_threads := ghidriff_threads st;
           analyze_queue := analyze_queue st |}).

(** [th = threading.Thread(...); th.start(); ghidriff_threads.append(...)] *)
Definition start_thread (t_dir old_p new_p : path) : D unit :=
  fun st =>
    (Ok tt, {| os := os st; loaded := loaded st; sema := sema st;
               ghidriff_threads :=
                 ghidriff_threads st ++
                 [ {| th_name := name t_dir; th_dir := t_dir;
                      th_old := old_p; th_new := new_p; th_pc := Waiting |} ];
               analyze_queue := analyze_queue st |}).

(** [load_and_run(target_name, force)] *)
Definition load_and_run (target_name : string) (force : bool) : D unit :=
  t_dir <- resolve_target_dir target_name ;;
  log (fstr ["[*] Fetch script for "; name t_dir]) ;;;
  let script := t_dir // SCRIPT_NAME in
  let v_log := t_dir // "version.log" in
  has_log <- exists_ v_log ;;
  (if force && has_log then unlink v_log else ret tt) ;;;
  script_there <- is_file script ;;
  if negb script_there then
    log (fstr ["[!] "; SCRIPT_NAME; " not found in "; path_str t_dir])
  else
    module <- exec_module script ;;
    match module with
    | None => log "[!] Script lacks check_and_download()"
    | Some check_and_download =>
        res <- in_os check_and_download ;;
        match res with
        | ResTuple a b =>
            if truth_of a && truth_of b
            then
              old_p <- lift (to_path a) ;;
              new_p <- lift (to_path b) ;;
              start_thread t_dir old_p new_p
            else log (fstr ["[!] Unexpected result: ("; repr_of a; ", "; repr_of b; ")"])
        | ResFalse => log "[*] No update."
        | ResOther text => log (fstr ["[!] Unexpected result: "; text])
        end
    end.

Definition decimal (z : Z) : string := NilZero.string_of_int (Z.to_int z).

(** The command line of the diffing engine. *)
Definition docker_cmd (resolved_diff_dir old_tar new_tar : path) : list string :=
  [ "docker"; "run"; "--rm"; "-u"; fstr [decimal (UID pf); ":"; decimal (GID pf)];
    "-e"; "HOME=/tmp";
    "-e"; "PYTHONPATH=/home/vscode/.local/lib/python3.12/site-packages";
    "-v"; fstr [path_str resolved_diff_dir; ":/ghidriffs"];
    "ghcr.io/clearbluejar/ghidriff:latest"; "--force-diff"; "--sxs";
    fstr ["ghidriffs/"; name old_tar]; fstr ["ghidriffs/"; name new_tar] ].

(** [subprocess.run(cmd, ...)] for the engine, without the check. *)
Definition docker_run (cmd : list string) : D (Z * string) :=
  in_os (fun w =>
    match os_docker pf (fs w) (procs w) cmd with
    | (Ok r, f) =>
        (Ok r, {| fs := f; stdout := stdout w; llm_calls := llm_calls w;
                  procs := procs w ++ [ {| argv := cmd; stdin := "" |} ] |})
    | (Raise e, _) => (Raise e, w)
    end).

(** [analyze_queue.append(entry)] *)
Definition enqueue (entry : string * path) : D unit :=
  fun st =>
    (Ok tt, {| os := os st; loaded := loaded st; sema := sema st;
               ghidriff_threads := ghidriff_threads st;
               analyze_queue := analyze_queue st ++ [entry] |}).

(** The first part of [run_ghidriff_diff], up to the call of the
    engine: the working directory, the two inputs moved into it, the
    command line.  ([chmod] has no counterpart: the file system here has
    no permissions.) *)
Definition ghidriff_setup (t_dir old_f new_f : path) : D (list string) :=
  let target := name t_dir in
  let diff_dir := t_dir // "ghidriffs" in
  mkdir diff_dir ;;;
  let old_tar := diff_dir // name old_f in
  let new_tar := diff_dir // name new_f in
  shutil_move old_f old_tar ;;;
  shutil_move new_f new_tar ;;;
  resolved <- (fun st => (Ok (os_resolve pf (fs (os st)) diff_dir), st)) ;;
  log (fstr ["[*] Ghidriff ("; target; ")"]) ;;;
  ret (docker_cmd resolved old_tar new_tar).

(** The second part: what follows the end of the engine. *)
Definition ghidriff_finish (t_dir : path) (r : Z * string) : D unit :=
  let target := name t_dir in
  let diff_dir := t_dir // "ghidriffs" in
  let (code, err) := r in
  if negb (code =? 0)%Z then
    log (fstr ["[!] Ghidriff failed ("; target; ")"]) ;;;
    (if negb (VERBOSE cfg) && negb (String.eqb err "") then log err else ret tt)
  else
    ts <- (fun st => (Ok (os_now pf (os st)), st)) ;;
    let arch_dir := t_dir // "archive" // String.append "ghidriffs_" ts in
    shutil_move diff_dir arch_dir ;;;
    log (fstr ["[+] Archived to "; path_str arch_dir]) ;;;
    if ANALYZE cfg then enqueue (target, arch_dir) else ret tt.

(** [run_ghidriff_diff(t_dir, old_f, new_f)] *)
Definition run_ghidriff_diff (t_dir old_f new_f : path) : D unit :=
  cmd <- ghidriff_setup t_dir old_f new_f ;;
  r <- docker_run cmd ;;
  ghidriff_finish t_dir r.

(** The command line of the analysis and what [llmanalyze.py] reads
    from it. *)
Definition llmanalyze_cmd (target : string) (sxs_dir out_file : path) : list string :=
  [ "python3"; path_str (LLM_SCRIPT pf); "-i"; path_str sxs_dir; "-o"; path_str out_file;
    "--level-threshold"; LLM_LEVEL_THRESHOLD cfg; "--target-name"; target;
    "--llm-backend"; LLM_BACKEND cfg ]
  ++ (if truthy (LLM_MODEL cfg)
      then ["--llm-model"; match LLM_MODEL cfg with Some m => m | None => "" end]
      else [])
  ++ (if truthy (LLM_TRIGGER_CMD cfg)
      then ["--trigger-cmd"; match LLM_TRIGGER_CMD cfg with Some c => c | None => "" end]
      else [])
  ++ (if LLM_VERBOSE cfg then ["-v"] else []).

Definition llmanalyze_config (target : string) (sxs_dir out_file : path)
  : LlmAnalyze.config :=
  {| LlmAnalyze.input := sxs_dir;
     LlmAnalyze.output := out_file;
     LlmAnalyze.verbose := LLM_VERBOSE cfg;
     LlmAnalyze.trigger_cmd :=
       if truthy (LLM_TRIGGER_CMD cfg) then LLM_TRIGGER_CMD cfg else None;
     LlmAnalyze.level_threshold := LLM_LEVEL_THRESHOLD cfg;
     LlmAnalyze.target_name := target;
     LlmAnalyze.llm_backend := LLM_BACKEND cfg;
     LlmAnalyze.llm_model := if truthy (LLM_MODEL cfg) then LLM_MODEL cfg else None |}.

(** [subprocess.run(cmd, check=True)] for the analysis.  The call
    raises when the child cannot be created.  A child that was created
    ends before [main] with a status, or runs [main] of llmanalyze.py
    and ends with status 0, or with status 1 when [main] ended with an
    exception; a status other than 0 raises [CalledProcessError].  (A
    child that is killed from outside has no counterpart here.) *)
Definition run_llmanalyze_process (target : string) (sxs_dir out_file : path) : D unit :=
  in_os (fun w =>
    let cmd := llmanalyze_cmd target sxs_dir out_file in
    match os_launch pf (fs w) cmd with
    | Raise e => (Raise e, w)
    | Ok l =>
        let w1 := {| fs := fs w; stdout := stdout w; llm_calls := llm_calls w;
                     procs := procs w ++ [ {| argv := cmd; stdin := "" |} ] |} in
        match l with
        | Exits code =>
            if (code =? 0)%Z then (Ok tt, w1) else (Raise (CalledProcessError code), w1)
        | Runs c =>
            match LlmAnalyze.main (rt pf) c w1 with
            | (Ok _, w2) => (Ok tt, w2)
            | (Raise _, w2) => (Raise (CalledProcessError 1), w2)
            end
        end
    end).

(** [run_llmanalyze(target, archive)] *)
Definition run_llmanalyze (target : string) (archive : path) : D unit :=
  let sxs_dir := archive // "sxs_html" in
  there <- is_dir sxs_dir ;;
  if negb there then
    log (fstr ["[!] "; path_str sxs_dir; " missing - skipping LLM analysis"])
  else
    let out_file := archive // "analysis.md" in
    log (fstr ["[*] Starting LLM analysis of "; target]) ;;;
    run_llmanalyze_process target sxs_dir out_file.

(** [if ANALYZE_SLEEP: time.sleep(ANALYZE_SLEEP)]; [time.sleep] refuses
    a negative length. *)
Definition sleep_between : D unit :=
  if (ANALYZE_SLEEP cfg =? 0)%Z then ret tt
  else if (ANALYZE_SLEEP cfg <? 0)%Z
  then raise (ValueError "sleep length must be non-negative")
  else ret tt.

(** The body of the loop over the queue. *)
Definition analyze_one (target : string) (archive : path) : D unit :=
  run_llmanalyze target archive ;;; sleep_between.

(** The loop of the main block over a queue:
    [for t, a in analyze_queue: run_llmanalyze(t, a); sleep]. *)
Fixpoint analyze_all (queue : list (string * path)) : D unit :=
  match queue with
  | [] => ret tt
  | (t, a) :: rest => analyze_one t a ;;; analyze_all rest
  end.

(** [if ANALYZE: for t, a in analyze_queue: ...] *)
Definition analyze_phase : D unit :=
  fun st => if ANALYZE cfg then analyze_all (analyze_queue st) st else (Ok tt, st).

(** ** The worker threads *)

Definition set_thread_pc (p : pc) (th : thread) : thread :=
  {| th_name := th_name th; th_dir := th_dir th; th_old := th_old th;
     th_new := th_new th; th_pc := p |}.

Fixpoint set_pc (i : nat) (p : pc) (ths : list thread) : list thread :=
  match ths, i with
  | [], _ => []
  | th :: r, O => set_thread_pc p th :: r
  | th :: r, S j => th :: set_pc j p r
  end.

(** Taking a permit: without a semaphore nothing happens; with one, a
    permit must be free ([None]: the caller has to wait). *)
Definition acquire (s : option nat) : option (option nat) :=
  match s with
  | None => Some None
  | Some O => None
  | Some (S k) => Some (Some k)
  end.

Definition release (s : option nat) : option nat :=
  match s with
  | None => None
  | Some k => Some (S k)
  end.

(** [_ghidriff_worker(t_dir, old_p, new_p)], as the thread with index
    [i] runs it, one move at a time.  A thread that was started enters
    the [with _ghidriff_sema] block when it gets a permit, or goes on at
    once when there is no semaphore; [None]: it has to wait.  A thread
    inside the block runs [run_ghidriff_diff] to its end, however it
    ends, and gives the permit back. *)
Definition _ghidriff_worker (i : nat) (th : thread) (st : state) : option state :=
  match th_pc th with
  | Waiting =>
      match acquire (sema st) with
      | Some s' =>
          Some {| os := os st; loaded := loaded st; sema := s';
                  ghidriff_threads := set_pc i Running (ghidriff_threads st);
                  analyze_queue := analyze_queue st |}
      | None => None
      end
  | Running =>
      let (_, st') := run_ghidriff_diff (th_dir th) (th_old th) (th_new th) st in
      Some {| os := os st'; loaded := loaded st'; sema := release (sema st');
              ghidriff_threads := set_pc i Finished (ghidriff_threads st');
              analyze_queue := analyze_queue st' |}
  | Finished => None
  end.

(** One step of the process: the main thread calls [load_and_run], or
    one of the threads makes its next move. *)
Inductive step : state -> state -> Prop :=
| step_main (target_name : string) (force : bool) st :
    step st (snd (load_and_run target_name force st))
| step_worker (i : nat) (th : thread) st st' :
    nth_error (ghidriff_threads st) i = Some th ->
    _ghidriff_worker i th st = Some st' ->
    step st st'.

Lemma step_submit (target_name : string) (force : bool) st r st' :
  load_and_run target_name force st = (r, st') -> step st st'.
Proof.
  intros H. replace st' with (snd (load_and_run target_name force st));
    [apply step_main | rewrite H; reflexivity].
Qed.

Lemma step_enter (i : nat) (th : thread) st (s' : option nat) :
  nth_error (ghidriff_threads st) i = Some th ->
  th_pc th = Waiting ->
  acquire (sema st) = Some s' ->
  step st {| os := os st; loaded := loaded st; sema := s';
             ghidriff_threads := set_pc i Running (ghidriff_threads st);
             analyze_queue := analyze_queue st |}.
Proof.
  intros Hn Hpc Hacq. apply (step_worker i th); [exact Hn|].
  unfold _ghidriff_worker. rewrite Hpc, Hacq. reflexivity.
Qed.

Lemma step_leave (i : nat) (th : thread) st r st' :
  nth_error (ghidriff_threads st) i = Some th ->
  th_pc th = Running ->
  run_ghidriff_diff (th_dir th) (th_old th) (th_new th) st = (r, st') ->
  step st {| os := os st'; loaded := loaded st'; sema := release (sema st');
             ghidriff_threads := set_pc i Finished (ghidriff_threads st');
             analyze_queue := analyze_queue st' |}.
Proof.
  intros Hn Hpc Hrun. apply (step_worker i th); [exact Hn|].
  unfold _ghidriff_worker. rewrite Hpc, Hrun. reflexivity.
Qed.

(** The three kinds of step. *)
Lemma step_cases st st2 :
  step st st2 ->
  (exists target_name force r, load_and_run target_name force st = (r, st2)) \/
  (exists i th s',
     nth_error (ghidriff_threads st) i = Some th /\ th_pc th = Waiting /\
     acquire (sema st) = Some s' /\
     st2 = {| os := os st; loaded := loaded st; sema := s';
              ghidriff_threads := set_pc i Running (ghidriff_threads st);
              analyze_queue := analyze_queue st |}) \/
  (exists i th r st',
     nth_error (ghidriff_threads st) i = Some th /\ th_pc th = Running /\
     run_ghidriff_diff (th_dir th) (th_old th) (th_new th) st = (r, st') /\
     st2 = {| os := os st'; loaded := loaded st'; sema := release (sema st');
              ghidriff_threads := set_pc i Finished (ghidriff_threads st');
              analyze_queue := analyze_queue st' |}).
Proof.
  intros [tn force s | i th s s' Hn Hw].
  - left. destruct (load_and_run tn force s) as [r s'] eqn:H.
    exists tn, force, r. exact H.
  - right. unfold _ghidriff_worker in Hw. destruct (th_pc th) eqn:Hpc.
    + left. destruct (acquire (sema s)) as [a|] eqn:Hacq; [|discriminate Hw].
      injection Hw as <-. exists i, th, a. repeat split; assumption.
    + right. destruct (run_ghidriff_diff _ _ _ s) as [r s1] eqn:Hrun.
      injection Hw as <-. exists i, th, r, s1. repeat split; assumption.
    + discriminate Hw.
Qed.

(** The states the process can be in, from a given first state. *)
Inductive reachable (st0 : state) : state -> Prop :=
| reach_start : reachable st0 st0
| reach_step st st' : reachable st0 st -> step st st' -> reachable st0 st'.

Definition is_running (th : thread) : bool :=
  match th_pc th with Running => true | _ => false end.

(** The number of workers inside [run_ghidriff_diff]: the engine
    invocations that may be executing. *)
Definition running (st : state) : nat :=
  List.length (filter is_running (ghidriff_threads st)).

(** ** What each function leaves alone *)

(** The component [f] of the state is the same before and after. *)
Definition keeps {X} (f : state -> X) (st st' : state) : Prop := f st' = f st.

Lemma keeps_refl {X} (f : state -> X) st : keeps f st st.
Proof. reflexivity. Qed.

Lemma keeps_trans {X} (f : state -> X) st1 st2 st3 :
  keeps f st1 st2 -> keeps f st2 st3 -> keeps f st1 st3.
Proof. unfold keeps. congruence. Qed.

(** Threads are only added, and a thread that is added is waiting. *)
Definition grows (st st' : state) : Prop :=
  exists l, ghidriff_threads st' = ghidriff_threads st ++ l /\
            Forall (fun th => th_pc th = Waiting) l.

Lemma grows_refl st : grows st st.
Proof. exists []. rewrite app_nil_r. split; [reflexivity | constructor]. Qed.

Lemma grows_trans st1 st2 st3 : grows st1 st2 -> grows st2 st3 -> grows st1 st3.
Proof.
  intros (l1 & H1 & F1) (l2 & H2 & F2). exists (l1 ++ l2).
  rewrite H2, H1, app_assoc. split; [reflexivity | apply Forall_app; split; assumption].
Qed.

Lemma keeps_grows st st' : keeps ghidriff_threads st st' -> grows st st'.
Proof. intros H. exists []. rewrite app_nil_r. split; [exact H | constructor]. Qed.

(** A component other than the world is not touched by code on the
    world. *)
Definition os_blind {X} (f : state -> X) : Prop :=
  forall w st, f (with_os w st) = f st.

Lemma respects_in_os {X A} (f : state -> X) (m : M A) :
  os_blind f -> respects (keeps f) (in_os m).
Proof.
  intros Hf st r st' H. unfold in_os in H.
  destruct (m (os st)) as [r0 w]. injection H as _ <-. apply Hf.
Qed.

Lemma grows_in_os {A} (m : M A) : respects grows (in_os m).
Proof.
  intros st r st' H. apply keeps_grows.
  eapply (respects_in_os ghidriff_threads); [|exact H]. intros w s. reflexivity.
Qed.

Lemma os_blind_sema : os_blind sema. Proof. intros w st. reflexivity. Qed.
Lemma os_blind_loaded : os_blind loaded. Proof. intros w st. reflexivity. Qed.
Lemma os_blind_threads : os_blind ghidriff_threads.
Proof. intros w st. reflexivity. Qed.
Lemma os_blind_queue : os_blind analyze_queue.
Proof. intros w st. reflexivity. Qed.

Create HintDb frame.
#[local] Hint Resolve os_blind_sema os_blind_loaded os_blind_threads os_blind_queue : frame.
#[local] Hint Resolve grows_refl : frame.
#[local] Hint Extern 1 (keeps _ _ _) => reflexivity : frame.

(** Walks through the binds and branches of a function; the calls that
    change the state are left to the hints. *)
Ltac frame :=
  repeat first
    [ progress intros
    | match goal with
      | |- respects (keeps _) (bind _ _) => apply respects_bind; [apply keeps_trans| |]
      | |- respects grows (bind _ _) => apply respects_bind; [apply grows_trans| |]
      | |- respects (keeps _) (ret _) => apply respects_ret; apply keeps_refl
      | |- respects grows (ret _) => apply respects_ret; apply grows_refl
      | |- respects (keeps _) (raise _) => apply respects_raise; apply keeps_refl
      | |- respects grows (raise _) => apply respects_raise; apply grows_refl
      | |- respects (keeps _) (lift _) => apply respects_lift; apply keeps_refl
      | |- respects grows (lift _) => apply respects_lift; apply grows_refl
      | |- respects (keeps _) (in_os _) => apply respects_in_os; solve [auto with frame]
      | |- respects (keeps _) (log _) => apply respects_in_os; solve [auto with frame]
      | |- respects grows (in_os _) => apply grows_in_os
      | |- respects grows (log _) => apply grows_in_os
      | |- respects _ (if ?b then _ else _) => destruct b
      | |- respects _ (match ?x with _ => _ end) => destruct x
      | |- respects _ (let (_, _) := ?x in _) => destruct x
      end ].

Lemma frame_is_file R (p : path) : (forall st, R st st) -> respects R (is_file p).
Proof. intros HR st r st' [= _ <-]. apply HR. Qed.
Lemma frame_exists R (p : path) : (forall st, R st st) -> respects R (exists_ p).
Proof. intros HR st r st' [= _ <-]. apply HR. Qed.

Lemma frame_resolve_target_dir R (target_name : string) :
  (forall st, R st st) -> respects R (resolve_target_dir target_name).
Proof.
  intros HR st r st' H. unfold resolve_target_dir in H.
  destruct (strip_parts _ _); [|injection H as _ <-; apply HR].
  destruct (negb _); injection H as _ <-; apply HR.
Qed.

Lemma frame_unlink {X} (f : state -> X) p : os_blind f -> respects (keeps f) (unlink p).
Proof. intros Hf. apply respects_in_os. exact Hf. Qed.
Lemma frame_mkdir {X} (f : state -> X) p : os_blind f -> respects (keeps f) (mkdir p).
Proof. intros Hf. apply respects_in_os. exact Hf. Qed.
Lemma frame_shutil_move {X} (f : state -> X) p q :
  os_blind f -> respects (keeps f) (shutil_move p q).
Proof. intros Hf. apply respects_in_os. exact Hf. Qed.
Lemma frame_docker_run {X} (f : state -> X) cmd :
  os_blind f -> respects (keeps f) (docker_run cmd).
Proof. intros Hf. apply respects_in_os. exact Hf. Qed.

Lemma exec_module_keeps {X} (f : state -> X) script :
  (forall st w l, f {| os := w; loaded := l; sema := sema st;
                       ghidriff_threads := ghidriff_threads st;
                       analyze_queue := analyze_queue st |} = f st) ->
  respects (keeps f) (exec_module script).
Proof.
  intros Hf st r st' H. unfold exec_module in H.
  destruct (os_exec_module pf script (os st)) as [r0 w]. injection H as _ <-. apply Hf.
Qed.

(** [load_and_run] does not touch the semaphore or the queue; it adds at
    most waiting threads. *)
Lemma load_and_run_keeps_sema target_name force :
  respects (keeps sema) (load_and_run target_name force).
Proof.
  unfold load_and_run. frame;
    try (apply frame_resolve_target_dir || apply frame_exists || apply frame_is_file
         || apply frame_unlink);
    auto using keeps_refl with frame.
  - apply exec_module_keeps. reflexivity.
  - intros st r st' [= _ <-]. reflexivity.
Qed.

Lemma load_and_run_keeps_queue target_name force :
  respects (keeps analyze_queue) (load_and_run target_name force).
Proof.
  unfold load_and_run. frame;
    try (apply frame_resolve_target_dir || apply frame_exists || apply frame_is_file
         || apply frame_unlink);
    auto using keeps_refl with frame.
  - apply exec_module_keeps. reflexivity.
  - intros st r st' [= _ <-]. reflexivity.
Qed.

Lemma load_and_run_grows target_name force :
  respects grows (load_and_run target_name force).
Proof.
  unfold load_and_run. frame;
    try (apply frame_resolve_target_dir || apply frame_exists || apply frame_is_file);
    auto using grows_refl.
  - apply grows_in_os.
  - intros st r st' H. apply keeps_grows.
    eapply (exec_module_keeps ghidriff_threads); [|exact H]. reflexivity.
  - intros st r st' [= _ <-]. eexists. split; [reflexivity|].
    constructor; [reflexivity | constructor].
Qed.

(** [run_ghidriff_diff] does not touch the semaphore, the threads or the
    executed scripts. *)
Lemma run_ghidriff_diff_keeps {X} (f : state -> X) t_dir old_f new_f :
  os_blind f ->
  (forall st q, f {| os := os st; loaded := loaded st; sema := sema st;
                     ghidriff_threads := ghidriff_threads st;
                     analyze_queue := q |} = f st) ->
  respects (keeps f) (run_ghidriff_diff t_dir old_f new_f).
Proof.
  intros Hf Hq. unfold run_ghidriff_diff, ghidriff_setup, ghidriff_finish. frame;
    try (apply frame_mkdir || apply frame_shutil_move || apply frame_docker_run);
    try assumption;
    try (intros st r st' [= _ <-]; first [reflexivity | apply Hq]).
Qed.

Lemma run_ghidriff_diff_sema t_dir old_f new_f st r st' :
  run_ghidriff_diff t_dir old_f new_f st = (r, st') -> sema st' = sema st.
Proof.
  apply (run_ghidriff_diff_keeps sema); [exact os_blind_sema|]. reflexivity.
Qed.

Lemma run_ghidriff_diff_threads t_dir old_f new_f st r st' :
  run_ghidriff_diff t_dir old_f new_f st = (r, st') ->
  ghidriff_threads st' = ghidriff_threads st.
Proof.
  apply (run_ghidriff_diff_keeps ghidriff_threads); [exact os_blind_threads|].
  reflexivity.
Qed.

Lemma run_ghidriff_diff_loaded t_dir old_f new_f st r st' :
  run_ghidriff_diff t_dir old_f new_f st = (r, st') -> loaded st' = loaded st.
Proof.
  apply (run_ghidriff_diff_keeps loaded); [exact os_blind_loaded|]. reflexivity.
Qed.

(** ** The concurrency bound *)

Lemma running_app_waiting (ths l : list thread) :
  Forall (fun th => th_pc th = Waiting) l ->
  List.length (filter is_running (ths ++ l)) = List.length (filter is_running ths).
Proof.
  intros Hl. rewrite filter_app, length_app.
  replace (filter is_running l) with (@nil thread); [simpl; lia|].
  induction Hl as [|th l Hth _ IH]; [reflexivity|].
  simpl. unfold is_running at 1. rewrite Hth. exact IH.
Qed.

Lemma running_enter (ths : list thread) : forall i th,
  nth_error ths i = Some th -> th_pc th = Waiting ->
  List.length (filter is_running (set_pc i Running ths)) =
    S (List.length (filter is_running ths)).
Proof.
  induction ths as [|x r IH]; intros [|i] th Hn Hpc; simpl in *; try discriminate.
  - injection Hn as ->. unfold is_running at 2. rewrite Hpc. reflexivity.
  - destruct (is_running x); simpl; rewrite (IH i th Hn Hpc); reflexivity.
Qed.

Lemma running_leave (ths : list thread) : forall i th,
  nth_error ths i = Some th -> th_pc th = Running ->
  S (List.length (filter is_running (set_pc i Finished ths))) =
    List.length (filter is_running ths).
Proof.
  induction ths as [|x r IH]; intros [|i] th Hn Hpc; simpl in *; try discriminate.
  - injection Hn as ->. unfold is_running at 2. rewrite Hpc. reflexivity.
  - destruct (is_running x); simpl; rewrite <- (IH i th Hn Hpc); reflexivity.
Qed.

(** With a semaphore of [n] permits, the free permits and the workers
    inside [run_ghidriff_diff] always add up to [n]. *)
Lemma permits_invariant (n : nat) (st0 st : state) :
  sema st0 = Some n -> ghidriff_threads st0 = [] -> reachable st0 st ->
  exists k, sema st = Some k /\ k + running st = n.
Proof.
  intros Hs Ht Hr. induction Hr as [|st st' _ IH Hstep].
  - exists n. unfold running. rewrite Ht. split; [exact Hs | simpl; lia].
  - destruct IH as (k & Hk & Hsum).
    destruct (step_cases _ _ Hstep) as
      [(tn & force & r & Hload)
      |[(i & th & s' & Hn & Hpc & Hacq & ->)|(i & th & r & st1 & Hn & Hpc & Hrun & ->)]].
    + exists k. split.
      * rewrite (load_and_run_keeps_sema _ _ _ _ _ Hload). exact Hk.
      * destruct (load_and_run_grows _ _ _ _ _ Hload) as (l & Hl & Hw).
        unfold running in *. rewrite Hl, running_app_waiting; assumption.
    + rewrite Hk in Hacq. destruct k as [|k]; [discriminate|]. injection Hacq as <-.
      exists k. split; [reflexivity|]. unfold running in *. simpl.
      rewrite (running_enter _ _ _ Hn Hpc). lia.
    + pose proof (run_ghidriff_diff_sema _ _ _ _ _ _ Hrun) as Hsem.
      pose proof (run_ghidriff_diff_threads _ _ _ _ _ _ Hrun) as Hths.
      exists (S k). unfold running in *. simpl. rewrite Hsem, Hk, Hths. split; [reflexivity|].
      rewrite <- (running_leave _ _ _ Hn Hpc) in Hsum. lia.
Qed.

Lemma no_semaphore_invariant (st0 st : state) :
  sema st0 = None -> reachable st0 st -> sema st = None.
Proof.
  intros Hs Hr. induction Hr as [|st st' _ IH Hstep]; [exact Hs|].
  destruct (step_cases _ _ Hstep) as
    [(tn & force & r & Hload)
    |[(i & th & s' & Hn & Hpc & Hacq & ->)|(i & th & r & st1 & Hn & Hpc & Hrun & ->)]].
  - rewrite (load_and_run_keeps_sema _ _ _ _ _ Hload). exact IH.
  - rewrite IH in Hacq. injection Hacq as <-. reflexivity.
  - simpl. replace (sema st1) with (sema st); [rewrite IH; reflexivity|].
    symmetry. exact (run_ghidriff_diff_sema _ _ _ _ _ _ Hrun).
Qed.

(** Every waiting worker past the semaphore. *)
Definition enter (th : thread) : thread :=
  match th_pc th with
  | Waiting => set_thread_pc Running th
  | _ => th
  end.

Definition with_threads (ths : list thread) (st : state) : state :=
  {| os := os st; loaded := loaded st; sema := sema st;
     ghidriff_threads := ths; analyze_queue := analyze_queue st |}.

Definition is_finished (th : thread) : bool :=
  match th_pc th with Finished => true | _ => false end.

Lemma set_pc_middle (pre post : list thread) (th : thread) (p : pc) :
  set_pc (List.length pre) p (pre ++ th :: post) = pre ++ set_thread_pc p th :: post.
Proof. induction pre as [|x pre IH]; simpl; [reflexivity | rewrite IH; reflexivity]. Qed.

Lemma enter_prefix_reachable (st0 st : state) :
  sema st = None -> reachable st0 st ->
  forall pre post, ghidriff_threads st = pre ++ post ->
    reachable st0 (with_threads (map enter pre ++ post) st).
Proof.
  intros Hs Hr pre. induction pre as [|th pre IH] using rev_ind; intros post Hsplit.
  - simpl in *. rewrite <- Hsplit. destruct st; exact Hr.
  - rewrite <- app_assoc in Hsplit. simpl in Hsplit.
    specialize (IH (th :: post) Hsplit).
    rewrite map_app, <- app_assoc. simpl.
    unfold enter at 2. destruct (th_pc th) eqn:Hpc; try exact IH.
    eapply reach_step; [exact IH|].
    replace (with_threads (map enter pre ++ set_thread_pc Running th :: post) st)
      with {| os := os (with_threads (map enter pre ++ th :: post) st);
              loaded := loaded (with_threads (map enter pre ++ th :: post) st);
              sema := None;
              ghidriff_threads :=
                set_pc (List.length (map enter pre)) Running
                  (ghidriff_threads (with_threads (map enter pre ++ th :: post) st));
              analyze_queue :=
                analyze_queue (with_threads (map enter pre ++ th :: post) st) |}.
    + apply (step_enter (List.length (map enter pre)) th).
      * simpl. rewrite nth_error_app2, Nat.sub_diag; [reflexivity | lia].
      * exact Hpc.
      * simpl. rewrite Hs. reflexivity.
    + simpl. rewrite set_pc_middle. unfold with_threads. rewrite Hs. reflexivity.
Qed.

Lemma running_enter_all (ths : list thread) :
  List.length (filter is_running (map enter ths)) =
  List.length (filter (fun th => negb (is_finished th)) ths).
Proof.
  induction ths as [|th r IH]; [reflexivity|]. simpl.
  unfold enter at 1, is_running at 1, is_finished at 1.
  destruct (th_pc th) eqn:Hpc; simpl; try rewrite Hpc; simpl; rewrite IH; reflexivity.
Qed.

(** C7.  From the start of the process with [--ghidriff-threads n] and
    no worker yet, in every state the process can reach:
    - for [n > 0] the free permits and the workers inside
      [run_ghidriff_diff] add up to [n], so at most [n] engine
      invocations are executing;
    - a submission ([load_and_run]) returns without taking a permit: it
      leaves the semaphore and the number of running workers as they
      are, and a thread it starts is waiting; the permit is taken by the
      worker when it starts to execute;
    - for [n] = 0 (or below) there is no semaphore: every waiting worker
      can start at once, and a state in which all unfinished workers
      are executing together can be reached. *)
Theorem at_most_n_engines (n : Z) (st0 st : state) :
  sema st0 = init_sema n ->
  ghidriff_threads st0 = [] ->
  reachable st0 st ->
  ((0 < n)%Z ->
     running st <= Z.to_nat n /\
     exists k, sema st = Some k /\ k + running st = Z.to_nat n) /\
  (forall target_name force,
     sema (snd (load_and_run target_name force st)) = sema st /\
     running (snd (load_and_run target_name force st)) = running st /\
     grows st (snd (load_and_run target_name force st))) /\
  ((n <= 0)%Z ->
     sema st = None /\
     (forall i th, nth_error (ghidriff_threads st) i = Some th -> th_pc th = Waiting ->
        exists st', step st st' /\ running st' = S (running st)) /\
     exists st', reachable st0 st' /\
       running st' =
         List.length (filter (fun th => negb (is_finished th)) (ghidriff_threads st))).
Proof.
  intros Hs Ht Hr. split; [|split].
  - intros Hn. unfold init_sema in Hs.
    rewrite Z.max_r in Hs by lia.
    destruct (Z.eqb_spec n 0) as [->|_]; [lia|].
    destruct (permits_invariant _ _ _ Hs Ht Hr) as (k & Hk & Hsum).
    split; [lia|]. exists k. split; assumption.
  - intros tn force.
    destruct (load_and_run tn force st) as [r st'] eqn:Hload. simpl.
    split; [exact (load_and_run_keeps_sema _ _ _ _ _ Hload)|].
    pose proof (load_and_run_grows _ _ _ _ _ Hload) as Hg.
    split; [|exact Hg]. destruct Hg as (l & Hl & Hw).
    unfold running. rewrite Hl. apply running_app_waiting. exact Hw.
  - intros Hn. unfold init_sema in Hs. rewrite Z.max_l in Hs by lia. simpl in Hs.
    pose proof (no_semaphore_invariant _ _ Hs Hr) as Hnone.
    split; [exact Hnone|]. split.
    + intros i th Hi Hpc. eexists. split.
      * apply (step_enter i th st None Hi Hpc). rewrite Hnone. reflexivity.
      * unfold running. simpl. apply (running_enter _ _ _ Hi Hpc).
    + exists (with_threads (map enter (ghidriff_threads st)) st). split.
      * rewrite <- (app_nil_r (map enter (ghidriff_threads st))).
        apply enter_prefix_reachable; [exact Hnone | exact Hr |].
        rewrite app_nil_r. reflexivity.
      * unfold running. simpl. apply running_enter_all.
Qed.

(** ** A failing engine *)

Lemma ghidriff_setup_keeps {X} (f : state -> X) t_dir old_f new_f :
  os_blind f -> respects (keeps f) (ghidriff_setup t_dir old_f new_f).
Proof.
  intros Hf. unfold ghidriff_setup. frame;
    try (apply frame_mkdir || apply frame_shutil_move); try assumption.
  intros st r st' [= _ <-]. reflexivity.
Qed.

(** The setup starts no process. *)
Lemma ghidriff_setup_procs t_dir old_f new_f :
  respects (keeps (fun st => procs (os st))) (ghidriff_setup t_dir old_f new_f).
Proof.
  unfold ghidriff_setup. frame.
  - intros st r st' H. unfold mkdir, in_os in H.
    destruct (fs_file_above _ _); [injection H as _ <-; reflexivity|].
    destruct (fs_lookup _ _) as [[|c]|]; injection H as _ <-; reflexivity.
  - intros st r st' H. unfold shutil_move, in_os in H.
    destruct (move_target _ _ _); [destruct (path_eqb _ _)|];
      injection H as _ <-; reflexivity.
  - intros st r st' H. unfold shutil_move, in_os in H.
    destruct (move_target _ _ _); [destruct (path_eqb _ _)|];
      injection H as _ <-; reflexivity.
  - intros st r st' [= _ <-]. reflexivity.
  - intros st r st' [= _ <-]. reflexivity.
Qed.

(** A permit that was given back can be taken. *)
Lemma acquire_release (s : option nat) : exists s', acquire (release s) = Some s'.
Proof. destruct s as [k|]; simpl; eexists; reflexivity. Qed.

Lemma set_pc_other (ths : list thread) (p : pc) : forall i j,
  i <> j -> nth_error (set_pc i p ths) j = nth_error ths j.
Proof.
  induction ths as [|x r IH]; intros [|i] [|j] Hne; simpl; try reflexivity.
  - contradiction.
  - apply IH. congruence.
Qed.

(** C8.  When [run_ghidriff_diff] has set up the working directory and
    the engine it then starts ends with a status other than 0:
    the function returns normally (no exception reaches the worker or
    the scheduler); the line [[!] Ghidriff failed (<target>)] is logged;
    the files are as the engine left them, so the working directory is
    not moved and no archive directory is made; no entry is added to the
    analysis queue; the engine was started once and nothing after it (no
    retry); and the semaphore, the other workers and the executed
    scripts are as they were, so the run goes on for the other targets. *)
Theorem engine_failure_isolated t_dir old_f new_f st cmd st1 code err f1 :
  ghidriff_setup t_dir old_f new_f st = (Ok cmd, st1) ->
  os_docker pf (fs (os st1)) (procs (os st1)) cmd = (Ok (code, err), f1) ->
  code <> 0%Z ->
  exists st',
    run_ghidriff_diff t_dir old_f new_f st = (Ok tt, st') /\
    In (fstr ["[!] Ghidriff failed ("; name t_dir; ")"]) (stdout (os st')) /\
    fs (os st') = f1 /\
    procs (os st') = procs (os st) ++ [ {| argv := cmd; stdin := "" |} ] /\
    analyze_queue st' = analyze_queue st /\
    ghidriff_threads st' = ghidriff_threads st /\
    sema st' = sema st /\
    loaded st' = loaded st.
Proof.
  intros Hsetup Hdocker Hcode.
  pose proof (ghidriff_setup_keeps analyze_queue _ _ _ os_blind_queue _ _ _ Hsetup) as Hq.
  pose proof (ghidriff_setup_keeps ghidriff_threads _ _ _ os_blind_threads _ _ _ Hsetup)
    as Ht.
  pose proof (ghidriff_setup_keeps sema _ _ _ os_blind_sema _ _ _ Hsetup) as Hs.
  pose proof (ghidriff_setup_keeps loaded _ _ _ os_blind_loaded _ _ _ Hsetup) as Hl.
  pose proof (ghidriff_setup_procs _ _ _ _ _ _ Hsetup) as Hp.
  unfold keeps in *.
  unfold run_ghidriff_diff. rewrite (bind_ok _ _ _ _ _ Hsetup).
  unfold docker_run at 1. unfold bind at 1. unfold in_os at 1. rewrite Hdocker.
  unfold ghidriff_finish.
  apply Z.eqb_neq in Hcode. rewrite Hcode. simpl negb. cbv iota.
  unfold bind, log, in_os, print.
  destruct (negb (VERBOSE cfg) && negb (err =? "")%string); simpl;
    eexists; (split; [reflexivity|]); simpl;
    rewrite Hp; repeat split; try assumption;
    apply in_or_app.
  - left. apply in_or_app. right. left. reflexivity.
  - right. left. reflexivity.
Qed.

(** After the worker of a failed job has left, the other workers are
    where they were and a permit is free for a waiting one. *)
Lemma failed_job_leaves_others (i j : nat) (st' : state) :
  i <> j ->
  nth_error (set_pc i Finished (ghidriff_threads st')) j =
    nth_error (ghidriff_threads st') j /\
  exists s', acquire (release (sema st')) = Some s'.
Proof. intros Hne. split; [apply set_pc_other; exact Hne | apply acquire_release]. Qed.

(** ** Which fetch scripts are executed *)

Lemma strip_parts_app (base : path) : forall p rest,
  strip_parts base p = Some rest -> p = base ++ rest.
Proof.
  induction base as [|b base IH]; intros p rest H; simpl in H.
  - injection H as ->. reflexivity.
  - destruct p as [|a p]; [discriminate|].
    destruct (String.eqb_spec b a) as [->|_]; [|discriminate].
    simpl. f_equal. apply IH. exact H.
Qed.

Lemma child_script (t : path) : t // SCRIPT_NAME = t ++ [SCRIPT_NAME].
Proof. reflexivity. Qed.

(** The scripts executed are all [script]. *)
Definition loads_only (script : path) (st st' : state) : Prop :=
  exists l, loaded st' = loaded st ++ l /\ Forall (eq script) l.

Lemma loads_only_refl script st : loads_only script st st.
Proof. exists []. rewrite app_nil_r. split; [reflexivity | constructor]. Qed.

Lemma loads_only_trans script st1 st2 st3 :
  loads_only script st1 st2 -> loads_only script st2 st3 -> loads_only script st1 st3.
Proof.
  intros (l1 & H1 & F1) (l2 & H2 & F2). exists (l1 ++ l2).
  rewrite H2, H1, app_assoc. split; [reflexivity | apply Forall_app; split; assumption].
Qed.

Lemma keeps_loads_only script st st' : keeps loaded st st' -> loads_only script st st'.
Proof. intros H. exists []. rewrite app_nil_r. split; [exact H | constructor]. Qed.

Lemma loads_only_in_os {A} script (m : M A) : respects (loads_only script) (in_os m).
Proof.
  intros st r st' H. apply keeps_loads_only.
  exact (respects_in_os loaded m os_blind_loaded _ _ _ H).
Qed.

Lemma resolve_target_dir_inv target_name st r st' :
  resolve_target_dir target_name st = (r, st') ->
  st' = st /\
  match r with
  | Ok t =>
      t = resolved_target target_name (fs (os st)) /\
      exists rest, t = TARGETS_DIR pf ++ rest
  | Raise _ => True
  end.
Proof.
  unfold resolve_target_dir. intros H.
  destruct (strip_parts _ _) as [rest|] eqn:Hs; [|injection H as <- <-; split; exact I || reflexivity].
  destruct (negb _); injection H as <- <-; (split; [reflexivity|]); [exact I|].
  split; [reflexivity|]. exists rest. apply strip_parts_app. exact Hs.
Qed.

(** The scripts a call of [load_and_run] executes: [fetch_target.py] in
    the resolved target directory, which lies under the targets
    directory. *)
Lemma load_and_run_loads target_name force st :
  exists l,
    loaded (snd (load_and_run target_name force st)) = loaded st ++ l /\
    Forall (fun script =>
              exists rest,
                resolved_target target_name (fs (os st)) = TARGETS_DIR pf ++ rest /\
                script = TARGETS_DIR pf ++ rest ++ [SCRIPT_NAME]) l.
Proof.
  destruct (load_and_run target_name force st) as [r st'] eqn:H. simpl.
  unfold load_and_run in H.
  apply bind_cases in H as [(t & st1 & H1 & H)|(e & H1 & _)].
  2:{ apply resolve_target_dir_inv in H1 as [-> _].
      exists []. rewrite app_nil_r. split; [reflexivity | constructor]. }
  apply resolve_target_dir_inv in H1 as [-> [Ht (rest & Hrest)]].
  assert (Hl : loads_only (t // SCRIPT_NAME) st st').
  { revert H.
    match goal with
    | |- ?m st = _ -> _ =>
        enough (Hresp : respects (loads_only (t // SCRIPT_NAME)) m)
          by (exact (Hresp st r st'))
    end.
    repeat first
      [ progress intros
      | match goal with
        | |- respects _ (bind _ _) =>
            apply respects_bind; [apply loads_only_trans| |]
        | |- respects _ (ret _) => apply respects_ret; apply loads_only_refl
        | |- respects _ (lift _) => apply respects_lift; apply loads_only_refl
        | |- respects _ (in_os _) => apply loads_only_in_os
        | |- respects _ (log _) => apply loads_only_in_os
        | |- respects _ (unlink _) => apply loads_only_in_os
        | |- respects _ (exists_ _) => apply frame_exists; apply loads_only_refl
        | |- respects _ (is_file _) => apply frame_is_file; apply loads_only_refl
        | |- respects _ (if ?b then _ else _) => destruct b
        | |- respects _ (match ?x with _ => _ end) => destruct x
        end ].
    - intros s r0 s' H0. unfold exec_module in H0.
      destruct (os_exec_module pf (t // SCRIPT_NAME) (os s)) as [r1 w].
      injection H0 as _ <-. exists [t // SCRIPT_NAME]. split; [reflexivity|].
      constructor; [reflexivity | constructor].
    - intros s r0 s' [= _ <-]. apply keeps_loads_only. reflexivity. }
  destruct Hl as (l & Hl & Hall). exists l. split; [exact Hl|].
  eapply Forall_impl; [|exact Hall]. intros script <-.
  exists rest. rewrite <- Ht, child_script, Hrest, <- app_assoc. split; reflexivity.
Qed.

(** C9.  When the resolved path of the target name does not lie under
    the targets directory, [load_and_run] ends with the [ValueError] of
    [resolve_target_dir] and the state is as it was: no script was
    loaded, nothing was deleted.  In every case, a script that
    [load_and_run] executes is the file [fetch_target.py] in the resolved
    target directory, which lies under the targets directory. *)
Theorem load_and_run_confined target_name force st :
  (strip_parts (TARGETS_DIR pf) (resolved_target target_name (fs (os st))) = None ->
     load_and_run target_name force st =
       (Raise (ValueError (fstr ["Target '"; target_name; "' is outside ";
                                 path_str (TARGETS_DIR pf)])), st)) /\
  exists l,
    loaded (snd (load_and_run target_name force st)) = loaded st ++ l /\
    Forall (fun script =>
              exists rest,
                resolved_target target_name (fs (os st)) = TARGETS_DIR pf ++ rest /\
                script = TARGETS_DIR pf ++ rest ++ [SCRIPT_NAME]) l.
Proof.
  split.
  - intros Hout. unfold load_and_run, bind at 1, resolve_target_dir. rewrite Hout.
    reflexivity.
  - apply load_and_run_loads.
Qed.

(** Over a whole run, every executed script lies under the targets
    directory. *)
Lemma loaded_inside_targets (st0 st : state) :
  loaded st0 = [] -> reachable st0 st ->
  Forall (fun script => exists rest, script = TARGETS_DIR pf ++ rest) (loaded st).
Proof.
  intros H0 Hr. induction Hr as [|st st' _ IH Hstep]; [rewrite H0; constructor|].
  destruct (step_cases _ _ Hstep) as
    [(tn & force & r & Hload)
    |[(i & th & s' & Hn & Hpc & Hacq & ->)|(i & th & r & st1 & Hn & Hpc & Hrun & ->)]].
  - destruct (load_and_run_loads tn force st) as (l & Hl & Hall).
    rewrite Hload in Hl. simpl in Hl. rewrite Hl. apply Forall_app. split; [exact IH|].
    eapply Forall_impl; [|exact Hall]. intros script (rest & _ & ->). eexists. reflexivity.
  - exact IH.
  - simpl. rewrite (run_ghidriff_diff_loaded _ _ _ _ _ _ Hrun). exact IH.
Qed.

(** ** The analysis of the queue *)








(** ** Where the jobs work *)

(** The threads added are jobs of the directory [t]. *)
Definition adds_jobs (t : path) (st st' : state) : Prop :=
  exists l, ghidriff_threads st' = ghidriff_threads st ++ l /\
            Forall (fun th => th_dir th = t /\ th_name th = name t) l.

Lemma adds_jobs_refl t st : adds_jobs t st st.
Proof. exists []. rewrite app_nil_r. split; [reflexivity | constructor]. Qed.

Lemma adds_jobs_trans t st1 st2 st3 :
  adds_jobs t st1 st2 -> adds_jobs t st2 st3 -> adds_jobs t st1 st3.
Proof.
  intros (l1 & H1 & F1) (l2 & H2 & F2). exists (l1 ++ l2).
  rewrite H2, H1, app_assoc. split; [reflexivity | apply Forall_app; split; assumption].
Qed.

Lemma keeps_adds_jobs t st st' : keeps ghidriff_threads st st' -> adds_jobs t st st'.
Proof. intros H. exists []. rewrite app_nil_r. split; [exact H | constructor]. Qed.

(** The threads a call of [load_and_run] adds are jobs of the resolved
    target directory, which lies under the targets directory. *)
Lemma load_and_run_jobs target_name force st r st' :
  load_and_run target_name force st = (r, st') ->
  exists t rest, t = TARGETS_DIR pf ++ rest /\ adds_jobs t st st'.
Proof.
  unfold load_and_run. intros H.
  apply bind_cases in H as [(t & st1 & H1 & H)|(e & H1 & _)].
  2:{ apply resolve_target_dir_inv in H1 as [-> _].
      exists (TARGETS_DIR pf ++ []), []. split; [reflexivity | apply adds_jobs_refl]. }
  apply resolve_target_dir_inv in H1 as [-> [_ (rest & Hrest)]].
  exists t, rest. split; [exact Hrest|]. revert H.
  match goal with
  | |- ?m st = _ -> _ =>
      enough (Hresp : respects (adds_jobs t) m) by (exact (Hresp st r st'))
  end.
  repeat first
    [ progress intros
    | match goal with
      | |- respects _ (bind _ _) => apply respects_bind; [apply adds_jobs_trans| |]
      | |- respects _ (ret _) => apply respects_ret; apply adds_jobs_refl
      | |- respects _ (lift _) => apply respects_lift; apply adds_jobs_refl
      | |- respects _ (in_os _) =>
          let H := fresh in
          intros ? ? ? H; apply keeps_adds_jobs;
          exact (respects_in_os ghidriff_threads _ os_blind_threads _ _ _ H)
      | |- respects _ (log _) =>
          let H := fresh in
          intros ? ? ? H; apply keeps_adds_jobs;
          exact (respects_in_os ghidriff_threads _ os_blind_threads _ _ _ H)
      | |- respects _ (unlink _) =>
          let H := fresh in
          intros ? ? ? H; apply keeps_adds_jobs;
          exact (respects_in_os ghidriff_threads _ os_blind_threads _ _ _ H)
      | |- respects _ (exists_ _) => apply frame_exists; apply adds_jobs_refl
      | |- respects _ (is_file _) => apply frame_is_file; apply adds_jobs_refl
      | |- respects _ (if ?b then _ else _) => destruct b
      | |- respects _ (match ?x with _ => _ end) => destruct x
      end ].
  - intros s r0 s' H0. apply keeps_adds_jobs.
    exact (exec_module_keeps ghidriff_threads _ (fun _ _ _ => eq_refl) _ _ _ H0).
  - intros s r0 s' [= _ <-]. eexists. split; [reflexivity|].
    constructor; [split; reflexivity | constructor].
Qed.

(** The entries added to the queue are archives of the directory [t]. *)
Definition queues (t : path) (st st' : state) : Prop :=
  exists l, analyze_queue st' = analyze_queue st ++ l /\
            Forall (fun entry =>
                      exists ts, entry = (name t, t // "archive" // String.append "ghidriffs_" ts))
                   l.

Lemma queues_refl t st : queues t st st.
Proof. exists []. rewrite app_nil_r. split; [reflexivity | constructor]. Qed.

Lemma queues_trans t st1 st2 st3 : queues t st1 st2 -> queues t st2 st3 -> queues t st1 st3.
Proof.
  intros (l1 & H1 & F1) (l2 & H2 & F2). exists (l1 ++ l2).
  rewrite H2, H1, app_assoc. split; [reflexivity | apply Forall_app; split; assumption].
Qed.

Lemma run_ghidriff_diff_queues t old_f new_f :
  respects (queues t) (run_ghidriff_diff t old_f new_f).
Proof.
  assert (Hos : forall A (m : M A), respects (queues t) (in_os m)).
  { intros A m st r st' H. exists []. rewrite app_nil_r. split; [|constructor].
    exact (respects_in_os analyze_queue _ os_blind_queue _ _ _ H). }
  unfold run_ghidriff_diff, ghidriff_setup, ghidriff_finish.
  repeat first
    [ progress intros
    | match goal with
      | |- respects _ (bind _ _) => apply respects_bind; [apply queues_trans| |]
      | |- respects _ (ret _) => apply respects_ret; apply queues_refl
      | |- respects _ (in_os _) => apply Hos
      | |- respects _ (log _) => apply Hos
      | |- respects _ (mkdir _) => apply Hos
      | |- respects _ (shutil_move _ _) => apply Hos
      | |- respects _ (docker_run _) => apply Hos
      | |- respects _ (if ?b then _ else _) => destruct b
      | |- respects _ (let (_, _) := ?x in _) => destruct x
      end ];
    try (intros ? ? ? [= _ <-]; apply queues_refl).
  intros ? ? ? [= _ <-]. eexists. split; [reflexivity|].
  constructor; [eexists; reflexivity | constructor].
Qed.

Lemma map_th_dir_set_pc (ths : list thread) (p : pc) : forall i,
  map th_dir (set_pc i p ths) = map th_dir ths.
Proof.
  induction ths as [|x r IH]; intros [|i]; simpl; try reflexivity.
  rewrite IH. reflexivity.
Qed.

Lemma Forall_set_pc (P : thread -> Prop) (p : pc) (ths : list thread) : forall i,
  (forall th, P th -> P (set_thread_pc p th)) ->
  Forall P ths -> Forall P (set_pc i p ths).
Proof.
  intros i HP H. revert i. induction H as [|x r Hx Hr IH]; intros [|i]; simpl;
    constructor; auto.
Qed.

(** X26.  Over a whole run every worker belongs to a directory under
    the targets directory and is named after it; and every entry of the
    analysis queue is, under the name of that directory, the archive
    directory [<dir>/archive/ghidriffs_<time>] of the directory of a
    worker: nothing is queued for analysis that was not submitted as a
    diff job. *)
Theorem jobs_inside_targets (st0 st : state) :
  ghidriff_threads st0 = [] -> analyze_queue st0 = [] -> reachable st0 st ->
  Forall (fun th => (exists rest, th_dir th = TARGETS_DIR pf ++ rest) /\
                    th_name th = name (th_dir th))
         (ghidriff_threads st) /\
  Forall (fun entry =>
            exists d ts,
              In d (map th_dir (ghidriff_threads st)) /\
              entry = (name d, d // "archive" // String.append "ghidriffs_" ts))
         (analyze_queue st).
Proof.
  intros Ht Hq Hr. induction Hr as [|st st' _ IH Hstep].
  - rewrite Ht, Hq. split; constructor.
  - destruct IH as (IHt & IHq).
    destruct (step_cases _ _ Hstep) as
      [(tn & force & r & Hload)
      |[(i & th & s' & Hn & Hpc & Hacq & ->)|(i & th & r & st1 & Hn & Hpc & Hrun & ->)]].
    + destruct (load_and_run_jobs _ _ _ _ _ Hload) as (t & rest & Hrest & l & Hl & Hall).
      rewrite (load_and_run_keeps_queue _ _ _ _ _ Hload), Hl. split.
      * apply Forall_app. split; [exact IHt|].
        eapply Forall_impl; [|exact Hall]. intros x [Hd Hname].
        rewrite Hd. split; [exists rest; exact Hrest | exact Hname].
      * eapply Forall_impl; [|exact IHq]. intros entry (d & ts & Hd & He).
        exists d, ts. split; [|exact He]. rewrite map_app. apply in_or_app. left. exact Hd.
    + simpl. split.
      * apply Forall_set_pc; [|exact IHt]. intros x Hx. exact Hx.
      * rewrite map_th_dir_set_pc. exact IHq.
    + pose proof (run_ghidriff_diff_threads _ _ _ _ _ _ Hrun) as Hths.
      destruct (run_ghidriff_diff_queues _ _ _ _ _ _ Hrun) as (l & Hl & Hall).
      simpl. rewrite Hths. split.
      * apply Forall_set_pc; [|exact IHt]. intros x Hx. exact Hx.
      * rewrite map_th_dir_set_pc, Hl. apply Forall_app. split; [exact IHq|].
        eapply Forall_impl; [|exact Hall]. intros entry (ts & ->).
        exists (th_dir th), ts. split; [|reflexivity].
        apply in_map. exact (nth_error_In _ _ Hn).
Qed.

(** ** The submissions of the main block *)

(** [for d in TARGETS_DIR.iterdir(): if d.is_dir(): load_and_run(d.name, force)]
    over the names the directory yields, in the order it yields them. *)
Fixpoint submit_each (names : list string) (force : bool) : D unit :=
  match names with
  | [] => ret tt
  | n :: rest =>
      d_is_dir <- is_dir (TARGETS_DIR pf // n) ;;
      (if d_is_dir then load_and_run n force else ret tt) ;;;
      submit_each rest force
  end.

(** [if args.target == "all": ... else: load_and_run(args.target, args.force)] *)
Definition submit (target : string) (force : bool) : D unit :=
  if String.eqb target "all" then
    targets_there <- is_dir (TARGETS_DIR pf) ;;
    if negb targets_there
    then raise (FileNotFoundError
                  (fstr ["Targets-Verzeichnis fehlt: "; path_str (TARGETS_DIR pf)]))
    else fun st => submit_each (fs_listdir (fs (os st)) (abs (TARGETS_DIR pf))) force st
  else load_and_run target force.

Lemma submit_each_aborts (done rest : list string) n force st st1 e st' :
  submit_each done force st = (Ok tt, st1) ->
  fs_is_dir (fs (os st1)) (abs (TARGETS_DIR pf // n)) = true ->
  load_and_run n force st1 = (Raise e, st') ->
  submit_each (done ++ n :: rest) force st = (Raise e, st').
Proof.
  revert st. induction done as [|m done IH]; intros st Hdone Hdir Hfail; simpl in *.
  - injection Hdone as <-. unfold bind at 1, is_dir at 1. rewrite Hdir.
    unfold bind. rewrite Hfail. reflexivity.
  - apply bind_inv in Hdone as (u & st2 & H1 & H2).
    rewrite (bind_ok _ _ _ _ _ H1).
    apply bind_inv in H2 as (v & st3 & H2 & H3).
    rewrite (bind_ok _ _ _ _ _ H2). apply IH; assumption.
Qed.

(** X29.  With the target [all] the submissions end with an exception
    in two cases only.  Either the targets directory is no directory:
    then [FileNotFoundError] is raised and nothing has happened.  Or the
    call of [load_and_run] for one of its subdirectories raised: the
    names of the directory split into those handled before, that name
    and the names after it, and the loop ends at once with that
    exception; the scripts of the directories after it are never
    loaded. *)
Theorem submit_all_fails_iff (force : bool) st e st' :
  submit "all" force st = (Raise e, st') <->
  (fs_is_dir (fs (os st)) (abs (TARGETS_DIR pf)) = false /\
   e = FileNotFoundError (fstr ["Targets-Verzeichnis fehlt: "; path_str (TARGETS_DIR pf)]) /\
   st' = st) \/
  (fs_is_dir (fs (os st)) (abs (TARGETS_DIR pf)) = true /\
   exists done n rest st1,
     fs_listdir (fs (os st)) (abs (TARGETS_DIR pf)) = done ++ n :: rest /\
     submit_each done force st = (Ok tt, st1) /\
     fs_is_dir (fs (os st1)) (abs (TARGETS_DIR pf // n)) = true /\
     load_and_run n force st1 = (Raise e, st')).
Proof.
  assert (Hloop : forall names s,
            submit_each names force s = (Raise e, st') ->
            exists done n rest st1,
              names = done ++ n :: rest /\
              submit_each done force s = (Ok tt, st1) /\
              fs_is_dir (fs (os st1)) (abs (TARGETS_DIR pf // n)) = true /\
              load_and_run n force st1 = (Raise e, st')).
  { induction names as [|m names IH]; intros s H; simpl in H; [discriminate H|].
    apply bind_cases in H as [(u & s1 & H1 & H)|(e0 & H1 & _)]; [|discriminate H1].
    injection H1 as <- <-.
    apply bind_cases in H as [(v & s2 & H2 & H)|(e0 & H2 & [= <-])].
    - destruct (IH _ H) as (done & n & rest & st1 & -> & Hdone & Hdir & Hfail).
      exists (m :: done), n, rest, st1. split; [reflexivity|].
      split; [|split; assumption].
      simpl. unfold bind at 1, is_dir at 1. rewrite (bind_ok _ _ _ _ _ H2). exact Hdone.
    - destruct (fs_is_dir (fs (os s)) (abs (TARGETS_DIR pf // m))) eqn:Hdir;
        [|discriminate H2].
      exists [], m, names, s. repeat split; assumption. }
  unfold submit. change (String.eqb "all" "all") with true. cbv iota.
  unfold bind at 1, is_dir at 1.
  destruct (fs_is_dir (fs (os st)) (abs (TARGETS_DIR pf))) eqn:Hdir; cbn [negb]; split.
  - intros H. right. split; [reflexivity|]. exact (Hloop _ _ H).
  - intros [(Hno & _)|(_ & done & n & rest & st1 & -> & Hdone & Hd & Hfail)];
      [discriminate Hno|].
    exact (submit_each_aborts done rest n force st st1 e st' Hdone Hd Hfail).
  - unfold raise. intros [= <- <-]. left. repeat split.
  - unfold raise. intros [(_ & -> & ->)|(Hyes & _)]; [reflexivity | discriminate Hyes].
Qed.

(** ** Waiting for the workers: [monitor] *)

(** [th.is_alive()]: a thread that was started and has not ended. *)
Definition is_alive (th : thread) : bool := negb (is_finished th).

(** [n not in done] *)
Definition not_in (n : string) (done : list string) : bool :=
  negb (existsb (String.eqb n) done).

(** One pass of the [for] loop of [monitor] over the pool, each thread as
    the pass finds it: the name of a thread that has ended goes into the
    set [done] (kept in the order of insertion) unless it is there, and
    the bar moves by one for each name that goes in. *)
Definition monitor_pass (pool : list thread) (done : list string) : list string :=
  fold_left (fun done th =>
               if negb (is_alive th) && not_in (th_name th) done
               then done ++ [th_name th]
               else done)
            pool done.

(** The [while len(done) < len(pool)] loop.  The workers run while the
    loop sleeps, so every pass finds the pool in another state: [passes]
    holds the pool as each coming pass finds it.  [None]: the loop is
    still going after all of them. *)
Fixpoint monitor_loop (size : nat) (passes : list (list thread)) (done : list string)
  : option (list string) :=
  if List.length done <? size then
    match passes with
    | [] => None
    | pool :: later => monitor_loop size later (monitor_pass pool done)
    end
  else Some done.

Lemma not_in_false (n : string) (done : list string) :
  not_in n done = false <-> In n done.
Proof.
  unfold not_in. rewrite Bool.negb_false_iff, existsb_exists. split.
  - intros (x & Hx & He). apply String.eqb_eq in He. subst x. exact Hx.
  - intros H. exists n. split; [exact H | apply String.eqb_refl].
Qed.

Lemma not_in_true (n : string) (done : list string) :
  not_in n done = true <-> ~ In n done.
Proof.
  rewrite <- not_in_false. destruct (not_in n done); split; congruence.
Qed.

(** What a pass keeps and what it adds. *)
Lemma monitor_pass_spec (pool : list thread) : forall done,
  NoDup done ->
  NoDup (monitor_pass pool done) /\
  incl done (monitor_pass pool done) /\
  (forall n, In n (monitor_pass pool done) ->
     In n done \/ exists th, In th pool /\ th_name th = n /\ is_finished th = true) /\
  (forall th, In th pool -> is_finished th = true ->
     In (th_name th) (monitor_pass pool done)).
Proof.
  unfold monitor_pass.
  induction pool as [|x pool IH]; intros done Hnd; simpl.
  - repeat split; try assumption.
    + intros n Hn. exact Hn.
    + intros n Hn. left. exact Hn.
    + intros th [].
  - set (done' := if negb (is_alive x) && not_in (th_name x) done
                  then done ++ [th_name x] else done).
    assert (Hnd' : NoDup done').
    { unfold done'. destruct (negb (is_alive x)); simpl; [|exact Hnd].
      destruct (not_in (th_name x) done) eqn:Hin; [|exact Hnd].
      apply not_in_true in Hin. apply NoDup_app; [exact Hnd | |].
      - constructor; [intros [] | constructor].
      - intros n Hn [<-|[]]. exact (Hin Hn). }
    assert (Hinc : incl done done').
    { unfold done'. destruct (negb (is_alive x) && not_in (th_name x) done);
        intros n Hn; [apply in_or_app; left|]; exact Hn. }
    assert (Hfrom : forall n, In n done' ->
              In n done \/ (th_name x = n /\ is_finished x = true)).
    { unfold done'. intros n Hn. unfold is_alive in Hn.
      destruct (is_finished x); simpl in Hn; [|left; exact Hn].
      destruct (not_in (th_name x) done); [|left; exact Hn].
      apply in_app_or in Hn as [Hn|[<-|[]]]; [left; exact Hn | right; split; reflexivity]. }
    assert (Hx : is_finished x = true -> In (th_name x) done').
    { unfold done', is_alive. intros ->. simpl.
      destruct (not_in (th_name x) done) eqn:Hin.
      - apply in_or_app. right. left. reflexivity.
      - apply not_in_false. exact Hin. }
    destruct (IH done' Hnd') as (H1 & H2 & H3 & H4).
    split; [exact H1|]. split; [|split].
    + intros n Hn. apply H2. apply Hinc. exact Hn.
    + intros n Hn. destruct (H3 n Hn) as [Hd|(th & Hth & Hname & Hfin)].
      * destruct (Hfrom n Hd) as [Hd0|[Hname Hfin]]; [left; exact Hd0|].
        right. exists x. split; [left; reflexivity | split; assumption].
      * right. exists th. split; [right; exact Hth | split; assumption].
    + intros th [<-|Hth] Hfin; [apply H2; apply Hx; exact Hfin | apply H4; assumption].
Qed.

Lemma monitor_loop_done (size : nat) (passes : list (list thread)) (done : list string) :
  size <= List.length done -> monitor_loop size passes done = Some done.
Proof.
  intros H. apply Nat.ltb_ge in H. destruct passes; simpl; rewrite H; reflexivity.
Qed.

(** A loop that ended made some of the passes, [used]; its set holds
    [size] names at least, each put there for a thread found ended. *)
Lemma monitor_loop_inv (size : nat) : forall passes done d,
  NoDup done ->
  monitor_loop size passes done = Some d ->
  exists used later,
    passes = used ++ later /\
    monitor_loop size used done = Some d /\
    NoDup d /\ size <= List.length d /\
    forall n, In n d ->
      In n done \/
      exists pool th, In pool used /\ In th pool /\ th_name th = n /\ is_finished th = true.
Proof.
  induction passes as [|pool rest IH]; intros done d Hnd H; simpl in H.
  - destruct (List.length done <? size) eqn:Hlt; [discriminate|]. injection H as <-.
    apply Nat.ltb_ge in Hlt.
    exists [], []. repeat split; try assumption.
    + apply monitor_loop_done. exact Hlt.
    + intros n Hn. left. exact Hn.
  - destruct (List.length done <? size) eqn:Hlt.
    + destruct (monitor_pass_spec pool done Hnd) as (H1 & _ & H3 & _).
      destruct (IH _ _ H1 H) as (used & later & -> & Hrun & Hd & Hsize & Hfrom).
      exists (pool :: used), later. split; [reflexivity|].
      split; [simpl; rewrite Hlt; exact Hrun|].
      split; [exact Hd|]. split; [exact Hsize|].
      intros n Hn. destruct (Hfrom n Hn) as [Hp|(pl & th & Hpl & Hth & Hname & Hfin)].
      * destruct (H3 n Hp) as [Hdone|(th & Hth & Hname & Hfin)]; [left; exact Hdone|].
        right. exists pool, th. repeat split; try assumption. left. reflexivity.
      * right. exists pl, th. repeat split; try assumption. right. exact Hpl.
    + injection H as <-. apply Nat.ltb_ge in Hlt.
      exists [], (pool :: rest). repeat split; try assumption.
      * apply monitor_loop_done. exact Hlt.
      * intros n Hn. left. exact Hn.
Qed.

(** X9.  [monitor] returns only after it has found every thread of the
    pool ended: when the loop over a pool with the names [names] ends
    after the passes [used], then for every entry of the pool one of
    these passes found its thread ended; the names are pairwise
    different, and the set [done] holds each of them once (the bar has
    moved once per job). *)
Theorem monitor_waits_for_all (names : list string) (passes : list (list thread))
  (done : list string) :
  Forall (fun pool => map th_name pool = names) passes ->
  monitor_loop (List.length names) passes [] = Some done ->
  exists used later,
    passes = used ++ later /\
    monitor_loop (List.length names) used [] = Some done /\
    Permutation done names /\
    forall i n, nth_error names i = Some n ->
      exists pool th,
        In pool used /\ nth_error pool i = Some th /\ is_finished th = true.
Proof.
  intros Hnames H.
  destruct (monitor_loop_inv _ _ _ _ (NoDup_nil _) H)
    as (used & later & -> & Hrun & Hnd & Hsize & Hfrom).
  apply Forall_app in Hnames as [Hused _].
  rewrite Forall_forall in Hused.
  assert (Hseen : forall n, In n done ->
            exists pool th, In pool used /\ In th pool /\ th_name th = n /\
                            is_finished th = true).
  { intros n Hn. destruct (Hfrom n Hn) as [[]|Hs]. exact Hs. }
  assert (Hinc : incl done names).
  { intros n Hn. destruct (Hseen n Hn) as (pool & th & Hp & Hth & <- & _).
    rewrite <- (Hused pool Hp). apply in_map. exact Hth. }
  assert (Hnd' : NoDup names) by (exact (NoDup_incl_NoDup Hnd Hsize Hinc)).
  assert (Hinc' : incl names done) by (exact (NoDup_length_incl Hnd Hsize Hinc)).
  exists used, later. split; [reflexivity|]. split; [exact Hrun|]. split.
  - apply NoDup_Permutation; try assumption. intros x. split; [apply Hinc | apply Hinc'].
  - intros i n Hi.
    destruct (Hseen n (Hinc' n (nth_error_In _ _ Hi))) as (pool & th & Hp & Hth & Hname & Hfin).
    exists pool, th. split; [exact Hp|]. split; [|exact Hfin].
    destruct (In_nth_error _ _ Hth) as (j & Hj).
    assert (Hnj : nth_error names j = Some n).
    { rewrite <- (Hused pool Hp), nth_error_map, Hj. simpl. rewrite Hname. reflexivity. }
    assert (Hij : i = j).
    { rewrite NoDup_nth_error in Hnd'. apply Hnd'.
      - apply nth_error_Some. rewrite Hi. discriminate.
      - rewrite Hi, Hnj. reflexivity. }
    subst j. exact Hj.
Qed.

Lemma monitor_loop_ends (names : list string) (pool : list thread)
  (later : list (list thread)) :
  NoDup names ->
  map th_name pool = names ->
  Forall (fun th => is_finished th = true) pool ->
  forall earlier done,
    Forall (fun p => map th_name p = names) earlier ->
    NoDup done -> incl done names ->
    exists d,
      monitor_loop (List.length names) (earlier ++ pool :: later) done = Some d /\
      NoDup d /\ incl d names /\ List.length names <= List.length d.
Proof.
  intros Hnd Hpool Hfin.
  assert (Hstep : forall p done, map th_name p = names -> NoDup done -> incl done names ->
            NoDup (monitor_pass p done) /\ incl (monitor_pass p done) names).
  { intros p done Hp Hd Hinc. destruct (monitor_pass_spec p done Hd) as (H1 & _ & H3 & _).
    split; [exact H1|]. intros n Hn.
    destruct (H3 n Hn) as [Hdn|(th & Hth & <- & _)]; [apply Hinc; exact Hdn|].
    rewrite <- Hp. apply in_map. exact Hth. }
  induction earlier as [|p earlier IH]; intros done Hearlier Hd Hinc; simpl.
  - destruct (List.length done <? List.length names) eqn:Hlt.
    + destruct (Hstep pool done Hpool Hd Hinc) as (H1 & H2).
      destruct (monitor_pass_spec pool done Hd) as (_ & _ & _ & H4).
      assert (Hlen : List.length names <= List.length (monitor_pass pool done)).
      { apply NoDup_incl_length; [exact Hnd|]. intros n Hn. rewrite <- Hpool in Hn.
        apply in_map_iff in Hn as (th & <- & Hth). apply H4; [exact Hth|].
        rewrite Forall_forall in Hfin. exact (Hfin th Hth). }
      exists (monitor_pass pool done). split; [apply monitor_loop_done; exact Hlen|].
      repeat split; assumption.
    + apply Nat.ltb_ge in Hlt. exists done. repeat split; assumption.
  - destruct (List.length done <? List.length names) eqn:Hlt.
    + apply Forall_cons_iff in Hearlier as [Hp Hearlier].
      destruct (Hstep p done Hp Hd Hinc) as (H1 & H2).
      exact (IH _ Hearlier H1 H2).
    + apply Nat.ltb_ge in Hlt. exists done. repeat split; assumption.
Qed.

(** X10.  With pairwise different names, [monitor] ends at the latest
    with the pass that finds every thread ended, whatever the passes
    before it found; the set then holds every name once. *)
Theorem monitor_ends_when_all_ended (names : list string)
  (earlier : list (list thread)) (pool : list thread) (later : list (list thread)) :
  NoDup names ->
  Forall (fun p => map th_name p = names) (earlier ++ [pool]) ->
  Forall (fun th => is_finished th = true) pool ->
  exists done,
    monitor_loop (List.length names) (earlier ++ pool :: later) [] = Some done /\
    Permutation done names.
Proof.
  intros Hnd Hnames Hfin. apply Forall_app in Hnames as [Hearlier Hpool].
  apply Forall_cons_iff in Hpool as [Hpool _].
  destruct (monitor_loop_ends names pool later Hnd Hpool Hfin earlier []
              Hearlier (NoDup_nil _) (incl_nil_l _)) as (d & Hrun & Hd & Hinc & Hlen).
  exists d. split; [exact Hrun|].
  apply NoDup_Permutation; try assumption. intros x. split; [apply Hinc|].
  exact (NoDup_length_incl Hd Hlen Hinc x).
Qed.

(** X11.  When two entries of the pool have the same name, [monitor]
    never returns: the set of names stays smaller than the pool, whatever
    the passes find and however many there are, also when every thread
    has ended. *)
Theorem monitor_never_ends_with_shared_name (names : list string)
  (passes : list (list thread)) :
  ~ NoDup names ->
  Forall (fun p => map th_name p = names) passes ->
  monitor_loop (List.length names) passes [] = None.
Proof.
  intros Hdup Hnames.
  enough (Hgen : forall done, NoDup done -> incl done names ->
            monitor_loop (List.length names) passes done = None)
    by (exact (Hgen [] (NoDup_nil _) (incl_nil_l _))).
  induction Hnames as [|p passes Hp _ IH]; intros done Hd Hinc; simpl.
  - destruct (List.length done <? List.length names) eqn:Hlt; [reflexivity|].
    apply Nat.ltb_ge in Hlt. exfalso. apply Hdup. exact (NoDup_incl_NoDup Hd Hlt Hinc).
  - destruct (List.length done <? List.length names) eqn:Hlt.
    + destruct (monitor_pass_spec p done Hd) as (H1 & _ & H3 & _).
      apply IH; [exact H1|]. intros n Hn.
      destruct (H3 n Hn) as [Hdn|(th & Hth & <- & _)]; [apply Hinc; exact Hdn|].
      rewrite <- Hp. apply in_map. exact Hth.
    + apply Nat.ltb_ge in Hlt. exfalso. apply Hdup. exact (NoDup_incl_NoDup Hd Hlt Hinc).
Qed.

(** ** When a diff job is submitted *)

(** The world in which [load_and_run] executes the fetch script of the
    target directory [t]: the line for the target is logged, and with
    [force] the file [version.log] of the target is gone. *)
Definition script_world (t : path) (force : bool) (w : world) : world :=
  let w1 := {| fs := fs w;
               stdout := stdout w ++ [fstr ["[*] Fetch script for "; name t]];
               llm_calls := llm_calls w; procs := procs w |} in
  if force && fs_exists (fs w) (abs (t // "version.log"))
  then set_fs (fun f => fs_remove f (abs (t // "version.log"))) w1
  else w1.

(** The thread [load_and_run] starts for the paths [old] and [new]. *)
Definition job_for (t old new : path) : thread :=
  {| th_name := name t; th_dir := t; th_old := old; th_new := new; th_pc := Waiting |}.

(** The thread for a pair of strings. *)
Definition job (t : path) (old new : string) : thread :=
  job_for t (Path old) (Path new).

(** How [load_and_run] ends after [check_and_download()]: it starts a
    thread, logs a line, or raises. *)
Inductive outcome : Type :=
| Starts (th : thread)
| Logs (line : string)
| Fails (e : exn).

(** What [load_and_run] does with the value of [check_and_download()]. *)
Definition verdict (t : path) (res : fetch_res) : outcome :=
  match res with
  | ResTuple a b =>
      if truth_of a && truth_of b
      then match to_path a with
           | Ok old =>
               match to_path b with
               | Ok new => Starts (job_for t old new)
               | Raise e => Fails e
               end
           | Raise e => Fails e
           end
      else Logs (fstr ["[!] Unexpected result: ("; repr_of a; ", "; repr_of b; ")"])
  | ResFalse => Logs "[*] No update."
  | ResOther text => Logs (fstr ["[!] Unexpected result: "; text])
  end.

Lemma log_threads line st r st' :
  log line st = (r, st') ->
  r = Ok tt /\ ghidriff_threads st' = ghidriff_threads st /\ loaded st' = loaded st /\
  fs (os st') = fs (os st) /\ stdout (os st') = stdout (os st) ++ [line].
Proof. unfold log, in_os, print. intros [= <- <-]. repeat split. Qed.

(** X12.  [load_and_run] starts a thread only for a tuple of two true
    objects of which [Path] makes paths (two non-empty strings, say)
    that [check_and_download] of the target's own script returned: when
    a call has changed [ghidriff_threads], the target directory was
    resolved, [fetch_target.py] is a file in it, the script was executed
    in the world [script_world] (nothing deleted without [force]; with
    [force] only the target's [version.log]), its [check_and_download]
    returned such a tuple, the call returned normally, and exactly one
    thread was added, waiting, named after the target directory, with the
    two paths.  No test is made that the two objects are strings. *)
Theorem load_and_run_starts_thread target_name force st r st' :
  load_and_run target_name force st = (r, st') ->
  ghidriff_threads st' <> ghidriff_threads st ->
  exists t check_and_download w1 a b old new w2,
    resolve_target_dir target_name st = (Ok t, st) /\
    fs_is_file (fs (script_world t force (os st))) (abs (t // SCRIPT_NAME)) = true /\
    os_exec_module pf (t // SCRIPT_NAME) (script_world t force (os st))
      = (Ok (Some check_and_download), w1) /\
    check_and_download w1 = (Ok (ResTuple a b), w2) /\
    truth_of a = true /\ truth_of b = true /\
    to_path a = Ok old /\ to_path b = Ok new /\
    (forall s, a = PStr s -> s <> "" /\ old = Path s) /\
    (forall s, b = PStr s -> s <> "" /\ new = Path s) /\
    r = Ok tt /\ os st' = w2 /\
    ghidriff_threads st' = ghidriff_threads st ++ [job_for t old new].
Proof.
  intros H Hne. unfold load_and_run in H.
  apply bind_cases in H as [(t & st1 & Hres & H)|(e & Hres & _)].
  2:{ apply resolve_target_dir_inv in Hres as [-> _]. contradiction Hne. reflexivity. }
  pose proof (resolve_target_dir_inv _ _ _ _ Hres) as [-> _].
  apply bind_cases in H as [(u & st2 & Hlog & H)|(e & Hlog & _)];
    [|unfold log, in_os, print in Hlog; discriminate Hlog].
  unfold log, in_os, print in Hlog. injection Hlog as _ <-.
  apply bind_cases in H as [(has_log & st3 & Hex & H)|(e & Hex & _)];
    [|discriminate Hex].
  injection Hex as <- <-. cbn [os with_os fs] in H.
  apply bind_cases in H as [(u2 & st4 & Hun & H)|(e & Hun & _)].
  2:{ exfalso. apply Hne. destruct (force && _) in Hun.
      - exact (frame_unlink ghidriff_threads _ os_blind_threads _ _ _ Hun).
      - injection Hun as _ <-. reflexivity. }
  assert (Hst4 : st4 = with_os (script_world t force (os st)) st).
  { unfold script_world. destruct (force && _) in Hun |- *.
    - unfold unlink, in_os in Hun. cbn [os with_os fs] in Hun.
      destruct (fs_is_file _ _); [|discriminate Hun]. injection Hun as _ <-. reflexivity.
    - injection Hun as _ <-. reflexivity. }
  subst st4. clear Hun.
  apply bind_cases in H as [(there & st5 & Hfile & H)|(e & Hfile & _)];
    [|discriminate Hfile].
  injection Hfile as <- <-. cbn [os with_os] in H.
  destruct (fs_is_file (fs (script_world t force (os st))) (abs (t // SCRIPT_NAME)))
    eqn:Hthere; simpl negb in H; cbv iota in H.
  2:{ exfalso. apply Hne. apply log_threads in H as (_ & Ht & _). exact Ht. }
  apply bind_cases in H as [(module & st6 & Hexec & H)|(e & Hexec & _)].
  2:{ exfalso. apply Hne.
      exact (exec_module_keeps ghidriff_threads _ (fun _ _ _ => eq_refl) _ _ _ Hexec). }
  unfold exec_module in Hexec. cbn [os with_os loaded sema ghidriff_threads analyze_queue]
    in Hexec.
  destruct (os_exec_module pf (t // SCRIPT_NAME) (script_world t force (os st)))
    as [rm w1] eqn:Hmod.
  injection Hexec as -> <-.
  destruct module as [check_and_download|].
  2:{ exfalso. apply Hne. apply log_threads in H as (_ & Ht & _). exact Ht. }
  apply bind_cases in H as [(res & st7 & Hcall & H)|(e & Hcall & _)].
  2:{ exfalso. apply Hne.
      exact (respects_in_os ghidriff_threads _ os_blind_threads _ _ _ Hcall). }
  unfold in_os in Hcall. cbn [os] in Hcall.
  destruct (check_and_download w1) as [rr w2] eqn:Hcheck.
  injection Hcall as -> <-.
  destruct res as [a b| |text];
    try (exfalso; apply Hne; apply log_threads in H as (_ & Ht & _); exact Ht).
  destruct (truth_of a) eqn:Ha; simpl in H;
    [|exfalso; apply Hne; apply log_threads in H as (_ & Ht & _); exact Ht].
  destruct (truth_of b) eqn:Hb; simpl in H;
    [|exfalso; apply Hne; apply log_threads in H as (_ & Ht & _); exact Ht].
  unfold bind, lift in H.
  destruct (to_path a) as [old|e] eqn:Hold;
    [|exfalso; apply Hne; injection H as _ <-; reflexivity].
  destruct (to_path b) as [new|e] eqn:Hnew;
    [|exfalso; apply Hne; injection H as _ <-; reflexivity].
  unfold start_thread in H. injection H as <- <-.
  exists t, check_and_download, w1, a, b, old, new, w2.
  repeat split; try assumption.
  - subst a. simpl in Ha. intros ->. discriminate Ha.
  - subst a. simpl in Hold. injection Hold as <-. reflexivity.
  - subst b. simpl in Hb. intros ->. discriminate Hb.
  - subst b. simpl in Hnew. injection Hnew as <-. reflexivity.
Qed.

(** X13.  Once [check_and_download] has returned a value, [load_and_run]
    has executed the one script and ends as [verdict] says.  For a tuple
    of two true objects of which [Path] makes paths it starts one
    thread.  For a tuple of two true objects one of which [Path] refuses
    (two numbers, say) the [TypeError] of [Path] leaves [load_and_run]
    and nothing is started.  For [False] it logs [[*] No update.]; for a
    tuple with a false member or any other value it logs
    [[!] Unexpected result: ...] with the text of the value.  In the last
    three cases no thread is started and no file is touched after the
    script. *)
Theorem load_and_run_verdict target_name force st t check_and_download w1 res w2 :
  resolve_target_dir target_name st = (Ok t, st) ->
  (force && fs_exists (fs (os st)) (abs (t // "version.log")) = true ->
   fs_is_file (fs (os st)) (abs (t // "version.log")) = true) ->
  fs_is_file (fs (script_world t force (os st))) (abs (t // SCRIPT_NAME)) = true ->
  os_exec_module pf (t // SCRIPT_NAME) (script_world t force (os st))
    = (Ok (Some check_and_download), w1) ->
  check_and_download w1 = (Ok res, w2) ->
  exists r st',
    load_and_run target_name force st = (r, st') /\
    loaded st' = loaded st ++ [t // SCRIPT_NAME] /\
    match verdict t res with
    | Starts th =>
        r = Ok tt /\ os st' = w2 /\ ghidriff_threads st' = ghidriff_threads st ++ [th]
    | Logs line =>
        r = Ok tt /\ fs (os st') = fs w2 /\ stdout (os st') = stdout w2 ++ [line] /\
        ghidriff_threads st' = ghidriff_threads st
    | Fails e =>
        r = Raise e /\ os st' = w2 /\ ghidriff_threads st' = ghidriff_threads st
    end.
Proof.
  intros Hres Hlog Hthere Hmod Hcheck.
  unfold load_and_run. rewrite (bind_ok _ _ _ _ _ Hres).
  unfold bind at 1. unfold log at 1, in_os at 1, print at 1.
  unfold bind at 1. unfold exists_ at 1. cbn [os with_os fs].
  assert (Hpre : forall k : unit -> D unit,
            bind (if force && fs_exists (fs (os st)) (abs (t // "version.log"))
                  then unlink (t // "version.log") else ret tt) k
              (with_os {| fs := fs (os st);
                          stdout := stdout (os st) ++
                                    [fstr ["[*] Fetch script for "; name t]];
                          llm_calls := llm_calls (os st); procs := procs (os st) |} st)
            = k tt (with_os (script_world t force (os st)) st)).
  { intros k. unfold script_world.
    destruct (force && fs_exists (fs (os st)) (abs (t // "version.log"))).
    - unfold bind, unlink, in_os. cbn [os with_os fs]. rewrite (Hlog eq_refl). reflexivity.
    - reflexivity. }
  rewrite Hpre. clear Hpre.
  unfold bind at 1. unfold is_file at 1. cbn [os with_os]. rewrite Hthere.
  cbn [negb].
  unfold bind at 1. unfold exec_module at 1. cbn [os with_os]. rewrite Hmod.
  unfold bind at 1. unfold in_os at 1. cbn [os]. rewrite Hcheck.
  destruct res as [a b| |text]; simpl verdict.
  - destruct (truth_of a && truth_of b).
    + unfold bind, lift. destruct (to_path a) as [old|e].
      * destruct (to_path b) as [new|e].
        -- unfold start_thread. eexists _, _. split; [reflexivity|]. repeat split.
        -- eexists _, _. split; [reflexivity|]. repeat split.
      * eexists _, _. split; [reflexivity|]. repeat split.
    + unfold log, in_os, print. eexists _, _. split; [reflexivity|]. repeat split.
  - unfold log, in_os, print. eexists _, _. split; [reflexivity|]. repeat split.
  - unfold log, in_os, print. eexists _, _. split; [reflexivity|]. repeat split.
Qed.

(** [load_and_run] from the call of [check_and_download] on. *)
Lemma load_and_run_runs_script target_name force st t check_and_download w1 :
  resolve_target_dir target_name st = (Ok t, st) ->
  (force && fs_exists (fs (os st)) (abs (t // "version.log")) = true ->
   fs_is_file (fs (os st)) (abs (t // "version.log")) = true) ->
  fs_is_file (fs (script_world t force (os st))) (abs (t // SCRIPT_NAME)) = true ->
  os_exec_module pf (t // SCRIPT_NAME) (script_world t force (os st))
    = (Ok (Some check_and_download), w1) ->
  load_and_run target_name force st =
    let after (w2 : world) :=
      {| os := w2; loaded := loaded st ++ [t // SCRIPT_NAME]; sema := sema st;
         ghidriff_threads := ghidriff_threads st; analyze_queue := analyze_queue st |} in
    match check_and_download w1 with
    | (Ok res, w2) =>
        match verdict t res with
        | Starts th => start_thread t (th_old th) (th_new th) (after w2)
        | Logs line => log line (after w2)
        | Fails e => (Raise e, after w2)
        end
    | (Raise e, w2) => (Raise e, after w2)
    end.
Proof.
  intros Hres Hlog Hthere Hmod.
  unfold load_and_run. rewrite (bind_ok _ _ _ _ _ Hres).
  unfold bind at 1. unfold log at 1, in_os at 1, print at 1.
  unfold bind at 1. unfold exists_ at 1. cbn [os with_os fs].
  assert (Hpre : forall k : unit -> D unit,
            bind (if force && fs_exists (fs (os st)) (abs (t // "version.log"))
                  then unlink (t // "version.log") else ret tt) k
              (with_os {| fs := fs (os st);
                          stdout := stdout (os st) ++
                                    [fstr ["[*] Fetch script for "; name t]];
                          llm_calls := llm_calls (os st); procs := procs (os st) |} st)
            = k tt (with_os (script_world t force (os st)) st)).
  { intros k. unfold script_world.
    destruct (force && fs_exists (fs (os st)) (abs (t // "version.log"))).
    - unfold bind, unlink, in_os. cbn [os with_os fs]. rewrite (Hlog eq_refl). reflexivity.
    - reflexivity. }
  rewrite Hpre. clear Hpre.
  unfold bind at 1. unfold is_file at 1. cbn [os with_os]. rewrite Hthere.
  cbn [negb].
  unfold bind at 1. unfold exec_module at 1. cbn [os with_os]. rewrite Hmod.
  unfold bind at 1. unfold in_os at 1. cbn [os].
  destruct (check_and_download w1) as [[res|e] w2]; [|reflexivity].
  destruct res as [a b| |text]; simpl verdict; try reflexivity.
  destruct (truth_of a && truth_of b); [|reflexivity].
  unfold bind, lift. destruct (to_path a) as [old|e]; [|reflexivity].
  destruct (to_path b) as [new|e]; reflexivity.
Qed.

(** ** The archive of a finished job *)

Lemma strip_parts_self (d rest : path) : strip_parts d (d ++ rest) = Some rest.
Proof.
  induction d as [|x d IH]; simpl; [reflexivity|]. rewrite String.eqb_refl. exact IH.
Qed.

Lemma strip_parts_none (d p rest : path) : strip_parts d p = None -> p <> d ++ rest.
Proof. intros H ->. rewrite strip_parts_self in H. discriminate H. Qed.

Lemma strip_parts_fork (b l1 l2 : path) (x y : string) :
  x <> y -> strip_parts (b ++ x :: l1) (b ++ y :: l2) = None.
Proof.
  intros Hxy. induction b as [|c b IH]; simpl.
  - apply String.eqb_neq in Hxy. rewrite Hxy. reflexivity.
  - rewrite String.eqb_refl. exact IH.
Qed.

Lemma path_eqb_app_l (d a b : path) : path_eqb (d ++ a) (d ++ b) = path_eqb a b.
Proof.
  induction d as [|x d IH]; simpl; [reflexivity|]. rewrite String.eqb_refl. exact IH.
Qed.

Lemma fs_lookup_none_head (q : path) (n : fnode) (g : filesystem) (p : path) :
  fs_lookup ((q, n) :: g) p = None -> path_eqb q p = false /\ fs_lookup g p = None.
Proof.
  simpl. destruct (path_eqb q p); [discriminate | intros H; split; [reflexivity | exact H]].
Qed.

(** After a move of [src] to a place [dst] where nothing was, what was
    at [src ++ rest] is at [dst ++ rest]. *)
Lemma fs_lookup_rename_to (g : filesystem) (src dst rest : path) :
  fs_lookup g (dst ++ rest) = None ->
  fs_lookup (fs_rename g src dst) (dst ++ rest) = fs_lookup g (src ++ rest).
Proof.
  unfold fs_rename. induction g as [|[q n] g IH]; intros Hfree; [reflexivity|].
  apply fs_lookup_none_head in Hfree as (Hq & Hfree). simpl.
  destruct (strip_parts src q) as [r|] eqn:Hs; simpl.
  - apply strip_parts_app in Hs. subst q. rewrite !path_eqb_app_l.
    destruct (path_eqb r rest); [reflexivity | exact (IH Hfree)].
  - rewrite Hq.
    replace (path_eqb q (src ++ rest)) with false; [exact (IH Hfree)|].
    symmetry. apply path_eqb_neq. exact (strip_parts_none _ _ _ Hs).
Qed.

(** Nothing is left at the old place. *)
Lemma fs_lookup_rename_from (g : filesystem) (src dst rest : path) :
  (forall r, dst ++ r <> src ++ rest) ->
  fs_lookup (fs_rename g src dst) (src ++ rest) = None.
Proof.
  intros Hne. unfold fs_rename. induction g as [|[q n] g IH]; [reflexivity|]. simpl.
  destruct (strip_parts src q) as [r|] eqn:Hs; simpl.
  - replace (path_eqb (dst ++ r) (src ++ rest)) with false; [exact IH|].
    symmetry. apply path_eqb_neq. apply Hne.
  - replace (path_eqb q (src ++ rest)) with false; [exact IH|].
    symmetry. apply path_eqb_neq. exact (strip_parts_none _ _ _ Hs).
Qed.

(** [fs_makedirs] keeps what is there, and what it adds are directories
    on the way to the path. *)
Lemma fs_makedirs_from_keeps (rest : path) : forall f above p n,
  fs_lookup f p = Some n -> fs_lookup (fs_makedirs_from f above rest) p = Some n.
Proof.
  induction rest as [|x rest IH]; intros f above p n Hp; simpl; [exact Hp|].
  apply IH. unfold fs_mkdir.
  destruct (fs_lookup f (above ++ [x])) as [[|c]|]; try exact Hp.
  rewrite fs_lookup_app, Hp. reflexivity.
Qed.

Lemma fs_makedirs_from_adds (rest : path) : forall f above p n,
  fs_lookup (fs_makedirs_from f above rest) p = Some n ->
  fs_lookup f p = Some n \/
  exists l l', l <> [] /\ rest = l ++ l' /\ p = above ++ l.
Proof.
  induction rest as [|x rest IH]; intros f above p n Hp; simpl in Hp; [left; exact Hp|].
  apply IH in Hp as [Hp|(l & l' & Hl & -> & ->)].
  - unfold fs_mkdir in Hp.
    destruct (fs_lookup f (above ++ [x])) as [[|c]|]; try (left; exact Hp).
    rewrite fs_lookup_app in Hp. destruct (fs_lookup f p) as [m|]; [left; exact Hp|].
    simpl in Hp. destruct (path_eqb (above ++ [x]) p) eqn:He; [|discriminate Hp].
    apply path_eqb_eq in He. subst p. right. exists [x], rest.
    split; [discriminate | split; reflexivity].
  - right. exists (x :: l), l'. split; [discriminate|].
    split; [reflexivity | rewrite <- app_assoc; reflexivity].
Qed.

Lemma abs_app (t l : path) : is_absolute l = false -> abs (t ++ l) = abs t ++ l.
Proof.
  intros Hl. unfold abs, joinpath. destruct t as [|r t]; simpl.
  - rewrite Hl, app_nil_r. reflexivity.
  - destruct (String.prefix "/" r); [reflexivity | rewrite <- app_assoc; reflexivity].
Qed.

(** The name of an archive directory: the parts of [ghidriffs_<ts>], of
    which there is one at least, and none is a root. *)
Lemma Path_stamp (ts : string) :
  exists c cs,
    Path (String.append "ghidriffs_" ts) = c :: cs /\ is_absolute (c :: cs) = false.
Proof.
  assert (Hsplit : exists h t,
            split_on "/" (String.append "ghidriffs_" ts) = String "g" h :: t).
  { change (String.append "ghidriffs_" ts)
      with (String "g" (String.append "hidriffs_" ts)).
    cbn [split_on]. change (Ascii.eqb "g" "/") with false. cbv iota.
    destruct (split_on "/" (String.append "hidriffs_" ts)); eexists _, _; reflexivity. }
  destruct Hsplit as (h & t & Hsplit).
  unfold Path. rewrite Hsplit.
  change (String.prefix "/" (String.append "ghidriffs_" ts)) with false. cbv iota.
  cbn [filter]. change (negb (String "g" h =? "")%string) with true.
  change (negb (String "g" h =? ".")%string) with true. cbn [andb].
  eexists _, _. split; reflexivity.
Qed.

(** The two directories of [run_ghidriff_diff] below the target
    directory. *)
Lemma job_directories (t_dir : path) (ts : string) :
  exists c cs,
    abs (t_dir // "ghidriffs") = abs t_dir ++ ["ghidriffs"] /\
    abs (t_dir // "archive" // String.append "ghidriffs_" ts)
      = abs t_dir ++ "archive" :: c :: cs.
Proof.
  destruct (Path_stamp ts) as (c & cs & HP & Habs). exists c, cs. split.
  - apply (abs_app t_dir ["ghidriffs"]). reflexivity.
  - unfold child at 1. unfold joinpath at 1. rewrite HP, Habs.
    change (t_dir // "archive") with (t_dir ++ ["archive"]).
    rewrite <- app_assoc. apply (abs_app t_dir ("archive" :: c :: cs)). reflexivity.
Qed.

Lemma strip_parts_differ (src dst : path) :
  strip_parts src dst = None -> path_eqb src dst = false.
Proof.
  intros Hs. destruct (path_eqb src dst) eqn:E; [|reflexivity].
  apply path_eqb_eq in E. subst dst. rewrite <- (app_nil_r src) in Hs at 2.
  rewrite strip_parts_self in Hs. discriminate Hs.
Qed.

Lemma move_target_fresh (f : filesystem) (src dst : path) :
  fs_is_dir f src = true -> fs_lookup f dst = None -> strip_parts src dst = None ->
  fs_file_above f dst = false ->
  move_target f src dst = Ok dst.
Proof.
  unfold move_target, fs_exists, fs_is_dir, fs_is_file. intros Hsrc Hdst Hs Hab.
  destruct (fs_lookup f src) as [[|c]|]; try discriminate Hsrc.
  rewrite Hdst. simpl. rewrite (strip_parts_differ _ _ Hs), Hs, Hdst, Hab. reflexivity.
Qed.

(** The files after a directory was moved to a fresh place [dst] that is
    not inside it and whose parent is not inside it either. *)
Lemma moved_directory (f : filesystem) (b : path) (x y : string) (l rest : path) :
  x <> y ->
  (forall r, fs_lookup f ((b ++ y :: l) ++ r) = None) ->
  let src := b ++ [x] in
  let dst := b ++ y :: l in
  let f' := fs_rename (fs_remove (fs_makedirs f (removelast dst)) dst) src dst in
  fs_lookup f' (dst ++ rest) = fs_lookup f (src ++ rest) /\
  fs_lookup f' (src ++ rest) = None.
Proof.
  intros Hxy Hfree src dst f'.
  assert (Hfork : forall r r', dst ++ r <> src ++ r').
  { intros r r' H. unfold dst, src in H. rewrite <- !app_assoc in H.
    apply app_inv_head in H. simpl in H. injection H as H _. exact (Hxy (eq_sym H)). }
  assert (Hlast : dst = removelast dst ++ [last dst ""]).
  { apply app_removelast_last. unfold dst. destruct b; discriminate. }
  split; [|apply fs_lookup_rename_from; intros r; apply Hfork].
  unfold f'. rewrite fs_lookup_rename_to.
  - rewrite fs_lookup_remove.
    replace (path_eqb dst (src ++ rest)) with false.
    2:{ symmetry. apply path_eqb_neq. rewrite <- (app_nil_r dst). apply Hfork. }
    unfold fs_makedirs.
    destruct (fs_lookup f (src ++ rest)) as [n|] eqn:Hf.
    + apply fs_makedirs_from_keeps. exact Hf.
    + destruct (fs_lookup (fs_makedirs_from f [] (removelast dst)) (src ++ rest))
        as [n|] eqn:Hm; [|reflexivity].
      apply fs_makedirs_from_adds in Hm as [Hm|(l1 & l2 & _ & Hrem & Hp)]; [congruence|].
      exfalso. simpl in Hp. rewrite Hrem, <- Hp, <- !app_assoc in Hlast.
      apply (Hfork [] (rest ++ l2 ++ [last dst ""])). rewrite app_nil_r. exact Hlast.
  - rewrite fs_lookup_remove.
    destruct (path_eqb dst (dst ++ rest)); [reflexivity|].
    unfold fs_makedirs.
    destruct (fs_lookup (fs_makedirs_from f [] (removelast dst)) (dst ++ rest))
      as [n|] eqn:Hm; [|reflexivity].
    apply fs_makedirs_from_adds in Hm as [Hm|(l1 & l2 & _ & Hrem & Hp)].
    + pose proof (Hfree rest) as Hr. fold dst in Hr. congruence.
    + exfalso. simpl in Hp. apply (f_equal (@List.length string)) in Hlast, Hp.
      rewrite Hrem in Hlast. rewrite !length_app in Hlast. rewrite length_app in Hp.
      simpl in Hlast. lia.
Qed.

(** X22.  When the engine ends with status 0 and left a working
    directory, no archive of the new name exists and no file stands where
    a directory above the archive would be (the target's [archive] is no
    file): [run_ghidriff_diff] returns normally; everything below the
    working directory is found at the same place below the archive
    directory
    [<target>/archive/ghidriffs_<time>], the documents of the engine
    among it; the working directory is gone; the line
    [[+] Archived to ...] is logged; and with [ANALYZE] the one entry
    [(target, archive directory)] is put at the end of the analysis
    queue, without [ANALYZE] none. *)
Theorem engine_success_archived t_dir old_f new_f st cmd st1 err f1 :
  ghidriff_setup t_dir old_f new_f st = (Ok cmd, st1) ->
  os_docker pf (fs (os st1)) (procs (os st1)) cmd = (Ok (0%Z, err), f1) ->
  let w2 := {| fs := f1; stdout := stdout (os st1); llm_calls := llm_calls (os st1);
               procs := procs (os st1) ++ [ {| argv := cmd; stdin := "" |} ] |} in
  let diff_dir := t_dir // "ghidriffs" in
  let arch_dir := t_dir // "archive" // String.append "ghidriffs_" (os_now pf w2) in
  fs_is_dir f1 (abs diff_dir) = true ->
  (forall rest, fs_lookup f1 (abs arch_dir ++ rest) = None) ->
  fs_file_above f1 (abs arch_dir) = false ->
  exists st',
    run_ghidriff_diff t_dir old_f new_f st = (Ok tt, st') /\
    (forall rest,
       fs_lookup (fs (os st')) (abs arch_dir ++ rest) = fs_lookup f1 (abs diff_dir ++ rest)) /\
    (forall rest, fs_lookup (fs (os st')) (abs diff_dir ++ rest) = None) /\
    stdout (os st') = stdout (os st1) ++ [fstr ["[+] Archived to "; path_str arch_dir]] /\
    analyze_queue st' =
      analyze_queue st ++ (if ANALYZE cfg then [(name t_dir, arch_dir)] else []).
Proof.
  intros Hsetup Hdocker w2 diff_dir arch_dir Hdir Hfree Habove.
  pose proof (ghidriff_setup_keeps analyze_queue _ _ _ os_blind_queue _ _ _ Hsetup) as Hq.
  unfold keeps in Hq.
  destruct (job_directories t_dir (os_now pf w2)) as (c & cs & Hdiff & Harch).
  fold diff_dir in Hdiff. fold arch_dir in Harch.
  assert (Hfork : strip_parts (abs diff_dir) (abs arch_dir) = None).
  { rewrite Hdiff, Harch. apply strip_parts_fork. discriminate. }
  assert (Hmove : move_target f1 (abs diff_dir) (abs arch_dir) = Ok (abs arch_dir)).
  { apply move_target_fresh; [exact Hdir | | exact Hfork | exact Habove].
    rewrite <- (app_nil_r (abs arch_dir)). apply Hfree. }
  assert (Hfiles : forall rest,
            let f' := fs_rename (fs_remove (fs_makedirs f1 (removelast (abs arch_dir)))
                                   (abs arch_dir)) (abs diff_dir) (abs arch_dir) in
            fs_lookup f' (abs arch_dir ++ rest) = fs_lookup f1 (abs diff_dir ++ rest) /\
            fs_lookup f' (abs diff_dir ++ rest) = None).
  { intros rest. rewrite Hdiff, Harch.
    apply (moved_directory f1 (abs t_dir) "ghidriffs" "archive" (c :: cs) rest).
    - discriminate.
    - intros r. rewrite <- Harch. apply Hfree. }
  unfold run_ghidriff_diff. rewrite (bind_ok _ _ _ _ _ Hsetup).
  unfold docker_run at 1. unfold bind at 1. unfold in_os at 1. rewrite Hdocker.
  unfold ghidriff_finish. change (negb (0 =? 0)%Z) with false. cbv iota.
  unfold bind at 1. cbn [os with_os]. fold w2. fold diff_dir. fold arch_dir.
  unfold bind at 1. unfold shutil_move at 1, in_os at 1. cbn [os with_os fs].
  change (fs w2) with f1. rewrite Hmove, (strip_parts_differ _ _ Hfork).
  unfold bind, log, in_os, print, enqueue, ret.
  destruct (ANALYZE cfg); eexists; (split; [reflexivity|]); cbn [os with_os fs set_fs];
    (split; [intros rest; exact (proj1 (Hfiles rest))|]);
    (split; [intros rest; exact (proj2 (Hfiles rest))|]);
    (split; [reflexivity|]); simpl; rewrite Hq; [reflexivity | rewrite app_nil_r; reflexivity].
Qed.

End Orchestrator.

(** ** A small platform on which the orchestrator can be evaluated *)

(** [Path.resolve] without symbolic links: [..] steps removed. *)
Fixpoint normalize (acc : list string) (p : path) : path :=
  match p with
  | [] => rev acc
  | x :: r =>
      if String.eqb x ".."
      then normalize (match acc with
                      | [] => []
                      | [root] => if String.prefix "/" root then [root] else []
                      | _ :: up => up
                      end) r
      else normalize (x :: acc) r
  end.

(** A backend that fails on a document containing the word [poison]. *)
Definition flaky_backend (backend : string) (model : option string)
  (hist : list (list message)) (msg : list message) : result string :=
  match msg with
  | sys :: usr :: _ =>
      match String.index 0 "poison" (content usr) with
      | Some _ => Raise (BackendError "request failed")
      | None => LlmAnalyze.demo_backend backend model hist msg
      end
  | _ => Raise (BackendError "no messages")
  end.

Definition flaky_rt : LlmAnalyze.runtime :=
  {| LlmAnalyze.py_upper := ascii_upper;
     LlmAnalyze.py_json_loads := JsonRef.loads;
     LlmAnalyze.py_repr := fun _ => "?";
     LlmAnalyze.py_shlex_split := LlmAnalyze.py_shlex_split LlmAnalyze.demo_rt;
     LlmAnalyze.py_encode := LlmAnalyze.demo_encode;
     LlmAnalyze.py_decode := LlmAnalyze.demo_decode;
     LlmAnalyze.os_run := fun f _ _ => Ok (0%Z, "", "", f);
     LlmAnalyze.llm_request := flaky_backend;
     LlmAnalyze.html2md := fun html => html;
     LlmAnalyze.yaml_load_prompts := fun _ => Ok (Some LlmAnalyze.demo_prompts);
     LlmAnalyze.os_cwd := ["/"; "app"] |}.

Definition demo_target : path := ["/"; "app"; "targets"; "mrxsmb"].

(** The options after the fixed part of the command line, as the
    argument parser of llmanalyze.py reads them; [None] when it refuses
    them. *)
Fixpoint demo_options (args : list string) (c : LlmAnalyze.config)
  : option LlmAnalyze.config :=
  match args with
  | [] => Some c
  | flag :: rest =>
      if String.eqb flag "-v"
      then demo_options rest
             {| LlmAnalyze.input := LlmAnalyze.input c;
                LlmAnalyze.output := LlmAnalyze.output c;
                LlmAnalyze.verbose := true;
                LlmAnalyze.trigger_cmd := LlmAnalyze.trigger_cmd c;
                LlmAnalyze.level_threshold := LlmAnalyze.level_threshold c;
                LlmAnalyze.target_name := LlmAnalyze.target_name c;
                LlmAnalyze.llm_backend := LlmAnalyze.llm_backend c;
                LlmAnalyze.llm_model := LlmAnalyze.llm_model c |}
      else
        match rest with
        | [] => None
        | value :: rest' =>
            if String.eqb flag "--llm-model"
            then demo_options rest'
                   {| LlmAnalyze.input := LlmAnalyze.input c;
                      LlmAnalyze.output := LlmAnalyze.output c;
                      LlmAnalyze.verbose := LlmAnalyze.verbose c;
                      LlmAnalyze.trigger_cmd := LlmAnalyze.trigger_cmd c;
                      LlmAnalyze.level_threshold := LlmAnalyze.level_threshold c;
                      LlmAnalyze.target_name := LlmAnalyze.target_name c;
                      LlmAnalyze.llm_backend := LlmAnalyze.llm_backend c;
                      LlmAnalyze.llm_model := Some value |}
            else if String.eqb flag "--trigger-cmd"
            then demo_options rest'
                   {| LlmAnalyze.input := LlmAnalyze.input c;
                      LlmAnalyze.output := LlmAnalyze.output c;
                      LlmAnalyze.verbose := LlmAnalyze.verbose c;
                      LlmAnalyze.trigger_cmd := Some value;
                      LlmAnalyze.level_threshold := LlmAnalyze.level_threshold c;
                      LlmAnalyze.target_name := LlmAnalyze.target_name c;
                      LlmAnalyze.llm_backend := LlmAnalyze.llm_backend c;
                      LlmAnalyze.llm_model := LlmAnalyze.llm_model c |}
            else None
        end
  end.

(** The start of the child on the demo platform.  Without an
    interpreter of that name the process cannot be created.  The
    interpreter ends with status 2 when the script is no file, and so
    does the argument parser when it refuses the command line (a level
    or a backend that is not among the choices, an unknown option);
    otherwise [main] runs with what the parser read. *)
Definition demo_launch (f : filesystem) (argv : list string) : result launch :=
  match argv with
  | py :: script :: i_flag :: i :: o_flag :: o :: lt_flag :: lt :: tn_flag :: tn
       :: lb_flag :: lb :: rest =>
      if negb (String.eqb py "python3") then Raise (FileNotFoundError py)
      else if negb (fs_is_file f (Path script)) then Ok (Exits 2)
      else if String.eqb i_flag "-i" && String.eqb o_flag "-o"
              && String.eqb lt_flag "--level-threshold"
              && String.eqb tn_flag "--target-name"
              && String.eqb lb_flag "--llm-backend"
              && existsb (String.eqb lt) LlmAnalyze.LEVELS
              && existsb (String.eqb lb) ["ollama"; "openai"; "anthropic"]
      then match demo_options rest
                   {| LlmAnalyze.input := Path i;
                      LlmAnalyze.output := Path o;
                      LlmAnalyze.verbose := false;
                      LlmAnalyze.trigger_cmd := None;
                      LlmAnalyze.level_threshold := lt;
                      LlmAnalyze.target_name := tn;
                      LlmAnalyze.llm_backend := lb;
                      LlmAnalyze.llm_model := None |} with
           | Some c => Ok (Runs c)
           | None => Ok (Exits 2)
           end
      else Ok (Exits 2)
  | py :: _ =>
      if String.eqb py "python3" then Ok (Exits 2) else Raise (FileNotFoundError py)
  | [] => Raise (ValueError "empty command")
  end.

(** [repr] of a string on the demo platform, for strings that are not
    [plain]: double quotes around a text with a single quote, as far as
    the examples go. *)
Definition demo_repr_str (s : string) : string :=
  let quote := String (ascii_of_nat 34) EmptyString in
  String.append quote (String.append s quote).

(** The engine of the demo ends with status [code]; with status 0 it
    leaves a documents directory with one document in the working
    directory. *)
Definition demo_pf (code : Z) : platform :=
  {| rt := flaky_rt;
     TARGETS_DIR := ["/"; "app"; "targets"];
     LLM_SCRIPT := ["/"; "app"; "utils"; "llmanalyze.py"];
     UID := 1000;
     GID := 1000;
     os_resolve := fun _ p => normalize [] p;
     os_exec_module :=
       fun _ => ret (Some (ret (ResPair "/app/targets/mrxsmb/old.mrxsmb.sys"
                                        "/app/targets/mrxsmb/new.mrxsmb.sys")));
     py_repr_str := demo_repr_str;
     os_launch := demo_launch;
     os_docker :=
       fun f _ _ =>
         if (code =? 0)%Z
         then (Ok (0%Z, ""),
               f ++ [ (demo_target ++ ["ghidriffs"; "sxs_html"], Dir);
                      (demo_target ++ ["ghidriffs"; "sxs_html"; "diff.md"],
                       File "changed bounds check") ])
         else (Ok (code, "engine error"), f);
     os_now := fun _ => "2025-01-02_030405" |}.

Definition demo_settings : settings :=
  {| VERBOSE := false; LLM_VERBOSE := false; ANALYZE := true; ANALYZE_SLEEP := 0%Z;
     LLM_TRIGGER_CMD := Some "notify"; LLM_LEVEL_THRESHOLD := "HIGH";
     LLM_BACKEND := "ollama"; LLM_MODEL := None |}.

Definition demo_disk : filesystem :=
  [ (["/"; "app"], Dir);
    (["/"; "app"; "utils"], Dir);
    (["/"; "app"; "utils"; "prompts.yaml"], File "prompts: ...");
    (["/"; "app"; "utils"; "llmanalyze.py"], File "#!/usr/bin/env python3 ...");
    (["/"; "app"; "targets"], Dir);
    (demo_target, Dir);
    (demo_target ++ ["fetch_target.py"], File "def check_and_download(): ...");
    (demo_target ++ ["old.mrxsmb.sys"], File "old binary");
    (demo_target ++ ["new.mrxsmb.sys"], File "new binary");
    (["/"; "etc"], Dir);
    (["/"; "etc"; "evil"], Dir);
    (["/"; "etc"; "evil"; "fetch_target.py"], File "import os ...");
    (["/"; "arch1"], Dir);
    (["/"; "arch1"; "sxs_html"], Dir);
    (["/"; "arch1"; "sxs_html"; "x.md"], File "poison");
    (["/"; "arch2"], Dir);
    (["/"; "arch2"; "sxs_html"], Dir);
    (["/"; "arch2"; "sxs_html"; "y.md"], File "changed bounds check") ].

(** The process at its start with [--ghidriff-threads n]. *)
Definition demo_start (n : Z) : state :=
  {| os := {| fs := demo_disk; stdout := []; llm_calls := []; procs := [] |};
     loaded := []; sema := init_sema n; ghidriff_threads := []; analyze_queue := [] |}.

(** With two permits, after [load_and_run("mrxsmb", False)]: one
    waiting worker. *)
Definition demo_submitted : state :=
  Eval vm_compute in snd (load_and_run (demo_pf 1) "mrxsmb" false (demo_start 2)).

(** After the worker took its permit. *)
Definition demo_entered : state :=
  Eval vm_compute in
    {| os := os demo_submitted; loaded := loaded demo_submitted;
       sema := Some 1;
       ghidriff_threads := set_pc 0 Running (ghidriff_threads demo_submitted);
       analyze_queue := analyze_queue demo_submitted |}.

Lemma demo_entered_reachable :
  reachable (demo_pf 1) demo_settings (demo_start 2) demo_entered.
Proof.
  eapply reach_step.
  - eapply reach_step; [apply reach_start|].
    apply (step_submit (demo_pf 1) demo_settings "mrxsmb" false (demo_start 2)
             (Ok tt) demo_submitted).
    vm_compute. reflexivity.
  - eapply (step_enter (demo_pf 1) demo_settings 0 _ demo_submitted (Some 1));
      reflexivity.
Qed.

(** C7 with two permits, after one submission and the start of its
    worker: one engine is executing, one permit is free. *)
Lemma at_most_n_engines_witness :
  reachable (demo_pf 1) demo_settings (demo_start 2) demo_entered /\
  running demo_entered = 1 /\
  running demo_entered <= Z.to_nat 2 /\
  exists k, sema demo_entered = Some k /\ k + running demo_entered = Z.to_nat 2.
Proof.
  split; [exact demo_entered_reachable|]. split; [reflexivity|].
  apply (at_most_n_engines (demo_pf 1) demo_settings 2 (demo_start 2) demo_entered);
    [reflexivity | reflexivity | exact demo_entered_reachable | lia].
Defined.

(** C8 on the demo target with an engine that ends with status 1. *)
Lemma engine_failure_isolated_witness :
  exists cmd f1 st',
    run_ghidriff_diff (demo_pf 1) demo_settings demo_target
      (demo_target ++ ["old.mrxsmb.sys"]) (demo_target ++ ["new.mrxsmb.sys"])
      demo_entered = (Ok tt, st') /\
    In (fstr ["[!] Ghidriff failed ("; name demo_target; ")"]) (stdout (os st')) /\
    fs (os st') = f1 /\
    procs (os st') = procs (os demo_entered) ++ [ {| argv := cmd; stdin := "" |} ] /\
    analyze_queue st' = analyze_queue demo_entered /\
    ghidriff_threads st' = ghidriff_threads demo_entered /\
    sema st' = sema demo_entered /\
    loaded st' = loaded demo_entered.
Proof.
  do 2 eexists.
  eapply (engine_failure_isolated (demo_pf 1) demo_settings demo_target
            (demo_target ++ ["old.mrxsmb.sys"]) (demo_target ++ ["new.mrxsmb.sys"])
            demo_entered);
    [vm_compute; reflexivity | vm_compute; reflexivity | discriminate].
Defined.

(** The working directory of the failed job is still there, with the
    two inputs in it, and there is no archive. *)
Example failed_job_directory :
  let st' := snd (run_ghidriff_diff (demo_pf 1) demo_settings demo_target
                    (demo_target ++ ["old.mrxsmb.sys"])
                    (demo_target ++ ["new.mrxsmb.sys"]) demo_entered) in
  fs_is_dir (fs (os st')) (demo_target ++ ["ghidriffs"]) = true /\
  fs_is_file (fs (os st')) (demo_target ++ ["ghidriffs"; "old.mrxsmb.sys"]) = true /\
  fs_exists (fs (os st')) (demo_target ++ ["archive"]) = false /\
  analyze_queue st' = [].
Proof. vm_compute. repeat split. Qed.

(** With an engine that ends with status 0 the directory is archived and
    queued for analysis. *)
Example successful_job_archived :
  let st' := snd (run_ghidriff_diff (demo_pf 0) demo_settings demo_target
                    (demo_target ++ ["old.mrxsmb.sys"])
                    (demo_target ++ ["new.mrxsmb.sys"]) demo_entered) in
  fs_exists (fs (os st')) (demo_target ++ ["ghidriffs"]) = false /\
  fs_is_dir (fs (os st'))
    (demo_target ++ ["archive"; "ghidriffs_2025-01-02_030405"; "sxs_html"]) = true /\
  analyze_queue st' =
    [("mrxsmb", demo_target ++ ["archive"; "ghidriffs_2025-01-02_030405"])].
Proof. vm_compute. repeat split. Qed.

(** C9 on a name that leaves the targets directory and on one inside. *)
Lemma load_and_run_confined_witness :
  load_and_run (demo_pf 1) "../../etc/evil" true (demo_start 2) =
    (Raise (ValueError "Target '../../etc/evil' is outside /app/targets"), demo_start 2) /\
  load_and_run (demo_pf 1) "/etc/evil" true (demo_start 2) =
    (Raise (ValueError "Target '/etc/evil' is outside /app/targets"), demo_start 2) /\
  loaded (snd (load_and_run (demo_pf 1) "mrxsmb" false (demo_start 2))) =
    [ ["/"; "app"; "targets"; "mrxsmb"; "fetch_target.py"] ].
Proof.
  split; [|split].
  - apply (proj1 (load_and_run_confined (demo_pf 1) "../../etc/evil" true (demo_start 2))).
    reflexivity.
  - apply (proj1 (load_and_run_confined (demo_pf 1) "/etc/evil" true (demo_start 2))).
    reflexivity.
  - reflexivity.
Defined.

(** ** The analysis queue at a failing archive *)

Definition demo_queue : list (string * path) :=
  [ ("first", ["/"; "arch1"]); ("second", ["/"; "arch2"]) ].

(** C2 at a queue of two archives, the first with a document on which
    the backend fails.  The analysis of the first ends with
    [CalledProcessError] and writes no report.  The analysis of the
    second, run by itself from the same state, ends normally and writes
    its report.  In the loop over the queue the exception of the first
    ends the loop: the second archive is never analyzed, no report is
    written for it and no model call is made for it. *)
Theorem analysis_failure_ends_queue :
  let st := demo_start 2 in
  let alone := run_llmanalyze (demo_pf 1) demo_settings "second" ["/"; "arch2"] st in
  let looped := analyze_all (demo_pf 1) demo_settings demo_queue st in
  fst (run_llmanalyze (demo_pf 1) demo_settings "first" ["/"; "arch1"] st) =
    Raise (CalledProcessError 1) /\
  fst alone = Ok tt /\
  fs_is_file (fs (os (snd alone))) ["/"; "arch2"; "analysis.md"] = true /\
  fst looped = Raise (CalledProcessError 1) /\
  fs_exists (fs (os (snd looped))) ["/"; "arch1"; "analysis.md"] = false /\
  fs_exists (fs (os (snd looped))) ["/"; "arch2"; "analysis.md"] = false /\
  List.length (llm_calls (os (snd looped))) = 1 /\
  List.length (procs (os (snd looped))) = 1.
Proof. vm_compute. repeat split. Qed.

(** X22 on the demo target with an engine that ends with status 0:
    the document the engine wrote is in the archive. *)
Lemma engine_success_archived_witness :
  exists f1 st',
    run_ghidriff_diff (demo_pf 0) demo_settings demo_target
      (demo_target ++ ["old.mrxsmb.sys"]) (demo_target ++ ["new.mrxsmb.sys"])
      demo_entered = (Ok tt, st') /\
    (forall rest,
       fs_lookup (fs (os st'))
         (demo_target ++ ["archive"; "ghidriffs_2025-01-02_030405"] ++ rest) =
       fs_lookup f1 (demo_target ++ ["ghidriffs"] ++ rest)) /\
    (forall rest, fs_lookup (fs (os st')) (demo_target ++ ["ghidriffs"] ++ rest) = None) /\
    fs_lookup f1 (demo_target ++ ["ghidriffs"; "sxs_html"; "diff.md"])
      = Some (File "changed bounds check") /\
    In "[+] Archived to /app/targets/mrxsmb/archive/ghidriffs_2025-01-02_030405"
       (stdout (os st')) /\
    analyze_queue st' =
      [("mrxsmb", demo_target ++ ["archive"; "ghidriffs_2025-01-02_030405"])].
Proof.
  destruct (engine_success_archived (demo_pf 0) demo_settings demo_target
              (demo_target ++ ["old.mrxsmb.sys"]) (demo_target ++ ["new.mrxsmb.sys"])
              demo_entered
              (fst (match ghidriff_setup (demo_pf 0) demo_target
                            (demo_target ++ ["old.mrxsmb.sys"])
                            (demo_target ++ ["new.mrxsmb.sys"]) demo_entered with
                    | (Ok cmd, st1) => (cmd, st1)
                    | (Raise _, st1) => ([], st1)
                    end))
              (snd (ghidriff_setup (demo_pf 0) demo_target
                      (demo_target ++ ["old.mrxsmb.sys"])
                      (demo_target ++ ["new.mrxsmb.sys"]) demo_entered))
              ""
              (snd (os_docker (demo_pf 0)
                      (fs (os (snd (ghidriff_setup (demo_pf 0) demo_target
                                      (demo_target ++ ["old.mrxsmb.sys"])
                                      (demo_target ++ ["new.mrxsmb.sys"]) demo_entered))))
                      [] [])))
    as (st' & Hrun & Harch & Hgone & Hout & Hqueue).
  - vm_compute. reflexivity.
  - vm_compute. reflexivity.
  - vm_compute. reflexivity.
  - intros rest. vm_compute. reflexivity.
  - vm_compute. reflexivity.
  - eexists. exists st'. split; [exact Hrun|].
    split; [exact Harch|]. split; [exact Hgone|].
    split; [vm_compute; reflexivity|].
    split; [rewrite Hout; apply in_or_app; right; left; reflexivity | exact Hqueue].
Defined.



(** A threshold that is not among the choices of llmanalyze.py (the
    orchestrator's own parser would have refused it): the child ends with
    status 2 before [main], and that status is in the exception. *)
Definition demo_settings_severe : settings :=
  {| VERBOSE := false; LLM_VERBOSE := false; ANALYZE := true; ANALYZE_SLEEP := 0%Z;
     LLM_TRIGGER_CMD := Some "notify"; LLM_LEVEL_THRESHOLD := "SEVERE";
     LLM_BACKEND := "ollama"; LLM_MODEL := None |}.

Example run_llmanalyze_refused_command_line :
  let r := run_llmanalyze (demo_pf 1) demo_settings_severe "second" ["/"; "arch2"]
             (demo_start 2) in
  fst r = Raise (CalledProcessError 2) /\
  fs (os (snd r)) = demo_disk /\
  llm_calls (os (snd r)) = [] /\
  List.length (procs (os (snd r))) = 1.
Proof. vm_compute. repeat split. Qed.

(** A platform without the interpreter: the child cannot be created. *)
Definition demo_pf_no_python : platform :=
  {| rt := rt (demo_pf 1);
     TARGETS_DIR := TARGETS_DIR (demo_pf 1);
     LLM_SCRIPT := LLM_SCRIPT (demo_pf 1);
     UID := UID (demo_pf 1);
     GID := GID (demo_pf 1);
     os_resolve := os_resolve (demo_pf 1);
     os_exec_module := os_exec_module (demo_pf 1);
     py_repr_str := py_repr_str (demo_pf 1);
     os_launch := fun _ _ => Raise (FileNotFoundError "python3");
     os_docker := os_docker (demo_pf 1);
     os_now := os_now (demo_pf 1) |}.

Example run_llmanalyze_no_interpreter :
  let r := run_llmanalyze demo_pf_no_python demo_settings "second" ["/"; "arch2"]
             (demo_start 2) in
  fst r = Raise (FileNotFoundError "python3") /\
  fs (os (snd r)) = demo_disk /\
  procs (os (snd r)) = [].
Proof. vm_compute. repeat split. Qed.

(** A negative pause ([-ls -5] is accepted by the parser): the first
    analysis runs (the child and its trigger action) and writes its
    report, then [time.sleep] raises and the loop ends. *)
Definition demo_settings_hasty : settings :=
  {| VERBOSE := false; LLM_VERBOSE := false; ANALYZE := true; ANALYZE_SLEEP := (-5)%Z;
     LLM_TRIGGER_CMD := Some "notify"; LLM_LEVEL_THRESHOLD := "HIGH";
     LLM_BACKEND := "ollama"; LLM_MODEL := None |}.

Example analyze_all_negative_pause :
  let r := analyze_all (demo_pf 1) demo_settings_hasty
             [("second", ["/"; "arch2"]); ("first", ["/"; "arch1"])] (demo_start 2) in
  fst r = Raise (ValueError "sleep length must be non-negative") /\
  fs_is_file (fs (os (snd r))) ["/"; "arch2"; "analysis.md"] = true /\
  llm_calls (os (snd r)) <> [] /\
  List.length (procs (os (snd r))) = 2.
Proof. vm_compute. repeat split. discriminate. Qed.


(** A whole job with an engine that ends with status 0: submitted,
    started, ended. *)
Definition demo_queued : state :=
  Eval vm_compute in snd (load_and_run (demo_pf 0) "mrxsmb" false (demo_start 2)).

Definition demo_working : state :=
  Eval vm_compute in
    match nth_error (ghidriff_threads demo_queued) 0 with
    | Some th =>
        match _ghidriff_worker (demo_pf 0) demo_settings 0 th demo_queued with
        | Some st => st
        | None => demo_queued
        end
    | None => demo_queued
    end.

Definition demo_ended : state :=
  Eval vm_compute in
    match nth_error (ghidriff_threads demo_working) 0 with
    | Some th =>
        match _ghidriff_worker (demo_pf 0) demo_settings 0 th demo_working with
        | Some st => st
        | None => demo_working
        end
    | None => demo_working
    end.

Lemma demo_ended_reachable :
  reachable (demo_pf 0) demo_settings (demo_start 2) demo_ended.
Proof.
  eapply reach_step; [eapply reach_step; [eapply reach_step; [apply reach_start|]|]|].
  - apply (step_submit (demo_pf 0) demo_settings "mrxsmb" false (demo_start 2)
             (Ok tt) demo_queued).
    vm_compute. reflexivity.
  - eapply (step_worker (demo_pf 0) demo_settings 0 _ demo_queued demo_working);
      vm_compute; reflexivity.
  - eapply (step_worker (demo_pf 0) demo_settings 0 _ demo_working demo_ended);
      vm_compute; reflexivity.
Qed.

(** X26 after a whole job: the one worker is the one of the demo target,
    and the one entry of the queue is its archive. *)
Lemma jobs_inside_targets_witness :
  map th_dir (ghidriff_threads demo_ended) = [demo_target] /\
  analyze_queue demo_ended =
    [("mrxsmb", demo_target ++ ["archive"; "ghidriffs_2025-01-02_030405"])] /\
  Forall (fun th => (exists rest, th_dir th = TARGETS_DIR (demo_pf 0) ++ rest) /\
                    th_name th = name (th_dir th))
         (ghidriff_threads demo_ended) /\
  Forall (fun entry =>
            exists d ts,
              In d (map th_dir (ghidriff_threads demo_ended)) /\
              entry = (name d, d // "archive" // String.append "ghidriffs_" ts))
         (analyze_queue demo_ended).
Proof.
  split; [reflexivity|]. split; [reflexivity|].
  apply (jobs_inside_targets (demo_pf 0) demo_settings (demo_start 2) demo_ended);
    [reflexivity | reflexivity | exact demo_ended_reachable].
Defined.

(** A targets directory with a second target whose script is missing
    and, between the two, a link that leaves the directory. *)
Definition demo_linked_pf : platform :=
  {| rt := rt (demo_pf 1);
     TARGETS_DIR := TARGETS_DIR (demo_pf 1);
     LLM_SCRIPT := LLM_SCRIPT (demo_pf 1);
     UID := UID (demo_pf 1);
     GID := GID (demo_pf 1);
     os_resolve :=
       fun _ p => if path_eqb p ["/"; "app"; "targets"; "link"]
                  then ["/"; "etc"; "evil"]
                  else normalize [] p;
     os_exec_module := os_exec_module (demo_pf 1);
     py_repr_str := py_repr_str (demo_pf 1);
     os_launch := os_launch (demo_pf 1);
     os_docker := os_docker (demo_pf 1);
     os_now := os_now (demo_pf 1) |}.

Definition demo_linked : state :=
  {| os := {| fs := demo_disk ++
                    [ (["/"; "app"; "targets"; "link"], Dir);
                      (["/"; "app"; "targets"; "zlib"], Dir) ];
              stdout := []; llm_calls := []; procs := [] |};
     loaded := []; sema := init_sema 2; ghidriff_threads := []; analyze_queue := [] |}.

(** X29 at that directory: the first target is submitted, the link makes
    [load_and_run] raise, and the target after it is never looked at,
    though by itself it raises nothing. *)
Lemma submit_all_fails_iff_witness :
  fs_listdir (fs (os demo_linked)) ["/"; "app"; "targets"] = ["mrxsmb"; "link"; "zlib"] /\
  (exists st',
     submit demo_linked_pf "all" false demo_linked =
       (Raise (ValueError "Target 'link' is outside /app/targets"), st') /\
     map th_name (ghidriff_threads st') = ["mrxsmb"] /\
     stdout (os st') = ["[*] Fetch script for mrxsmb"]) /\
  fst (submit_each demo_linked_pf ["mrxsmb"; "zlib"] false demo_linked) = Ok tt.
Proof.
  split; [reflexivity|]. split; [|vm_compute; reflexivity].
  exists (snd (submit demo_linked_pf "all" false demo_linked)).
  split; [|split; vm_compute; reflexivity].
  apply (proj2 (submit_all_fails_iff demo_linked_pf false demo_linked _ _)).
  right. split; [reflexivity|].
  exists ["mrxsmb"], "link", ["zlib"],
    (snd (submit_each demo_linked_pf ["mrxsmb"] false demo_linked)).
  split; [reflexivity|]. split; [vm_compute; reflexivity|].
  split; vm_compute; reflexivity.
Defined.

(** ** [monitor] on a pool of two jobs *)

Definition demo_job (n : string) (p : pc) : thread :=
  {| th_name := n; th_dir := demo_target; th_old := []; th_new := []; th_pc := p |}.

(** Three passes: [b] has ended at the first, both at the second. *)
Definition demo_passes (a b : string) : list (list thread) :=
  [ [demo_job a Running; demo_job b Finished];
    [demo_job a Finished; demo_job b Finished];
    [demo_job a Finished; demo_job b Finished] ].

Lemma NoDup_a_b : NoDup ["a"; "b"].
Proof.
  constructor; [simpl; intros [H|[]]; discriminate H|].
  constructor; [intros [] | constructor].
Qed.

(** X9 on the pool [a], [b]: the loop ends after two passes. *)
Lemma monitor_waits_for_all_witness :
  exists used later,
    demo_passes "a" "b" = used ++ later /\
    monitor_loop 2 used [] = Some ["b"; "a"] /\
    Permutation ["b"; "a"] ["a"; "b"] /\
    forall i n, nth_error ["a"; "b"] i = Some n ->
      exists pool th,
        In pool used /\ nth_error pool i = Some th /\ is_finished th = true.
Proof.
  apply (monitor_waits_for_all ["a"; "b"] (demo_passes "a" "b") ["b"; "a"]).
  - repeat constructor.
  - reflexivity.
Defined.

(** X10 on the same pool. *)
Lemma monitor_ends_when_all_ended_witness :
  exists done,
    monitor_loop 2 (demo_passes "a" "b") [] = Some done /\
    Permutation done ["a"; "b"].
Proof.
  apply (monitor_ends_when_all_ended ["a"; "b"]
           [[demo_job "a" Running; demo_job "b" Finished]]
           [demo_job "a" Finished; demo_job "b" Finished]
           [[demo_job "a" Finished; demo_job "b" Finished]]).
  - exact NoDup_a_b.
  - repeat constructor.
  - repeat constructor.
Defined.

(** X11 on two jobs of the same name [b], both ended from the second
    pass on. *)
Lemma monitor_never_ends_with_shared_name_witness :
  monitor_loop 2 (demo_passes "b" "b") [] = None.
Proof.
  apply (monitor_never_ends_with_shared_name ["b"; "b"] (demo_passes "b" "b")).
  - intros H. inversion H as [|x l Hin _]. apply Hin. left. reflexivity.
  - repeat constructor.
Defined.

(** ** Submissions on the demo platform *)

(** The demo platform with a fetch script whose [check_and_download]
    returns [res]. *)
Definition demo_pf_returning (res : fetch_res) : platform :=
  {| rt := flaky_rt;
     TARGETS_DIR := TARGETS_DIR (demo_pf 1);
     LLM_SCRIPT := LLM_SCRIPT (demo_pf 1);
     UID := 1000;
     GID := 1000;
     os_resolve := os_resolve (demo_pf 1);
     os_exec_module := fun _ => ret (Some (ret res));
     py_repr_str := py_repr_str (demo_pf 1);
     os_launch := os_launch (demo_pf 1);
     os_docker := os_docker (demo_pf 1);
     os_now := os_now (demo_pf 1) |}.

(** X12 on the demo target: the one thread started is the job for the
    pair that the script returned. *)
Lemma load_and_run_starts_thread_witness :
  exists t check_and_download w1 a b old new w2,
    resolve_target_dir (demo_pf 1) "mrxsmb" (demo_start 2) = (Ok t, demo_start 2) /\
    fs_is_file (fs (script_world (demo_pf 1) t false (os (demo_start 2))))
      (abs (demo_pf 1) (t // SCRIPT_NAME)) = true /\
    os_exec_module (demo_pf 1) (t // SCRIPT_NAME)
      (script_world (demo_pf 1) t false (os (demo_start 2)))
      = (Ok (Some check_and_download), w1) /\
    check_and_download w1 = (Ok (ResTuple a b), w2) /\
    truth_of a = true /\ truth_of b = true /\
    to_path a = Ok old /\ to_path b = Ok new /\
    (forall s, a = PStr s -> s <> "" /\ old = Path s) /\
    (forall s, b = PStr s -> s <> "" /\ new = Path s) /\
    fst (load_and_run (demo_pf 1) "mrxsmb" false (demo_start 2)) = Ok tt /\
    os (snd (load_and_run (demo_pf 1) "mrxsmb" false (demo_start 2))) = w2 /\
    ghidriff_threads (snd (load_and_run (demo_pf 1) "mrxsmb" false (demo_start 2))) =
      ghidriff_threads (demo_start 2) ++ [job_for t old new].
Proof.
  apply (load_and_run_starts_thread (demo_pf 1) "mrxsmb" false (demo_start 2)
           (fst (load_and_run (demo_pf 1) "mrxsmb" false (demo_start 2)))
           (snd (load_and_run (demo_pf 1) "mrxsmb" false (demo_start 2)))
           (surjective_pairing _)).
  vm_compute. discriminate.
Defined.

(** Two path objects, and two numbers. *)
Definition demo_path_objects : fetch_res :=
  ResTuple (PObj true (Ok (demo_target ++ ["old.mrxsmb.sys"]))
              "PosixPath('/app/targets/mrxsmb/old.mrxsmb.sys')")
           (PObj true (Ok (demo_target ++ ["new.mrxsmb.sys"]))
              "PosixPath('/app/targets/mrxsmb/new.mrxsmb.sys')").

Definition demo_numbers : fetch_res :=
  ResTuple
    (PObj true (Raise (TypeError "expected str, bytes or os.PathLike object, not int")) "1")
    (PObj true (Raise (TypeError "expected str, bytes or os.PathLike object, not int")) "2").

(** The world in which the script of the demo target runs and ends. *)
Definition demo_script_world : world :=
  Eval vm_compute in script_world (demo_pf 1) demo_target true (os (demo_start 2)).

Ltac verdict_premises :=
  try reflexivity;
  match goal with
  | |- _ -> _ => vm_compute; discriminate
  | _ => idtac
  end.

(** X13 on the demo target with a script that reports no update, with
    one that returns a pair of empty strings, with one that returns two
    path objects and with one that returns two numbers. *)
Lemma load_and_run_verdict_witness :
  (exists st',
     load_and_run (demo_pf_returning ResFalse) "mrxsmb" true (demo_start 2) = (Ok tt, st') /\
     loaded st' = [demo_target // SCRIPT_NAME] /\
     fs (os st') = demo_disk /\
     stdout (os st') = ["[*] Fetch script for mrxsmb"; "[*] No update."] /\
     ghidriff_threads st' = []) /\
  (exists st',
     load_and_run (demo_pf_returning (ResPair "" "")) "mrxsmb" true (demo_start 2)
       = (Ok tt, st') /\
     loaded st' = [demo_target // SCRIPT_NAME] /\
     fs (os st') = demo_disk /\
     stdout (os st') =
       ["[*] Fetch script for mrxsmb"; "[!] Unexpected result: ('', '')"] /\
     ghidriff_threads st' = []) /\
  (exists st',
     load_and_run (demo_pf_returning demo_path_objects) "mrxsmb" true (demo_start 2)
       = (Ok tt, st') /\
     loaded st' = [demo_target // SCRIPT_NAME] /\
     os st' = demo_script_world /\
     ghidriff_threads st' =
       [job_for demo_target (demo_target ++ ["old.mrxsmb.sys"])
          (demo_target ++ ["new.mrxsmb.sys"])]) /\
  (exists st',
     load_and_run (demo_pf_returning demo_numbers) "mrxsmb" true (demo_start 2)
       = (Raise (TypeError "expected str, bytes or os.PathLike object, not int"), st') /\
     loaded st' = [demo_target // SCRIPT_NAME] /\
     os st' = demo_script_world /\
     ghidriff_threads st' = []).
Proof.
  split; [|split; [|split]].
  - destruct (load_and_run_verdict (demo_pf_returning ResFalse) "mrxsmb" true
                (demo_start 2) demo_target (ret ResFalse)
                demo_script_world ResFalse demo_script_world)
      as (r & st' & Hrun & Hl & Hv); verdict_premises.
    cbn [verdict] in Hv. destruct Hv as (-> & Hfs & Hout & Hth).
    exists st'. split; [exact Hrun|]. split; [exact Hl|].
    split; [rewrite Hfs; reflexivity|]. split; [rewrite Hout; reflexivity | exact Hth].
  - destruct (load_and_run_verdict (demo_pf_returning (ResPair "" "")) "mrxsmb" true
                (demo_start 2) demo_target (ret (ResPair "" ""))
                demo_script_world (ResPair "" "") demo_script_world)
      as (r & st' & Hrun & Hl & Hv); verdict_premises.
    change (verdict (demo_pf_returning (ResPair "" "")) demo_target (ResPair "" ""))
      with (Logs "[!] Unexpected result: ('', '')") in Hv.
    destruct Hv as (-> & Hfs & Hout & Hth).
    exists st'. split; [exact Hrun|]. split; [exact Hl|].
    split; [rewrite Hfs; reflexivity|]. split; [rewrite Hout; reflexivity | exact Hth].
  - destruct (load_and_run_verdict (demo_pf_returning demo_path_objects) "mrxsmb" true
                (demo_start 2) demo_target (ret demo_path_objects)
                demo_script_world demo_path_objects demo_script_world)
      as (r & st' & Hrun & Hl & Hv); verdict_premises.
    change (verdict (demo_pf_returning demo_path_objects) demo_target demo_path_objects)
      with (Starts (job_for demo_target (demo_target ++ ["old.mrxsmb.sys"])
                      (demo_target ++ ["new.mrxsmb.sys"]))) in Hv.
    destruct Hv as (-> & Hos & Hth).
    exists st'. split; [exact Hrun|]. split; [exact Hl|]. split; [exact Hos | exact Hth].
  - destruct (load_and_run_verdict (demo_pf_returning demo_numbers) "mrxsmb" true
                (demo_start 2) demo_target (ret demo_numbers)
                demo_script_world demo_numbers demo_script_world)
      as (r & st' & Hrun & Hl & Hv); verdict_premises.
    change (verdict (demo_pf_returning demo_numbers) demo_target demo_numbers)
      with (Fails (TypeError "expected str, bytes or os.PathLike object, not int")) in Hv.
    destruct Hv as (-> & Hos & Hth).
    exists st'. split; [exact Hrun|]. split; [exact Hl|]. split; [exact Hos | exact Hth].
Defined.

End Diffalayze.

(* ===================================================================== *)
(** * utils/winbindexer.py                                                *)
(* ===================================================================== *)

Module Winbindexer.

(** One value of the winbindex data of a file, reduced to what
    [get_latest_symbol_urls] reads: [fileInfo.timestamp] and
    [fileInfo.virtualSize] (integers; [None] when the key is absent or
    null) and the keys of [windowsVersions].  This is the shape of the
    data that winbindex publishes: every value an object, [fileInfo] an
    object when present, the two numbers integers, [windowsVersions] an
    object.  Data of another shape (a [fileInfo] that is [null], a time
    stamp that is a string) has no counterpart here; on it the Python
    code raises [AttributeError] or [TypeError], or [ValueError] from
    the format. *)
Record file_entry : Type := {
  fileInfo_timestamp : option Z;
  fileInfo_virtualSize : option Z;
  windowsVersions : list string
}.

(** [data.items()]: hash and entry, in the order of the file. *)
Definition database := list (string * file_entry).

(** The dictionaries collected in [versions]. *)
Record version : Type := {
  v_timestamp : Z;
  v_virtual_size : Z;
  v_sha256 : string;
  v_filename : string
}.

(** The dictionaries returned. *)
Record symbol : Type := {
  s_sha256 : string;
  s_timestamp : Z;
  s_virtual_size : Z;
  s_url : string
}.

(** What the module takes from its platform. *)
Record runtime : Type := {
  (** [BASE_DIR]: the directory of winbindexer.py *)
  BASE_DIR : path;
  (** [json.load(gzip.open(...))] on the content of a data file *)
  decode_db : string -> result database;
  (** [git] run to its end on a file system: the exit status and the
      files as it leaves them; or the exception when the process cannot
      be created, and then the files given play no part *)
  os_git : filesystem -> list process -> list string -> result Z * filesystem
}.

(** ** [f"{n:X}"] *)

Definition hex_digit_upper (d : N) : ascii :=
  match d with
  | 0%N => "0" | 1%N => "1" | 2%N => "2" | 3%N => "3" | 4%N => "4"
  | 5%N => "5" | 6%N => "6" | 7%N => "7" | 8%N => "8" | 9%N => "9"
  | 10%N => "A" | 11%N => "B" | 12%N => "C" | 13%N => "D" | 14%N => "E"
  | _ => "F"
  end%char.

(** The digits of [n], most significant first, in front of [acc]; the
    fuel is the number of binary digits of [n]. *)
Fixpoint hex_digits (fuel : nat) (n : N) (acc : string) : string :=
  match fuel with
  | O => acc
  | S f =>
      if (n =? 0)%N then acc
      else hex_digits f (n / 16)%N (String (hex_digit_upper (n mod 16)%N) acc)
  end.

Definition format_X (z : Z) : string :=
  match z with
  | Z0 => "0"
  | Zpos p => hex_digits (Pos.size_nat p) (Npos p) ""
  | Zneg p => String "-" (hex_digits (Pos.size_nat p) (Npos p) "")
  end.

(** [generate_url(filename, timestamp, virtual_size)] *)
Definition generate_url (filename : string) (timestamp virtual_size : Z) : string :=
  fstr ["https://msdl.microsoft.com/download/symbols/"; filename; "/";
        format_X timestamp; format_X virtual_size; "/"; filename].

(** ** [get_latest_symbol_urls] *)

(** Truth of an optional integer: [None] and 0 are false. *)
Definition z_truthy (o : option Z) : bool :=
  match o with
  | Some z => negb (z =? 0)%Z
  | None => false
  end.

(** [timestamp and virtual_size and windows_version in win_versions] *)
Definition selected (windows_version : string) (e : file_entry) : bool :=
  z_truthy (fileInfo_timestamp e) && z_truthy (fileInfo_virtualSize e) &&
  existsb (String.eqb windows_version) (windowsVersions e).

(** The [for] loop that fills [versions]. *)
Definition collect (filename windows_version : string) (data : database) : list version :=
  flat_map (fun item =>
              let '(sha256, e) := item in
              if selected windows_version e then
                match fileInfo_timestamp e, fileInfo_virtualSize e with
                | Some t, Some v =>
                    [ {| v_timestamp := t; v_virtual_size := v;
                         v_sha256 := sha256; v_filename := filename |} ]
                | _, _ => []
                end
              else [])
           data.

(** The order of [sorted(versions, key=timestamp, reverse=True)]: [a]
    may stand before [b]. *)
Definition newer_first (a b : version) : bool := (v_timestamp b <=? v_timestamp a)%Z.

Definition to_symbol (v : version) : symbol :=
  {| s_sha256 := v_sha256 v; s_timestamp := v_timestamp v;
     s_virtual_size := v_virtual_size v;
     s_url := generate_url (v_filename v) (v_timestamp v) (v_virtual_size v) |}.

(** [get_latest_symbol_urls] once the data file is decoded. *)
Definition latest_symbols (filename windows_version : string) (count : nat)
  (data : database) : result (list symbol) :=
  match sorted newer_first (collect filename windows_version data) with
  | [] => Raise (ValueError (fstr ["[!] No versions for "; windows_version; " found"]))
  | versions => Ok (map to_symbol (firstn count versions))
  end.

(** ** The newest versions *)

Lemma StronglySorted_app_inv {A} (R : A -> A -> Prop) (l1 l2 : list A) :
  StronglySorted R (l1 ++ l2) ->
  StronglySorted R l1 /\ forall a b, In a l1 -> In b l2 -> R a b.
Proof.
  induction l1 as [|x l1 IH]; simpl; intros H.
  - split; [constructor | intros a b []].
  - inversion H as [|y l Hs Hall]; subst. destruct (IH Hs) as (H1 & H2).
    rewrite Forall_forall in Hall. split.
    + constructor; [exact H1|]. apply Forall_forall. intros z Hz.
      apply Hall. apply in_or_app. left. exact Hz.
    + intros a b [<-|Ha] Hb; [|exact (H2 a b Ha Hb)].
      apply Hall. apply in_or_app. right. exact Hb.
Qed.

Lemma StronglySorted_map {A B} (f : A -> B) (R : A -> A -> Prop) (Q : B -> B -> Prop)
  (l : list A) :
  (forall a b, R a b -> Q (f a) (f b)) ->
  StronglySorted R l -> StronglySorted Q (map f l).
Proof.
  intros Hf. induction 1 as [|x l Hs IH Hall]; simpl; constructor; [exact IH|].
  apply Forall_map. eapply Forall_impl; [|exact Hall]. intros y. apply Hf.
Qed.

Lemma In_firstn {A} (n : nat) (l : list A) (x : A) : In x (firstn n l) -> In x l.
Proof.
  intros H. rewrite <- (firstn_skipn n l). apply in_or_app. left. exact H.
Qed.

(** The versions collected are the selected entries, in their order. *)
Lemma collect_In (filename windows_version : string) (data : database) (v : version) :
  In v (collect filename windows_version data) <->
  exists e,
    In (v_sha256 v, e) data /\ selected windows_version e = true /\
    fileInfo_timestamp e = Some (v_timestamp v) /\
    fileInfo_virtualSize e = Some (v_virtual_size v) /\
    v_filename v = filename.
Proof.
  unfold collect. rewrite in_flat_map. split.
  - intros ([sha e] & Hin & Hv).
    destruct (selected windows_version e) eqn:Hsel; [|destruct Hv].
    destruct (fileInfo_timestamp e) as [t|] eqn:Ht; [|destruct Hv].
    destruct (fileInfo_virtualSize e) as [vs|] eqn:Hvs; [|destruct Hv].
    destruct Hv as [<-|[]]. simpl. exists e. repeat split; assumption.
  - intros (e & Hin & Hsel & Ht & Hvs & Hf). exists (v_sha256 v, e).
    split; [exact Hin|]. rewrite Hsel, Ht, Hvs. left. destruct v; simpl in *.
    subst. reflexivity.
Qed.

Lemma collect_length (filename windows_version : string) (data : database) :
  List.length (collect filename windows_version data) =
  List.length (filter (fun item => selected windows_version (snd item)) data).
Proof.
  unfold collect. induction data as [|[sha e] data IH]; simpl; [reflexivity|].
  rewrite length_app, IH. unfold selected at 1 3.
  destruct (fileInfo_timestamp e) as [t|]; simpl; [|reflexivity].
  destruct (fileInfo_virtualSize e) as [vs|]; simpl.
  - destruct (_ && _ && _); reflexivity.
  - rewrite Bool.andb_false_r. reflexivity.
Qed.

Lemma newer_first_total (a b : version) :
  newer_first a b = true \/ newer_first b a = true.
Proof. unfold newer_first. rewrite !Z.leb_le. lia. Qed.

Lemma newer_first_trans (a b c : version) :
  newer_first a b = true -> newer_first b c = true -> newer_first a c = true.
Proof. unfold newer_first. rewrite !Z.leb_le. lia. Qed.


(** X15.  On data of the shape that winbindex publishes (the shape of
    [file_entry]), [get_latest_symbol_urls] raises its [ValueError]
    exactly when no entry of the data is selected, whatever number of
    symbols was asked for; so with a selected entry and [count] 0 it
    returns the empty list.  (Data of another shape is outside this
    statement: there the code raises other exceptions.) *)
Theorem latest_symbols_none (filename windows_version : string) (count : nat)
  (data : database) :
  (latest_symbols filename windows_version count data =
     Raise (ValueError (fstr ["[!] No versions for "; windows_version; " found"]))
   <-> forall sha e, In (sha, e) data -> selected windows_version e = false) /\
  ((exists sha e, In (sha, e) data /\ selected windows_version e = true) ->
   latest_symbols filename windows_version 0 data = Ok []).
Proof.
  unfold latest_symbols.
  pose proof (sorted_Permutation newer_first (collect filename windows_version data))
    as Hperm.
  destruct (sorted newer_first (collect filename windows_version data)) as [|v vs] eqn:Hs.
  - assert (Hnone : forall sha e, In (sha, e) data -> selected windows_version e = false).
    { intros sha e Hin.
      destruct (selected windows_version e) eqn:Hsel; [|reflexivity].
      apply Permutation_nil in Hperm.
      assert (Hlen := collect_length filename windows_version data).
      rewrite Hperm in Hlen. simpl in Hlen.
      assert (Hf : In (sha, e)
                      (filter (fun item => selected windows_version (snd item)) data)).
      { apply filter_In. split; [exact Hin | exact Hsel]. }
      destruct (filter _ data); [destruct Hf | discriminate Hlen]. }
    split; [split; [intros _; exact Hnone | reflexivity]|].
    intros (sha & e & Hin & Hsel). rewrite (Hnone _ _ Hin) in Hsel. discriminate Hsel.
  - split; [|intros _; reflexivity].
    split; [intros H; discriminate H|]. intros Hnone. exfalso.
    assert (Hv : In v (collect filename windows_version data)).
    { apply (Permutation_in _ Hperm). left. reflexivity. }
    apply collect_In in Hv as (e & Hin & Hsel & _).
    rewrite (Hnone _ _ Hin) in Hsel. discriminate Hsel.
Qed.

Example format_X_examples :
  format_X 255 = "FF" /\ format_X 0 = "0" /\ format_X (-26) = "-1A" /\
  format_X 1718000000 = "66669980" /\
  generate_url "mrxsmb.sys" 1718000000 172032 =
    "https://msdl.microsoft.com/download/symbols/mrxsmb.sys/666699802A000/mrxsmb.sys".
Proof. repeat split. Qed.

(** ** The local copy of the winbindex repository *)

(** [shutil.rmtree(d, ignore_errors=True)]: a directory [d] is removed
    with all below it.  Where [d] is a regular file, [rmtree] fails with
    [NotADirectoryError], which is ignored, and the file stays; where
    nothing is at [d], the error is ignored as well.  (Entries that the
    process has no permission to remove have no counterpart here.) *)
Definition fs_rmtree (f : filesystem) (d : path) : filesystem :=
  if fs_is_dir f d
  then filter (fun e => match strip_parts d (fst e) with
                        | Some _ => false
                        | None => true
                        end) f
  else f.

Definition REPO_URL : string := "https://github.com/m417z/winbindex.git".
Definition BRANCH : string := "gh-pages".

Section Repo.

Variable rt : runtime.

Definition REPO_DIR : path := BASE_DIR rt ++ ["winbindex"].
Definition DATA_DIR : path := REPO_DIR ++ ["data"; "by_filename_compressed"].

(** [subprocess.run(["git"] + args, check=True)]: when the process
    cannot be created the exception leaves the call and nothing has run;
    a process that ran is recorded, and a status other than 0 raises
    [CalledProcessError]. *)
Definition git (args : list string) : M unit :=
  fun w =>
    match os_git rt (fs w) (procs w) args with
    | (Ok code, f) =>
        let w' := {| fs := f; stdout := stdout w; llm_calls := llm_calls w;
                     procs := procs w ++ [ {| argv := "git" :: args; stdin := "" |} ] |} in
        if (code =? 0)%Z then (Ok tt, w') else (Raise (CalledProcessError code), w')
    | (Raise e, _) => (Raise e, w)
    end.

Definition clone_args (repo_url branch : string) (dir : path) : list string :=
  ["clone"; "--branch"; branch; "--single-branch"; repo_url; path_str dir].
Definition checkout_args (branch : string) : list string :=
  ["-C"; path_str REPO_DIR; "checkout"; branch].
Definition pull_args (branch : string) : list string :=
  ["-C"; path_str REPO_DIR; "pull"; "origin"; branch].

(** [_reclone_repo(repo_dir, repo_url, branch)] *)
Definition _reclone_repo (repo_dir : path) (repo_url branch : string) : M unit :=
  (fun w => (Ok tt, set_fs (fun f => fs_rmtree f repo_dir) w)) ;;;
  git (clone_args repo_url branch repo_dir).

(** [ensure_winbindex_repo(repo_url, branch)] *)
Definition ensure_winbindex_repo (repo_url branch : string) : M unit :=
  fun w =>
    if negb (fs_exists (fs w) REPO_DIR) then
      (print "[*] Cloning winbindex repo (this may take some time)" ;;;
       git (clone_args repo_url branch REPO_DIR)) w
    else if negb (fs_is_dir (fs w) (REPO_DIR ++ [".git"])) then
      (print "[!] winbindex directory exists but is not a valid Git repo. Re-cloning..." ;;;
       _reclone_repo REPO_DIR repo_url branch) w
    else
      match (git (checkout_args branch) ;;; git (pull_args branch)) w with
      | (Raise (CalledProcessError _), w1) =>
          (print "[!] Git pull failed. Repository may be corrupt. Re-cloning..." ;;;
           _reclone_repo REPO_DIR repo_url branch) w1
      | other => other
      end.

(** [get_latest_symbol_urls(filename, dbfile, windows_version, count)] *)
Definition get_latest_symbol_urls (filename dbfile windows_version : string) (count : nat)
  : M (list symbol) :=
  fun w =>
    match fs_lookup (fs w) (joinpath DATA_DIR (Path dbfile)) with
    | Some (File text) =>
        (match decode_db rt text with
         | Ok data => latest_symbols filename windows_version count data
         | Raise e => Raise e
         end, w)
    | Some Dir => (Raise (OSError "Is a directory"), w)
    | None => (Raise (FileNotFoundError (path_str (joinpath DATA_DIR (Path dbfile)))), w)
    end.

(** Where a directory was removed, nothing is left at it or below. *)
Lemma fs_rmtree_gone (f : filesystem) (d rest : path) :
  fs_is_dir f d = true -> fs_lookup (fs_rmtree f d) (d ++ rest) = None.
Proof.
  unfold fs_rmtree. intros ->. induction f as [|[q n] f IH]; simpl; [reflexivity|].
  destruct (strip_parts d q) as [r|] eqn:Hs; simpl; [exact IH|].
  destruct (path_eqb q (d ++ rest)) eqn:Hq; [|exact IH].
  apply path_eqb_eq in Hq. subst q. exfalso. clear -Hs.
  induction d as [|x d IHd]; simpl in Hs; [discriminate|].
  rewrite String.eqb_refl in Hs. exact (IHd Hs).
Qed.

(** After [rmtree] there is nothing at [d], or the regular file that
    was there. *)
Lemma fs_rmtree_left (f : filesystem) (d : path) :
  fs_exists (fs_rmtree f d) d = false \/
  fs_is_file (fs_rmtree f d) d = true /\ fs_rmtree f d = f.
Proof.
  destruct (fs_is_dir f d) eqn:Hdir.
  - left. unfold fs_exists. rewrite <- (app_nil_r d) at 2.
    rewrite (fs_rmtree_gone f d [] Hdir). reflexivity.
  - unfold fs_rmtree. rewrite Hdir. revert Hdir.
    unfold fs_is_dir, fs_exists, fs_is_file.
    destruct (fs_lookup f d) as [[|text]|]; intros H; try discriminate H.
    + right. split; reflexivity.
    + left. reflexivity.
Qed.

Lemma git_inv args w r w' :
  git args w = (r, w') ->
  (r = Ok tt ->
   os_git rt (fs w) (procs w) args = (Ok 0%Z, fs w') /\
   procs w' = procs w ++ [ {| argv := "git" :: args; stdin := "" |} ]) /\
  (forall code, r = Raise (CalledProcessError code) ->
     (fst (os_git rt (fs w) (procs w) args) = Ok code /\
      procs w' = procs w ++ [ {| argv := "git" :: args; stdin := "" |} ]) \/
     (fst (os_git rt (fs w) (procs w) args) = Raise (CalledProcessError code) /\
      w' = w)).
Proof.
  unfold git. destruct (os_git rt (fs w) (procs w) args) as [[code|e] f].
  - destruct (Z.eqb_spec code 0) as [->|Hne]; intros [= <- <-]; simpl.
    + split; [intros _; split; reflexivity | intros c H; discriminate H].
    + split; [intros H; discriminate H|].
      intros c [= <-]. left. split; reflexivity.
  - intros [= <- <-]. simpl. split; [intros H; discriminate H|].
    intros c [= ->]. right. split; reflexivity.
Qed.

(** The URL of every symbol returned is made from its own time stamp
    and size. *)
Lemma latest_symbols_url (filename windows_version : string) (count : nat)
  (data : database) (l : list symbol) :
  latest_symbols filename windows_version count data = Ok l ->
  Forall (fun s => s_url s = generate_url filename (s_timestamp s) (s_virtual_size s)) l.
Proof.
  unfold latest_symbols. intros H.
  pose proof (sorted_Permutation newer_first (collect filename windows_version data))
    as Hperm.
  set (versions := sorted newer_first (collect filename windows_version data)) in *.
  assert (Hl : l = map to_symbol (firstn count versions)).
  { destruct versions; [discriminate H | injection H as <-; reflexivity]. }
  subst l. apply Forall_forall. intros s Hs.
  apply in_map_iff in Hs as (v & <- & Hv).
  apply In_firstn in Hv. apply (Permutation_in _ Hperm) in Hv.
  apply collect_In in Hv as (e & _ & _ & _ & _ & Hf). simpl. rewrite Hf. reflexivity.
Qed.

Lemma get_latest_symbol_urls_inv filename dbfile windows_version count w r w' :
  get_latest_symbol_urls filename dbfile windows_version count w = (r, w') ->
  w' = w /\
  forall l, r = Ok l ->
    Forall (fun s => s_url s = generate_url filename (s_timestamp s) (s_virtual_size s)) l /\
    StronglySorted (fun a b => (s_timestamp b <= s_timestamp a)%Z) l.
Proof.
  unfold get_latest_symbol_urls.
  destruct (fs_lookup (fs w) (joinpath DATA_DIR (Path dbfile))) as [[|text]|];
    try (intros [= <- <-]; split; [reflexivity | intros l H; discriminate H]).
  intros [= <- <-]. split; [reflexivity|]. intros l Hl.
  destruct (decode_db rt text) as [data|e]; [|discriminate Hl].
  split; [exact (latest_symbols_url _ _ _ _ _ Hl)|].
  unfold latest_symbols in Hl.
  pose proof (sorted_StronglySorted newer_first newer_first_total newer_first_trans
                (collect filename windows_version data)) as Hsorted.
  set (versions := sorted newer_first (collect filename windows_version data)) in *.
  assert (Hl' : l = map to_symbol (firstn count versions)).
  { destruct versions; [discriminate Hl | injection Hl as <-; reflexivity]. }
  subst l. rewrite <- (firstn_skipn count versions) in Hsorted.
  apply StronglySorted_app_inv in Hsorted as (Hkept & _).
  eapply StronglySorted_map; [|exact Hkept].
  intros a b Hab. unfold newer_first in Hab. apply Z.leb_le in Hab. exact Hab.
Qed.

(** X16.  When [ensure_winbindex_repo] returns normally, the files are
    as a [git clone] or a [git pull] that ended with status 0 left them,
    and that command was the last one started.  A clone is started only
    where the repository directory is no directory: nothing is there (it
    was missing, or removed just before), or a regular file is there,
    which [rmtree] left in place.  A pull is started only after the
    checkout, in a directory that holds [.git]. *)
Theorem ensure_winbindex_repo_synced (repo_url branch : string) (w w' : world) :
  ensure_winbindex_repo repo_url branch w = (Ok tt, w') ->
  (exists f0 ps,
     (fs_exists f0 REPO_DIR = false \/ fs_is_file f0 REPO_DIR = true) /\
     os_git rt f0 ps (clone_args repo_url branch REPO_DIR) = (Ok 0%Z, fs w') /\
     procs w' = ps ++ [ {| argv := "git" :: clone_args repo_url branch REPO_DIR;
                           stdin := "" |} ]) \/
  (fs_is_dir (fs w) (REPO_DIR ++ [".git"]) = true /\
   exists f0,
     os_git rt f0 (procs w ++ [ {| argv := "git" :: checkout_args branch; stdin := "" |} ])
       (pull_args branch) = (Ok 0%Z, fs w') /\
     procs w' = procs w ++ [ {| argv := "git" :: checkout_args branch; stdin := "" |};
                             {| argv := "git" :: pull_args branch; stdin := "" |} ]).
Proof.
  assert (Hreclone : forall w0 w1,
            _reclone_repo REPO_DIR repo_url branch w0 = (Ok tt, w1) ->
            exists f0 ps,
              (fs_exists f0 REPO_DIR = false \/ fs_is_file f0 REPO_DIR = true) /\
              os_git rt f0 ps (clone_args repo_url branch REPO_DIR) = (Ok 0%Z, fs w1) /\
              procs w1 = ps ++ [ {| argv := "git" :: clone_args repo_url branch REPO_DIR;
                                    stdin := "" |} ]).
  { intros w0 w1 H. unfold _reclone_repo, bind in H.
    apply git_inv in H as (Hok & _). destruct (Hok eq_refl) as (Hgit & Hp).
    eexists _, _. split; [|split; [exact Hgit | exact Hp]].
    cbn [fs set_fs].
    destruct (fs_rmtree_left (fs w0) REPO_DIR) as [Hgone|[Hfile _]];
      [left; exact Hgone | right; exact Hfile]. }
  unfold ensure_winbindex_repo. intros H.
  destruct (fs_exists (fs w) REPO_DIR) eqn:Hex; simpl in H.
  2:{ left. unfold bind, print in H. apply git_inv in H as (Hok & _).
      destruct (Hok eq_refl) as (Hgit & Hp). simpl in Hgit, Hp.
      exists (fs w), (procs w). split; [left; exact Hex|]. split; assumption. }
  destruct (fs_is_dir (fs w) (REPO_DIR ++ [".git"])) eqn:Hgit; simpl in H.
  2:{ left. unfold bind at 1 in H. unfold print at 1 in H.
      exact (Hreclone _ _ H). }
  destruct ((git (checkout_args branch);;; git (pull_args branch)) w) as [r1 w1] eqn:Hsync.
  destruct r1 as [[]|e].
  - injection H as <-. right. split; [reflexivity|].
    apply bind_inv in Hsync as ([] & w0 & Hco & Hpull).
    apply git_inv in Hco as (Hco & _). destruct (Hco eq_refl) as (_ & Hp0).
    apply git_inv in Hpull as (Hok & _). destruct (Hok eq_refl) as (Hpulled & Hp1).
    rewrite Hp0 in Hpulled, Hp1. exists (fs w0). split; [exact Hpulled|].
    rewrite Hp1, <- app_assoc. reflexivity.
  - destruct e; try discriminate H.
    left. unfold bind at 1 in H. unfold print at 1 in H. exact (Hreclone _ _ H).
Qed.

End Repo.

(** ** A small data file and a [git] that works *)

Definition demo_entry (t size : option Z) (versions : list string) : file_entry :=
  {| fileInfo_timestamp := t; fileInfo_virtualSize := size; windowsVersions := versions |}.

(** Five entries: three for Windows 11 24H2, one for another version and
    one without a time stamp. *)
Definition demo_data : database :=
  [ ("aa", demo_entry (Some 100) (Some 4096) ["11-24H2"]);
    ("bb", demo_entry (Some 300) (Some 8192) ["11-23H2"; "11-24H2"]);
    ("cc", demo_entry (Some 400) (Some 8192) ["10-22H2"]);
    ("dd", demo_entry None (Some 8192) ["11-24H2"]);
    ("ee", demo_entry (Some 250) (Some 4096) ["11-24H2"]) ]%Z.

Definition demo_latest : list symbol :=
  Eval vm_compute in
    match latest_symbols "mrxsmb.sys" "11-24H2" 2 demo_data with
    | Ok l => l
    | Raise _ => []
    end.

(** [git clone] leaves the repository with its data file; the other
    commands change nothing; every command ends with [status]. *)
Definition demo_git (status : Z) (f : filesystem) (ps : list process)
  (args : list string) : result Z * filesystem :=
  match args with
  | "clone" :: _ =>
      (Ok status,
       if (status =? 0)%Z then
         f ++ [ (["/"; "app"; "utils"; "winbindex"], Dir);
                (["/"; "app"; "utils"; "winbindex"; ".git"], Dir);
                (["/"; "app"; "utils"; "winbindex"; "data"], Dir);
                (["/"; "app"; "utils"; "winbindex"; "data"; "by_filename_compressed"], Dir);
                (["/"; "app"; "utils"; "winbindex"; "data"; "by_filename_compressed";
                  "mrxsmb.sys.json.gz"], File "gzip") ]
       else f)
  | _ => (Ok status, f)
  end.

Definition demo_wb (status : Z) : runtime :=
  {| BASE_DIR := ["/"; "app"; "utils"];
     decode_db := fun _ => Ok demo_data;
     os_git := demo_git status |}.

Definition bare_world : world :=
  {| fs := [ (["/"; "app"], Dir); (["/"; "app"; "utils"], Dir) ];
     stdout := []; llm_calls := []; procs := [] |}.


(** The world after [ensure_winbindex_repo] where the repository was
    missing. *)
Definition synced_world : world :=
  snd (ensure_winbindex_repo (demo_wb 0) REPO_URL BRANCH bare_world).

(** X16 where the repository is missing: one clone. *)
Lemma ensure_winbindex_repo_synced_witness :
  (exists f0 ps,
     (fs_exists f0 (REPO_DIR (demo_wb 0)) = false \/
      fs_is_file f0 (REPO_DIR (demo_wb 0)) = true) /\
     os_git (demo_wb 0) f0 ps (clone_args REPO_URL BRANCH (REPO_DIR (demo_wb 0)))
       = (Ok 0%Z, fs synced_world) /\
     procs synced_world =
       ps ++ [ {| argv := "git" :: clone_args REPO_URL BRANCH (REPO_DIR (demo_wb 0));
                  stdin := "" |} ]) \/
  (fs_is_dir (fs bare_world) (REPO_DIR (demo_wb 0) ++ [".git"]) = true /\
   exists f0,
     os_git (demo_wb 0) f0
       (procs bare_world ++ [ {| argv := "git" :: checkout_args (demo_wb 0) BRANCH;
                                 stdin := "" |} ])
       (pull_args (demo_wb 0) BRANCH) = (Ok 0%Z, fs synced_world) /\
     procs synced_world = procs bare_world ++
                [ {| argv := "git" :: checkout_args (demo_wb 0) BRANCH; stdin := "" |};
                  {| argv := "git" :: pull_args (demo_wb 0) BRANCH; stdin := "" |} ]).
Proof.
  apply (ensure_winbindex_repo_synced (demo_wb 0) REPO_URL BRANCH bare_world
           synced_world).
  reflexivity.
Defined.

(** A regular file where the repository should be: [rmtree] leaves it,
    the clone is started with the file in place, and its failure ends
    the call. *)
Definition blocked_world : world :=
  {| fs := [ (["/"; "app"], Dir); (["/"; "app"; "utils"], Dir);
             (["/"; "app"; "utils"; "winbindex"], File "not a repository") ];
     stdout := []; llm_calls := []; procs := [] |}.

Example reclone_keeps_regular_file :
  let r := ensure_winbindex_repo (demo_wb 128) REPO_URL BRANCH blocked_world in
  fst r = Raise (CalledProcessError 128) /\
  fs (snd r) = fs blocked_world /\
  stdout (snd r) =
    ["[!] winbindex directory exists but is not a valid Git repo. Re-cloning..."] /\
  procs (snd r) =
    [ {| argv := "git" :: clone_args REPO_URL BRANCH (REPO_DIR (demo_wb 128));
         stdin := "" |} ].
Proof. vm_compute. repeat split. Qed.

End Winbindexer.

(* ===================================================================== *)
(** * targets/mrxsmb/fetch_target.py                                      *)
(* ===================================================================== *)

Module FetchTarget.

Import Winbindexer.
Import Diffalayze.

Definition dbfile : string := "mrxsmb.sys.json.gz".
Definition filename : string := "mrxsmb.sys".
Definition windows_version : string := "11-24H2".

(** ** [str.strip()] *)

(** [c.isspace()] for a character below code point 256. *)
Definition py_isspace (c : ascii) : bool :=
  let n := nat_of_ascii c in
  ((9 <=? n) && (n <=? 13)) || ((28 <=? n) && (n <=? 32)) || (n =? 133) || (n =? 160).

Fixpoint lstrip (s : string) : string :=
  match s with
  | String c r => if py_isspace c then lstrip r else s
  | EmptyString => EmptyString
  end.

Fixpoint rstrip (s : string) : string :=
  match s with
  | EmptyString => EmptyString
  | String c r =>
      match rstrip r with
      | EmptyString => if py_isspace c then EmptyString else String c EmptyString
      | r' => String c r'
      end
  end.

Definition strip (s : string) : string := rstrip (lstrip s).

(** What the script takes from its platform. *)
Record runtime : Type := {
  wb : Winbindexer.runtime;
  (** [SCRIPT_DIR]: the directory of the script, an absolute path *)
  SCRIPT_DIR : path;
  (** The transfer of [urllib.request.urlretrieve(url, dest)]: the content
      received, or the text of the exception *)
  os_urlretrieve : string -> string + string;
  (** [str(e)] for an exception *)
  str_exn : exn -> string
}.

(** What leaves the [try] block of [check_and_download]: an exception
    of the runtime, or the [RuntimeError] of [download_file]. *)
Inductive raised : Type :=
| Exn (e : exn)
| RuntimeError (msg : string).

(** [except (FileNotFoundError, ValueError, RuntimeError)]; the errors
    of [json] and of the codecs are subclasses of [ValueError]. *)
Definition caught (e : exn) : bool :=
  match e with
  | FileNotFoundError _ | ValueError _ | JSONDecodeError | UnicodeError _ => true
  | _ => false
  end.

Section Script.

Variable rt : runtime.

Definition tracking_file : path := SCRIPT_DIR rt ++ ["version.log"].
Definition old_path : path := SCRIPT_DIR rt ++ [String.append "old." filename].
Definition new_path : path := SCRIPT_DIR rt ++ [String.append "new." filename].

(** [download_file(url, dest)]: [None] when the file was written,
    else the message of the [RuntimeError]. *)
Definition download_file (url : string) (dest : path) : world -> option string * world :=
  fun w =>
    match os_urlretrieve rt url with
    | inr err => (Some (fstr ["[!] Download error: "; err]), w)
    | inl data =>
        if fs_is_dir (fs w) dest then
          (Some (fstr ["[!] Download error: [Errno 21] Is a directory: '";
                       path_str dest; "'"]), w)
        else if negb (fs_is_dir (fs w) (removelast dest)) then
          (Some (fstr ["[!] Download error: [Errno 2] No such file or directory: '";
                       path_str dest; "'"]), w)
        else (None, set_fs (fun f => fs_write f dest data) w)
    end.

(** [tracking_file.write_text(text)] *)
Definition write_tracking (text : string) : M unit :=
  fun w =>
    if fs_is_dir (fs w) tracking_file then (Raise (OSError "Is a directory"), w)
    else if negb (fs_is_dir (fs w) (removelast tracking_file))
    then (Raise (FileNotFoundError (path_str tracking_file)), w)
    else (Ok tt, set_fs (fun f => fs_write f tracking_file text) w).

(** The first two statements of the [try] block. *)
Definition sync_and_query : M (list symbol) :=
  ensure_winbindex_repo (wb rt) REPO_URL BRANCH ;;;
  get_latest_symbol_urls (wb rt) filename dbfile windows_version 2.

(** The two downloads and the update of the tracking file. *)
Definition fetch_pair (new_version_url old_version_url : string)
  : world -> (fetch_res + raised) * world :=
  fun w =>
    match download_file old_version_url old_path w with
    | (Some msg, w2) => (inr (RuntimeError msg), w2)
    | (None, w2) =>
        match download_file new_version_url new_path w2 with
        | (Some msg, w3) => (inr (RuntimeError msg), w3)
        | (None, w3) =>
            match write_tracking (String.append new_version_url nl) w3 with
            | (Raise e, w4) => (inr (Exn e), w4)
            | (Ok _, w4) => (inl (ResPair (path_str old_path) (path_str new_path)), w4)
            end
        end
    end.

(** The [try] block: the value returned, or what was raised. *)
Definition try_block : world -> (fetch_res + raised) * world :=
  fun w =>
    match sync_and_query w with
    | (Raise e, w1) => (inr (Exn e), w1)
    | (Ok results, w1) =>
        match results with
        | new_version :: old_version :: _ =>
            match fs_lookup (fs w1) tracking_file with
            | Some (File text) =>
                if String.eqb (strip text) (s_url new_version)
                then (inl ResFalse, w1)
                else fetch_pair (s_url new_version) (s_url old_version) w1
            | Some Dir => (inr (Exn (OSError "Is a directory")), w1)
            | None => fetch_pair (s_url new_version) (s_url old_version) w1
            end
        | _ => (inr (Exn (ValueError "[!] Could not find two version")), w1)
        end
    end.

(** The [except] clause. *)
Definition report_error (msg : string) : M fetch_res :=
  print (fstr ["[!] Error: "; msg]) ;;; ret (ResPair "" "").

(** [check_and_download()] *)
Definition check_and_download : M fetch_res :=
  fun w =>
    match try_block w with
    | (inl res, w') => (Ok res, w')
    | (inr (RuntimeError msg), w') => report_error msg w'
    | (inr (Exn e), w') =>
        if caught e then report_error (str_exn rt e) w' else (Raise e, w')
    end.

(** ** The tracking file names the newest version *)

Lemma rstrip_app_space (s : string) (c : ascii) :
  py_isspace c = true -> rstrip (String.append s (String c EmptyString)) = rstrip s.
Proof.
  intros Hc. induction s as [|a r IH]; simpl.
  - rewrite Hc. reflexivity.
  - rewrite IH. reflexivity.
Qed.

Lemma rstrip_app_keep (a b : string) :
  rstrip b = b -> b <> EmptyString -> rstrip (String.append a b) = String.append a b.
Proof.
  intros Hb Hne. induction a as [|c r IH]; simpl; [exact Hb|].
  rewrite IH. destruct (String.append r b) eqn:E; [|reflexivity].
  exfalso. destruct r; simpl in E; [exact (Hne E) | discriminate E].
Qed.

Lemma lstrip_keep (c : ascii) (r : string) :
  py_isspace c = false -> lstrip (String c r) = String c r.
Proof. intros Hc. simpl. rewrite Hc. reflexivity. Qed.

(** A line that holds the URL of a version of this file, as
    [check_and_download] writes it, is read back as that URL. *)
Lemma strip_url_line (timestamp virtual_size : Z) :
  strip (String.append (generate_url filename timestamp virtual_size) nl) =
  generate_url filename timestamp virtual_size.
Proof.
  assert (HU : generate_url filename timestamp virtual_size =
               String.append "https://msdl.microsoft.com/download/symbols/mrxsmb.sys/"
                 (String.append (format_X timestamp)
                    (String.append (format_X virtual_size) "/mrxsmb.sys")))
    by reflexivity.
  assert (Hr : rstrip (generate_url filename timestamp virtual_size) =
               generate_url filename timestamp virtual_size).
  { rewrite HU. repeat (apply rstrip_app_keep; [|
      let H := fresh in intros H;
      repeat match type of H with
             | String.append ?x _ = EmptyString => destruct x; simpl in H
             end; discriminate H]).
    reflexivity. }
  unfold strip.
  assert (Hl : lstrip (String.append (generate_url filename timestamp virtual_size) nl) =
               String.append (generate_url filename timestamp virtual_size) nl).
  { rewrite HU. apply lstrip_keep. reflexivity. }
  rewrite Hl. unfold nl. rewrite rstrip_app_space by reflexivity. exact Hr.
Qed.

Lemma path_eqb_last (d : path) (a b : string) :
  path_eqb (d ++ [a]) (d ++ [b]) = String.eqb a b.
Proof.
  induction d as [|x d IH]; simpl.
  - rewrite Bool.andb_true_r. reflexivity.
  - rewrite String.eqb_refl. exact IH.
Qed.

Lemma download_file_inv url dest w o w' :
  download_file url dest w = (o, w') ->
  match o with
  | None => exists data, os_urlretrieve rt url = inl data /\
                         fs w' = fs_write (fs w) dest data
  | Some _ => w' = w
  end /\ stdout w' = stdout w /\ procs w' = procs w.
Proof.
  unfold download_file. destruct (os_urlretrieve rt url) as [data|err].
  - destruct (fs_is_dir (fs w) dest); [intros [= <- <-]; repeat split|].
    destruct (negb (fs_is_dir (fs w) (removelast dest))); intros [= <- <-]; repeat split.
    exists data. split; reflexivity.
  - intros [= <- <-]. repeat split.
Qed.

(** What a [try] block that came to its [return] with a pair has done. *)
Lemma fetch_pair_inv nu ou w1 res w' :
  fetch_pair nu ou w1 = (inl res, w') ->
  exists data_old data_new,
    os_urlretrieve rt ou = inl data_old /\
    os_urlretrieve rt nu = inl data_new /\
    res = ResPair (path_str old_path) (path_str new_path) /\
    fs w' = fs_write (fs_write (fs_write (fs w1) old_path data_old) new_path data_new)
              tracking_file (String.append nu nl).
Proof.
  unfold fetch_pair.
  destruct (download_file ou old_path w1) as [[m|] w2] eqn:H1; [discriminate|].
  destruct (download_file nu new_path w2) as [[m|] w3] eqn:H2; [discriminate|].
  destruct (write_tracking (String.append nu nl) w3) as [[u|e] w4] eqn:H3; [|discriminate].
  intros [= <- <-].
  apply download_file_inv in H1 as ((d1 & Hd1 & Hf1) & _).
  apply download_file_inv in H2 as ((d2 & Hd2 & Hf2) & _).
  unfold write_tracking in H3.
  destruct (fs_is_dir (fs w3) tracking_file); [discriminate H3|].
  destruct (negb (fs_is_dir (fs w3) (removelast tracking_file))); [discriminate H3|].
  injection H3 as _ <-. exists d1, d2. simpl. rewrite Hf2, Hf1. repeat split; assumption.
Qed.

Lemma fetch_pair_failed nu ou w1 x w' :
  fetch_pair nu ou w1 = (inr x, w') ->
  fs_lookup (fs w') tracking_file = fs_lookup (fs w1) tracking_file.
Proof.
  assert (Ho : path_eqb old_path tracking_file = false) by (apply path_eqb_last).
  assert (Hn : path_eqb new_path tracking_file = false) by (apply path_eqb_last).
  unfold fetch_pair.
  destruct (download_file ou old_path w1) as [[m|] w2] eqn:H1.
  { intros [= _ <-]. apply download_file_inv in H1 as (-> & _). reflexivity. }
  apply download_file_inv in H1 as ((d1 & _ & Hf1) & _).
  assert (H12 : fs_lookup (fs w2) tracking_file = fs_lookup (fs w1) tracking_file).
  { rewrite Hf1, fs_lookup_write, Ho. reflexivity. }
  destruct (download_file nu new_path w2) as [[m|] w3] eqn:H2.
  { intros [= _ <-]. apply download_file_inv in H2 as (-> & _). exact H12. }
  apply download_file_inv in H2 as ((d2 & _ & Hf2) & _).
  assert (H23 : fs_lookup (fs w3) tracking_file = fs_lookup (fs w1) tracking_file).
  { rewrite Hf2, fs_lookup_write, Hn. exact H12. }
  destruct (write_tracking (String.append nu nl) w3) as [[u|e] w4] eqn:H3; [discriminate|].
  intros [= _ <-]. unfold write_tracking in H3.
  destruct (fs_is_dir (fs w3) tracking_file); [injection H3 as _ <-; exact H23|].
  destruct (negb (fs_is_dir (fs w3) (removelast tracking_file)));
    [injection H3 as _ <-; exact H23 | discriminate H3].
Qed.

Lemma report_error_inv msg w r w' :
  report_error msg w = (r, w') ->
  r = Ok (ResPair "" "") /\ fs w' = fs w /\ procs w' = procs w /\
  stdout w' = stdout w ++ [fstr ["[!] Error: "; msg]].
Proof. unfold report_error, bind, print, ret. intros [= <- <-]. repeat split. Qed.

(** X17.  [check_and_download] returns [False] only when the tracking
    file, read after the repository was brought up to date, holds the
    URL of the newest version (white space at its ends aside); then
    nothing was downloaded and nothing written: the world is as the
    update of the repository left it. *)
Theorem check_and_download_no_update (w w' : world) :
  check_and_download w = (Ok ResFalse, w') ->
  exists new_version old_version rest text,
    sync_and_query w = (Ok (new_version :: old_version :: rest), w') /\
    fs_lookup (fs w') tracking_file = Some (File text) /\
    strip text = s_url new_version.
Proof.
  unfold check_and_download, try_block.
  destruct (sync_and_query w) as [[results|e] w1].
  2:{ destruct (caught e); [|discriminate].
      intros H. apply report_error_inv in H as (H & _). discriminate H. }
  assert (Hrep : forall m, report_error m w1 = (Ok ResFalse, w') -> False).
  { intros m H. apply report_error_inv in H as (H & _). discriminate H. }
  assert (Hpair : forall nu ou,
            match fetch_pair nu ou w1 with
            | (inl res, w'0) => (Ok res, w'0)
            | (inr (Exn e), w'0) =>
                if caught e then report_error (str_exn rt e) w'0 else (Raise e, w'0)
            | (inr (RuntimeError msg), w'0) => report_error msg w'0
            end = (Ok ResFalse, w') -> False).
  { intros nu ou. destruct (fetch_pair nu ou w1) as [[res|[e|m]] w2] eqn:Hf.
    - apply fetch_pair_inv in Hf as (d1 & d2 & _ & _ & -> & _). discriminate.
    - destruct (caught e); [|discriminate].
      intros H. apply report_error_inv in H as (H & _). discriminate H.
    - intros H. apply report_error_inv in H as (H & _). discriminate H. }
  destruct results as [|nv [|ov rest]]; simpl; try (intros H; exact (match Hrep _ H with end)).
  destruct (fs_lookup (fs w1) tracking_file) as [[|text]|] eqn:Hlook.
  - simpl. discriminate.
  - destruct (String.eqb_spec (strip text) (s_url nv)) as [Heq|_].
    + intros [= <-]. exists nv, ov, rest, text. repeat split; assumption.
    + intros H. exact (match Hpair _ _ H with end).
  - intros H. exact (match Hpair _ _ H with end).
Qed.

(** ** A successful call and the call after it *)

Lemma sync_and_query_inv w l w1 :
  sync_and_query w = (Ok l, w1) ->
  Forall (fun s => s_url s = generate_url filename (s_timestamp s) (s_virtual_size s)) l /\
  StronglySorted (fun a b => (s_timestamp b <= s_timestamp a)%Z) l.
Proof.
  unfold sync_and_query. intros H. apply bind_inv in H as (u & w0 & _ & H).
  apply get_latest_symbol_urls_inv in H as (_ & H). exact (H l eq_refl).
Qed.

(** A call that returned a pair with a non-empty first string came to
    the [return] of the [try] block. *)
Lemma check_pair_inv w old new w' :
  check_and_download w = (Ok (ResPair old new), w') -> old <> "" ->
  exists nv ov rest w1,
    sync_and_query w = (Ok (nv :: ov :: rest), w1) /\
    fetch_pair (s_url nv) (s_url ov) w1 = (inl (ResPair old new), w').
Proof.
  unfold check_and_download, try_block. intros H Hold.
  assert (Hrep : forall m w0, report_error m w0 = (Ok (ResPair old new), w') -> False).
  { intros m w0 Hr. apply report_error_inv in Hr as (Hr & _).
    injection Hr as Ho _. exact (Hold Ho). }
  destruct (sync_and_query w) as [[results|e] w1].
  2:{ destruct (caught e); [exfalso; exact (Hrep _ _ H) | discriminate H]. }
  assert (Hpair : forall nu ou,
            match fetch_pair nu ou w1 with
            | (inl res, w'0) => (Ok res, w'0)
            | (inr (Exn e), w'0) =>
                if caught e then report_error (str_exn rt e) w'0 else (Raise e, w'0)
            | (inr (RuntimeError msg), w'0) => report_error msg w'0
            end = (Ok (ResPair old new), w') ->
            fetch_pair nu ou w1 = (inl (ResPair old new), w')).
  { intros nu ou. destruct (fetch_pair nu ou w1) as [[res|[e|m]] w2].
    - intros [= <- <-]. reflexivity.
    - destruct (caught e); [|discriminate].
      intros Hr. exfalso. exact (Hrep _ _ Hr).
    - intros Hr. exfalso. exact (Hrep _ _ Hr). }
  destruct results as [|nv [|ov rest]]; simpl in H;
    try (exfalso; exact (Hrep _ _ H)).
  exists nv, ov, rest, w1. split; [reflexivity|].
  destruct (fs_lookup (fs w1) tracking_file) as [[|text]|].
  - simpl in H. discriminate H.
  - destruct (String.eqb (strip text) (s_url nv)); [discriminate H|].
    exact (Hpair _ _ H).
  - exact (Hpair _ _ H).
Qed.

(** X18.  A call that returned the two paths has fetched the newest
    version and the one before it: the second string names the file
    with the content received for the version with the latest time
    stamp, the first the file with the content received for the next
    one, and the tracking file holds the URL of the newest version and a
    newline. *)
Theorem check_and_download_pair (w : world) (old new : string) (w' : world) :
  check_and_download w = (Ok (ResPair old new), w') -> old <> "" ->
  exists new_version old_version rest w1 data_old data_new,
    sync_and_query w = (Ok (new_version :: old_version :: rest), w1) /\
    (s_timestamp old_version <= s_timestamp new_version)%Z /\
    os_urlretrieve rt (s_url old_version) = inl data_old /\
    os_urlretrieve rt (s_url new_version) = inl data_new /\
    old = path_str old_path /\ new = path_str new_path /\
    fs_lookup (fs w') old_path = Some (File data_old) /\
    fs_lookup (fs w') new_path = Some (File data_new) /\
    fs_lookup (fs w') tracking_file =
      Some (File (String.append (s_url new_version) nl)).
Proof.
  intros H Hold.
  destruct (check_pair_inv _ _ _ _ H Hold) as (nv & ov & rest & w1 & Hsync & Hf).
  apply fetch_pair_inv in Hf as (d1 & d2 & Hd1 & Hd2 & [= -> ->] & Hfs).
  pose proof (sync_and_query_inv _ _ _ Hsync) as (_ & Hsorted).
  inversion Hsorted as [|x l _ Hall]; subst. apply Forall_cons_iff in Hall as [Hle _].
  exists nv, ov, rest, w1, d1, d2. repeat split; try assumption.
  - rewrite Hfs, !fs_lookup_write.
    replace (path_eqb tracking_file old_path) with false
      by (symmetry; apply path_eqb_last).
    replace (path_eqb new_path old_path) with false by (symmetry; apply path_eqb_last).
    rewrite path_eqb_refl. reflexivity.
  - rewrite Hfs, !fs_lookup_write.
    replace (path_eqb tracking_file new_path) with false
      by (symmetry; apply path_eqb_last).
    rewrite path_eqb_refl. reflexivity.
  - rewrite Hfs, fs_lookup_write, path_eqb_refl. reflexivity.
Qed.

(** X19.  A call after a successful one finds no update: when a call
    returned the two paths, and in the next call the repository names
    the same newest version and its update has left the tracking file
    alone, the next call returns [False]; it downloads and writes
    nothing. *)
Theorem check_and_download_idempotent (w : world) (old new : string) (w' : world)
  (nv0 ov0 : symbol) (rest0 : list symbol) (w0 : world)
  (nv ov : symbol) (rest : list symbol) (w1 : world) :
  check_and_download w = (Ok (ResPair old new), w') -> old <> "" ->
  sync_and_query w = (Ok (nv0 :: ov0 :: rest0), w0) ->
  sync_and_query w' = (Ok (nv :: ov :: rest), w1) ->
  fs_lookup (fs w1) tracking_file = fs_lookup (fs w') tracking_file ->
  s_url nv = s_url nv0 ->
  check_and_download w' = (Ok ResFalse, w1).
Proof.
  intros H Hold Hsync0 Hsync1 Hkeep Hsame.
  destruct (check_pair_inv _ _ _ _ H Hold) as (nv' & ov' & rest' & w1' & Hsync & Hf).
  rewrite Hsync0 in Hsync. injection Hsync as <- <- <- <-.
  apply fetch_pair_inv in Hf as (d1 & d2 & _ & _ & _ & Hfs).
  pose proof (sync_and_query_inv _ _ _ Hsync0) as (Hurl & _).
  apply Forall_cons_iff in Hurl as [Hurl _].
  assert (Htrack : fs_lookup (fs w1) tracking_file =
                   Some (File (String.append (s_url nv0) nl))).
  { rewrite Hkeep, Hfs, fs_lookup_write, path_eqb_refl. reflexivity. }
  unfold check_and_download, try_block. rewrite Hsync1, Htrack, Hsame.
  rewrite Hurl at 1. rewrite strip_url_line, <- Hurl, String.eqb_refl. reflexivity.
Qed.

(** X20.  When the transfer of the newest version fails, whatever
    became of the other one: [check_and_download] prints the error and
    returns the pair of empty strings, starts no process, and leaves the
    tracking file as it was, so that the next call tries again. *)
Theorem download_failure_reported (w : world) (nv ov : symbol) (rest : list symbol)
  (w1 : world) (err : string) :
  sync_and_query w = (Ok (nv :: ov :: rest), w1) ->
  (forall text, fs_lookup (fs w1) tracking_file = Some (File text) ->
     strip text <> s_url nv) ->
  fs_is_dir (fs w1) tracking_file = false ->
  os_urlretrieve rt (s_url nv) = inr err ->
  exists msg w',
    check_and_download w = (Ok (ResPair "" ""), w') /\
    fs_lookup (fs w') tracking_file = fs_lookup (fs w1) tracking_file /\
    stdout w' = stdout w1 ++ [fstr ["[!] Error: "; msg]] /\
    procs w' = procs w1.
Proof.
  intros Hsync Hstale Hnodir Hfail.
  assert (Hpair : exists m w2,
            fetch_pair (s_url nv) (s_url ov) w1 = (inr (RuntimeError m), w2) /\
            stdout w2 = stdout w1 /\ procs w2 = procs w1).
  { unfold fetch_pair.
    destruct (download_file (s_url ov) old_path w1) as [[m|] w2] eqn:H1.
    - apply download_file_inv in H1 as (_ & Ho & Hp). eexists _, _. repeat split; assumption.
    - apply download_file_inv in H1 as (_ & Ho & Hp).
      unfold download_file at 1. rewrite Hfail. eexists _, _. repeat split; assumption. }
  destruct Hpair as (m & w2 & Hf & Ho & Hp).
  pose proof (fetch_pair_failed _ _ _ _ _ Hf) as Hkeep.
  assert (Hrun : check_and_download w = report_error m w2).
  { unfold check_and_download, try_block. rewrite Hsync.
    unfold fs_is_dir in Hnodir.
    destruct (fs_lookup (fs w1) tracking_file) as [[|text]|] eqn:Hlook.
    - discriminate Hnodir.
    - specialize (Hstale text eq_refl). apply String.eqb_neq in Hstale.
      rewrite Hstale, Hf. reflexivity.
    - rewrite Hf. reflexivity. }
  exists m. eexists. rewrite Hrun. unfold report_error, bind, print, ret.
  split; [reflexivity|]. simpl. rewrite Ho, Hp. repeat split. exact Hkeep.
Qed.

End Script.

(** ** The script under the orchestrator *)

Section UnderOrchestrator.

Variable pf : platform.
Variable rt : runtime.

(** X21.  What a failure of the fetch script before its downloads does
    to the orchestrator.  When the update of the repository or the
    reading of the data raises [e] in the script that [load_and_run]
    executes: for a [FileNotFoundError] or a [ValueError] (the data file
    is missing, no version is selected, the data does not decode) the
    script prints the error and returns the pair of empty strings, and
    [load_and_run] logs [[!] Unexpected result: ('', '')] and returns
    normally; every other exception (the [CalledProcessError] of a [git]
    that failed, an [OSError]) leaves [check_and_download] and
    [load_and_run].  In both cases no thread is started and the files
    are as the failed step left them. *)
Theorem fetch_failure_outcomes (target_name : string) (force : bool) (st : state)
  (t : path) (w0 : world) (e : exn) (w1 : world) :
  resolve_target_dir pf target_name st = (Ok t, st) ->
  (force && fs_exists (fs (os st)) (abs pf (t // "version.log")) = true ->
   fs_is_file (fs (os st)) (abs pf (t // "version.log")) = true) ->
  fs_is_file (fs (script_world pf t force (os st))) (abs pf (t // SCRIPT_NAME)) = true ->
  os_exec_module pf (t // SCRIPT_NAME) (script_world pf t force (os st))
    = (Ok (Some (check_and_download rt)), w0) ->
  sync_and_query rt w0 = (Raise e, w1) ->
  exists st',
    load_and_run pf target_name force st = ((if caught e then Ok tt else Raise e), st') /\
    ghidriff_threads st' = ghidriff_threads st /\
    fs (os st') = fs w1 /\
    procs (os st') = procs w1 /\
    stdout (os st') =
      stdout w1 ++
      (if caught e
       then [fstr ["[!] Error: "; str_exn rt e]; "[!] Unexpected result: ('', '')"]
       else []).
Proof.
  intros Hres Hlog Hthere Hmod Hsync.
  rewrite (load_and_run_runs_script pf target_name force st t _ w0 Hres Hlog Hthere Hmod).
  cbv zeta. unfold check_and_download, try_block. rewrite Hsync.
  destruct (caught e).
  - unfold report_error, bind, print, ret. simpl verdict.
    unfold log, in_os, print. eexists. split; [reflexivity|]. simpl.
    rewrite <- app_assoc. repeat split.
  - eexists. split; [reflexivity|]. simpl. rewrite app_nil_r. repeat split.
Qed.

End UnderOrchestrator.

(** ** The script on the demo target *)

Definition demo_fetch (url : string) : string + string :=
  inl (String.append "binary from " url).

Definition demo_str_exn (e : exn) : string :=
  match e with
  | ValueError m => m
  | FileNotFoundError m => m
  | JSONDecodeError => "Expecting value: line 1 column 1 (char 0)"
  | UnicodeError m => m
  | _ => ""
  end.

Definition demo_frt (wbrt : Winbindexer.runtime) (fetch : string -> string + string)
  : runtime :=
  {| wb := wbrt; SCRIPT_DIR := demo_target; os_urlretrieve := fetch;
     str_exn := demo_str_exn |}.

(** The newest version of the demo data and the one before it. *)
Definition demo_new : symbol := Eval vm_compute in nth 0 demo_latest (to_symbol
  {| v_timestamp := 0; v_virtual_size := 0; v_sha256 := ""; v_filename := "" |}).
Definition demo_old : symbol := Eval vm_compute in nth 1 demo_latest demo_new.

(** A transfer that fails for the newest version. *)
Definition failing_fetch (url : string) : string + string :=
  if String.eqb url (s_url demo_new) then inr "HTTP Error 404: Not Found"
  else demo_fetch url.

(** A data file that does not decode. *)
Definition corrupt_wb : Winbindexer.runtime :=
  {| BASE_DIR := BASE_DIR (demo_wb 0);
     decode_db := fun _ => Raise JSONDecodeError;
     os_git := os_git (demo_wb 0) |}.

Definition first_world : world := os (demo_start 2).

(** The world after the repository was cloned, after the first call and
    after the second. *)
Definition after_sync : world :=
  Eval vm_compute in snd (sync_and_query (demo_frt (demo_wb 0) demo_fetch) first_world).
Definition after_first : world :=
  Eval vm_compute in snd (check_and_download (demo_frt (demo_wb 0) demo_fetch) first_world).
Definition after_second : world :=
  Eval vm_compute in snd (check_and_download (demo_frt (demo_wb 0) demo_fetch) after_first).

(** X17 at the second call on the demo target. *)
Lemma check_and_download_no_update_witness :
  exists new_version old_version rest text,
    sync_and_query (demo_frt (demo_wb 0) demo_fetch) after_first
      = (Ok (new_version :: old_version :: rest), after_second) /\
    fs_lookup (fs after_second) (tracking_file (demo_frt (demo_wb 0) demo_fetch))
      = Some (File text) /\
    strip text = s_url new_version.
Proof.
  apply (check_and_download_no_update (demo_frt (demo_wb 0) demo_fetch)
           after_first after_second).
  vm_compute. reflexivity.
Defined.

(** X18 at the first call on the demo target. *)
Lemma check_and_download_pair_witness :
  exists new_version old_version rest w1 data_old data_new,
    sync_and_query (demo_frt (demo_wb 0) demo_fetch) first_world
      = (Ok (new_version :: old_version :: rest), w1) /\
    (s_timestamp old_version <= s_timestamp new_version)%Z /\
    demo_fetch (s_url old_version) = inl data_old /\
    demo_fetch (s_url new_version) = inl data_new /\
    "/app/targets/mrxsmb/old.mrxsmb.sys"
      = path_str (old_path (demo_frt (demo_wb 0) demo_fetch)) /\
    "/app/targets/mrxsmb/new.mrxsmb.sys"
      = path_str (new_path (demo_frt (demo_wb 0) demo_fetch)) /\
    fs_lookup (fs after_first) (old_path (demo_frt (demo_wb 0) demo_fetch))
      = Some (File data_old) /\
    fs_lookup (fs after_first) (new_path (demo_frt (demo_wb 0) demo_fetch))
      = Some (File data_new) /\
    fs_lookup (fs after_first) (tracking_file (demo_frt (demo_wb 0) demo_fetch))
      = Some (File (String.append (s_url new_version) nl)).
Proof.
  apply (check_and_download_pair (demo_frt (demo_wb 0) demo_fetch) first_world
           "/app/targets/mrxsmb/old.mrxsmb.sys" "/app/targets/mrxsmb/new.mrxsmb.sys"
           after_first).
  - vm_compute. reflexivity.
  - discriminate.
Defined.

(** X19 at the two calls on the demo target. *)
Lemma check_and_download_idempotent_witness :
  check_and_download (demo_frt (demo_wb 0) demo_fetch) after_first
    = (Ok ResFalse, after_second).
Proof.
  apply (check_and_download_idempotent (demo_frt (demo_wb 0) demo_fetch) first_world
           "/app/targets/mrxsmb/old.mrxsmb.sys" "/app/targets/mrxsmb/new.mrxsmb.sys"
           after_first demo_new demo_old [] after_sync demo_new demo_old [] after_second).
  - vm_compute. reflexivity.
  - discriminate.
  - vm_compute. reflexivity.
  - vm_compute. reflexivity.
  - vm_compute. reflexivity.
  - reflexivity.
Defined.

(** X20 on the demo target with a transfer that fails for the newest
    version: the old one is fetched, the tracking file is not made. *)
Lemma download_failure_reported_witness :
  exists msg w',
    check_and_download (demo_frt (demo_wb 0) failing_fetch) first_world
      = (Ok (ResPair "" ""), w') /\
    fs_lookup (fs w') (tracking_file (demo_frt (demo_wb 0) failing_fetch))
      = fs_lookup (fs after_sync) (tracking_file (demo_frt (demo_wb 0) failing_fetch)) /\
    stdout w' = stdout after_sync ++ [fstr ["[!] Error: "; msg]] /\
    procs w' = procs after_sync.
Proof.
  apply (download_failure_reported (demo_frt (demo_wb 0) failing_fetch) first_world
           demo_new demo_old [] after_sync "HTTP Error 404: Not Found").
  - vm_compute. reflexivity.
  - intros text H. vm_compute in H. discriminate H.
  - vm_compute. reflexivity.
  - vm_compute. reflexivity.
Defined.

(** The demo platform with this script in the target directory. *)
Definition demo_pf_running (frt : runtime) : platform :=
  {| Diffalayze.rt := flaky_rt;
     TARGETS_DIR := TARGETS_DIR (demo_pf 1);
     LLM_SCRIPT := LLM_SCRIPT (demo_pf 1);
     UID := 1000;
     GID := 1000;
     os_resolve := os_resolve (demo_pf 1);
     os_exec_module := fun _ => ret (Some (check_and_download frt));
     py_repr_str := py_repr_str (demo_pf 1);
     os_launch := os_launch (demo_pf 1);
     os_docker := os_docker (demo_pf 1);
     os_now := os_now (demo_pf 1) |}.

(** X21 on the demo target: a [git clone] that ends with status 128
    ends [load_and_run] with [CalledProcessError]; a data file that does
    not decode is reported and [load_and_run] returns. *)
Lemma fetch_failure_outcomes_witness :
  (exists st',
     load_and_run (demo_pf_running (demo_frt (demo_wb 128) demo_fetch)) "mrxsmb" false
       (demo_start 2) = (Raise (CalledProcessError 128), st') /\
     ghidriff_threads st' = [] /\
     fs (os st') = demo_disk /\
     List.length (procs (os st')) = 1 /\
     stdout (os st') =
       ["[*] Fetch script for mrxsmb";
        "[*] Cloning winbindex repo (this may take some time)"]) /\
  (exists st',
     load_and_run (demo_pf_running (demo_frt corrupt_wb demo_fetch)) "mrxsmb" false
       (demo_start 2) = (Ok tt, st') /\
     ghidriff_threads st' = [] /\
     fs (os st') = fs after_sync /\
     List.length (procs (os st')) = 1 /\
     stdout (os st') =
       ["[*] Fetch script for mrxsmb";
        "[*] Cloning winbindex repo (this may take some time)";
        "[!] Error: Expecting value: line 1 column 1 (char 0)";
        "[!] Unexpected result: ('', '')"]).
Proof.
  split.
  - destruct (fetch_failure_outcomes (demo_pf_running (demo_frt (demo_wb 128) demo_fetch))
                (demo_frt (demo_wb 128) demo_fetch) "mrxsmb" false (demo_start 2)
                demo_target
                (script_world (demo_pf_running (demo_frt (demo_wb 128) demo_fetch))
                   demo_target false (os (demo_start 2)))
                (CalledProcessError 128)
                (snd (sync_and_query (demo_frt (demo_wb 128) demo_fetch)
                        (script_world (demo_pf_running (demo_frt (demo_wb 128) demo_fetch))
                           demo_target false (os (demo_start 2)))))
                eq_refl (fun H => match Bool.diff_false_true H with end)
                eq_refl eq_refl eq_refl)
      as (st' & Hrun & Ht & Hf & Hp & Ho).
    exists st'. split; [exact Hrun|]. split; [exact Ht|].
    split; [rewrite Hf; reflexivity|]. split; [rewrite Hp; reflexivity|].
    rewrite Ho. reflexivity.
  - destruct (fetch_failure_outcomes (demo_pf_running (demo_frt corrupt_wb demo_fetch))
                (demo_frt corrupt_wb demo_fetch) "mrxsmb" false (demo_start 2)
                demo_target
                (script_world (demo_pf_running (demo_frt corrupt_wb demo_fetch))
                   demo_target false (os (demo_start 2)))
                JSONDecodeError
                (snd (sync_and_query (demo_frt corrupt_wb demo_fetch)
                        (script_world (demo_pf_running (demo_frt corrupt_wb demo_fetch))
                           demo_target false (os (demo_start 2)))))
                eq_refl (fun H => match Bool.diff_false_true H with end)
                eq_refl eq_refl eq_refl)
      as (st' & Hrun & Ht & Hf & Hp & Ho).
    exists st'. split; [exact Hrun|]. split; [exact Ht|].
    split; [rewrite Hf; reflexivity|]. split; [rewrite Hp; reflexivity|].
    rewrite Ho. reflexivity.
Defined.

End FetchTarget.
